(** * Jobly: the partial-update helper, the filter builders and the
    Company / Job entity managers, embedded over a small relational store.

    Layout of the development:
    - [Js]: the JavaScript values the code handles (strings, numbers,
      objects as ordered property lists, [parseInt], template literals);
    - [sqlForPartialUpdate] (helpers/sql.js);
    - [Sql]: lexer, parser, binder and executor for the SQL the managers
      send through [db.query];
    - [Company] and [Job]: the six operations of each manager, in a state
      and error monad over the store and the log of issued statements;
    - the theorems, one section per property of the specification.

    Modelling conventions.  JavaScript strings are byte strings; numbers are
    exact integers (which agrees with IEEE doubles up to 2^53), a decimal
    such as an equity being passed as its text, which is what the database
    driver sends for any value; an object is the list of its own enumerable
    properties in [Object.keys] order. *)

From Stdlib Require Import String Ascii List ZArith Lia Bool Permutation.
From Stdlib Require Import DecimalString DecimalZ DecimalPos Sorted.
Import ListNotations.

Local Open Scope string_scope.
Local Open Scope list_scope.

Infix "+++" := String.append (right associativity, at level 60).

(* ===================================================================== *)
(** ** JavaScript values                                                  *)
(* ===================================================================== *)

Module Js.

(** The double-quote character and the line feed, which the SQL templates
    of the source contain. *)
Definition dq : string := String "034"%char EmptyString.
Definition nl : string := String "010"%char EmptyString.

(** A template literal that spans several source lines. *)
Definition lines (l : list string) : string := String.concat nl l.

(** [JNative f] is a built-in function object (as found on
    [Object.prototype]); [JProto] is the object [Object.prototype] itself.
    Both only arise from property lookups that fall through to the
    prototype. *)
Inductive JsVal : Type :=
| JUndef
| JNull
| JBool (b : bool)
| JNum (z : Z)
| JStr (s : string)
| JNative (f : string)
| JProto.

(** Own enumerable properties, in [Object.keys] order. *)
Definition JsObj : Type := list (string * JsVal).

Definition Object_keys (o : JsObj) : list string := map fst o.
Definition Object_values (o : JsObj) : list JsVal := map snd o.

Fixpoint own_property (o : JsObj) (k : string) : option JsVal :=
  match o with
  | [] => None
  | (k', v) :: o' => if String.eqb k' k then Some v else own_property o' k
  end.

(** The members every object inherits from [Object.prototype]. *)
Definition prototype_functions : list string :=
  [ "constructor"; "__defineGetter__"; "__defineSetter__"; "hasOwnProperty";
    "__lookupGetter__"; "__lookupSetter__"; "isPrototypeOf";
    "propertyIsEnumerable"; "toString"; "valueOf"; "toLocaleString" ].

Definition inherited_property (k : string) : option JsVal :=
  if String.eqb k "__proto__" then Some JProto
  else if existsb (String.eqb k) prototype_functions then
    Some (JNative (if String.eqb k "constructor" then "Object" else k))
  else None.

(** [o[k]] and [o.k]: own property first, then the prototype, else
    [undefined]. *)
Definition get (o : JsObj) (k : string) : JsVal :=
  match own_property o k with
  | Some v => v
  | None => match inherited_property k with
            | Some v => v
            | None => JUndef
            end
  end.

(** [v !== undefined] *)
Definition defined (v : JsVal) : bool :=
  match v with JUndef => false | _ => true end.

(** Truthiness, as used by [||], [!] and [if]. *)
Definition truthy (v : JsVal) : bool :=
  match v with
  | JUndef | JNull => false
  | JBool b => b
  | JNum z => negb (Z.eqb z 0)
  | JStr s => negb (String.eqb s EmptyString)
  | JNative _ | JProto => true
  end.

(** [a || b] *)
Definition or_else (a b : JsVal) : JsVal := if truthy a then a else b.

Definition show_Z (z : Z) : string := NilZero.string_of_int (Z.to_int z).

(** String conversion, as performed by template literals and by ["$" + n]. *)
Definition to_string (v : JsVal) : string :=
  match v with
  | JUndef => "undefined"
  | JNull => "null"
  | JBool true => "true"
  | JBool false => "false"
  | JNum z => show_Z z
  | JStr s => s
  | JNative f => "function " +++ f +++ "() { [native code] }"
  | JProto => "[object Object]"
  end.

(** *** [parseInt] (no radix argument) *)

(** A string is the sequence of the bytes of its UTF-8 encoding. [parseInt]
    first drops the leading white space and line terminators of the
    language: TAB, LF, VT, FF, CR and SP, of one byte each, ... *)
Definition is_js_space (c : ascii) : bool :=
  let n := nat_of_ascii c in
  (Nat.eqb n 32 || (Nat.leb 9 n && Nat.leb n 13))%bool.

(** ... U+00A0 (no-break space), of two bytes, ... *)
Definition is_js_space2 (c1 c2 : ascii) : bool :=
  (Nat.eqb (nat_of_ascii c1) 194 && Nat.eqb (nat_of_ascii c2) 160)%bool.

(** ... and, of three bytes each, U+1680, U+2000 to U+200A, U+2028, U+2029,
    U+202F, U+205F, U+3000 and U+FEFF. *)
Definition is_js_space3 (c1 c2 c3 : ascii) : bool :=
  let a := nat_of_ascii c1 in
  let b := nat_of_ascii c2 in
  let c := nat_of_ascii c3 in
  ((Nat.eqb a 225 && Nat.eqb b 154 && Nat.eqb c 128)
   || (Nat.eqb a 226 && Nat.eqb b 128
       && ((Nat.leb 128 c && Nat.leb c 138)
           || Nat.eqb c 168 || Nat.eqb c 169 || Nat.eqb c 175))
   || (Nat.eqb a 226 && Nat.eqb b 129 && Nat.eqb c 159)
   || (Nat.eqb a 227 && Nat.eqb b 128 && Nat.eqb c 128)
   || (Nat.eqb a 239 && Nat.eqb b 187 && Nat.eqb c 191))%bool.

Definition digit_value (radix : Z) (c : ascii) : option Z :=
  let n := Z.of_nat (nat_of_ascii c) in
  let d := if ((48 <=? n) && (n <=? 57))%Z%bool then Some (n - 48)%Z
           else if ((97 <=? n) && (n <=? 122))%Z%bool then Some (n - 87)%Z
           else if ((65 <=? n) && (n <=? 90))%Z%bool then Some (n - 55)%Z
           else None in
  match d with
  | Some v => if (v <? radix)%Z then Some v else None
  | None => None
  end.

Fixpoint skip_spaces (s : string) : string :=
  match s with
  | EmptyString => s
  | String c1 s1 =>
      if is_js_space c1 then skip_spaces s1
      else
        match s1 with
        | EmptyString => s
        | String c2 s2 =>
            if is_js_space2 c1 c2 then skip_spaces s2
            else
              match s2 with
              | EmptyString => s
              | String c3 s3 =>
                  if is_js_space3 c1 c2 c3 then skip_spaces s3 else s
              end
        end
  end.

(** Longest prefix of digits of the radix, folded into a number; [None]
    when there is no digit at all. *)
Fixpoint read_digits (radix : Z) (acc : option Z) (s : string) : option Z :=
  match s with
  | String c s' =>
      match digit_value radix c with
      | Some d =>
          read_digits radix
            (Some (match acc with Some a => a * radix + d | None => d end)%Z) s'
      | None => acc
      end
  | EmptyString => acc
  end.

Definition strip_hex_prefix (s : string) : option string :=
  match s with
  | String "0" (String "x" s') => Some s'
  | String "0" (String "X" s') => Some s'
  | _ => None
  end.

Definition read_magnitude (s : string) : option Z :=
  match strip_hex_prefix s with
  | Some s' => read_digits 16 None s'
  | None => read_digits 10 None s
  end.

(** [parseInt] of a string; [None] is [NaN]. *)
Definition parseInt_string (s : string) : option Z :=
  match skip_spaces s with
  | String "-" s' => option_map Z.opp (read_magnitude s')
  | String "+" s' => read_magnitude s'
  | s' => read_magnitude s'
  end.

(** [parseInt(v)]: the argument is converted to a string first. The result
    is the integer that the digits write. A JavaScript number holds it as
    written when it is a safe integer; beyond that range the language rounds
    to the nearest double, which this function does not do, so a property
    that depends on how two results compare, or on how a result is printed,
    bounds them. *)
Definition parseInt (v : JsVal) : option Z :=
  match v with
  | JNum z => Some z
  | _ => parseInt_string (to_string v)
  end.

(** [Number.isSafeInteger(n)]: at most 2^53 - 1 in absolute value. *)
Definition is_safe_integer (z : Z) : bool :=
  (Z.abs z <=? 9007199254740991)%Z.

(** [`${parseInt(v)}`] *)
Definition show_number (n : option Z) : string :=
  match n with
  | Some z => show_Z z
  | None => "NaN"
  end.

End Js.

Import Js.

(* ===================================================================== *)
(** ** Errors (expressError)                                              *)
(* ===================================================================== *)

(** What the relational store can answer instead of rows. *)
Inductive StoreFailure : Type :=
| SyntaxFailure
| UndefinedName
| TypeFailure
| MissingParameter
| ConstraintViolation.

Inductive Error : Type :=
| BadRequestError (message : string)
| NotFoundError (message : string)
| StoreError (f : StoreFailure).

Inductive Result (A : Type) : Type :=
| Ok (a : A)
| Throw (e : Error).
Arguments Ok {A} a.
Arguments Throw {A} e.

(* ===================================================================== *)
(** ** helpers/sql.js                                                     *)
(* ===================================================================== *)

Record UpdateClause : Type := {
  setCols : string;
  values : list JsVal
}.

(** [`${jsToSql[colName] || colName}`] *)
Definition column_name (jsToSql : JsObj) (colName : string) : string :=
  to_string (or_else (get jsToSql colName) (JStr colName)).

(** The callback of [keys.map]:
    [`"${jsToSql[colName] || colName}"=$${idx + 1}`] *)
Definition column_assignment (jsToSql : JsObj) (colName : string) (idx : nat)
  : string :=
  dq +++ column_name jsToSql colName +++ dq
     +++ "=$" +++ show_Z (Z.of_nat idx + 1).

(** [keys.map((colName, idx) => ...)], with [idx] counted from [start]. *)
Fixpoint map_with_index (f : string -> nat -> string)
    (start : nat) (keys : list string) : list string :=
  match keys with
  | [] => []
  | k :: keys' => f k start :: map_with_index f (S start) keys'
  end.

Definition sqlForPartialUpdate (dataToUpdate jsToSql : JsObj)
  : Result UpdateClause :=
  let keys := Object_keys dataToUpdate in
  if Nat.eqb (length keys) 0 then Throw (BadRequestError "No data")
  else
    let cols := map_with_index (column_assignment jsToSql) 0 keys in
    Ok {| setCols := String.concat ", " cols;
          values := Object_values dataToUpdate |}.


(* ===================================================================== *)
(** ** The relational store: SQL text                                     *)
(* ===================================================================== *)

(** Modelled from the spec: the store behind [db.query] (the [db] module
    and the database engine) is not among the sources; section 6 of the
    specification describes it as a relational store that executes a
    parameterized SQL string with positional bind values and returns rows.
    [Sql] interprets the fragment of SQL that the managers emit:
    single-table SELECT / INSERT / UPDATE / DELETE, conditions built from
    comparisons, BETWEEN, ILIKE, IS [NOT] NULL, AND and OR, with the usual
    precedence (AND binds tighter than OR) and three-valued logic.  Text
    outside the fragment is answered with [SyntaxFailure].  Rows without
    ORDER BY come in table order; text is ordered bytewise. *)

Module Sql.

Inductive keyword : Type :=
| KSelect | KFrom | KWhere | KAnd | KOr | KIs | KNot | KNull | KIlike
| KBetween | KOrder | KBy | KInsert | KInto | KValues | KReturning
| KUpdate | KSet | KDelete | KAs.

Inductive token : Type :=
| TKw (k : keyword)
| TId (s : string)        (* unquoted identifier, folded to lower case *)
| TQId (s : string)       (* "quoted identifier" *)
| TStr (s : string)       (* 'string literal' *)
| TNum (z : Z)
| TParam (n : nat)        (* $n *)
| TComma | TLParen | TRParen
| TEq | TNe | TLt | TLe | TGt | TGe | TMinus.

(** *** Lexer: a state machine that reads one character at a time *)

Inductive lstate : Type :=
| LStart
| LWord (acc : string)
| LNum (digits : string)
| LParam (digits : string)
| LQId (acc : string)
| LQIdQuote (acc : string)   (* just read a double quote inside "..." *)
| LStr (acc : string)
| LStrQuote (acc : string)   (* just read a quote inside '...' *)
| LLt | LGt | LMinus
| LComment.                  (* after two dashes, up to the end of the line *)

Definition code (c : ascii) : nat := nat_of_ascii c.

Definition is_space (c : ascii) : bool :=
  (Nat.eqb (code c) 32 || (Nat.leb 9 (code c) && Nat.leb (code c) 13))%bool.

Definition is_digit (c : ascii) : bool :=
  (Nat.leb 48 (code c) && Nat.leb (code c) 57)%bool.

Definition is_upper (c : ascii) : bool :=
  (Nat.leb 65 (code c) && Nat.leb (code c) 90)%bool.

Definition is_lower (c : ascii) : bool :=
  (Nat.leb 97 (code c) && Nat.leb (code c) 122)%bool.

Definition is_ident_start (c : ascii) : bool :=
  (is_upper c || is_lower c || Nat.eqb (code c) 95 || Nat.leb 128 (code c))%bool.

Definition is_ident_part (c : ascii) : bool :=
  (is_ident_start c || is_digit c || Nat.eqb (code c) 36)%bool.

Definition lower (c : ascii) : ascii :=
  if is_upper c then ascii_of_nat (code c + 32) else c.

Fixpoint lower_string (s : string) : string :=
  match s with
  | EmptyString => EmptyString
  | String c s' => String (lower c) (lower_string s')
  end.

Definition snoc (s : string) (c : ascii) : string := s +++ String c EmptyString.

(** The number written by a run of decimal digits. *)
Definition number_of_digits (digits : string) : Z :=
  match NilEmpty.uint_of_string digits with
  | Some u => Z.of_uint u
  | None => 0
  end.

Definition keywords : list (string * keyword) :=
  [ ("select", KSelect); ("from", KFrom); ("where", KWhere); ("and", KAnd);
    ("or", KOr); ("is", KIs); ("not", KNot); ("null", KNull);
    ("ilike", KIlike); ("between", KBetween); ("order", KOrder); ("by", KBy);
    ("insert", KInsert); ("into", KInto); ("values", KValues);
    ("returning", KReturning); ("update", KUpdate); ("set", KSet);
    ("delete", KDelete); ("as", KAs) ].

Fixpoint lookup_keyword (l : list (string * keyword)) (w : string)
  : option keyword :=
  match l with
  | [] => None
  | (s, k) :: l' => if String.eqb s w then Some k else lookup_keyword l' w
  end.

Definition word_token (w : string) : token :=
  match lookup_keyword keywords w with
  | Some k => TKw k
  | None => TId w
  end.

(** A character met outside any token. *)
Definition lex_start (c : ascii) : option (list token * lstate) :=
  if is_space c then Some ([], LStart)
  else if is_ident_start c then Some ([], LWord (String (lower c) EmptyString))
  else if is_digit c then Some ([], LNum (String c EmptyString))
  else match c with
       | "$"%char => Some ([], LParam EmptyString)
       | "034"%char => Some ([], LQId EmptyString)
       | "'"%char => Some ([], LStr EmptyString)
       | ","%char => Some ([TComma], LStart)
       | "("%char => Some ([TLParen], LStart)
       | ")"%char => Some ([TRParen], LStart)
       | "="%char => Some ([TEq], LStart)
       | "<"%char => Some ([], LLt)
       | ">"%char => Some ([], LGt)
       | "-"%char => Some ([], LMinus)
       | _ => None
       end.

(** Close the token in progress, then treat [c] as a fresh character. *)
Definition emit_then (t : token) (c : ascii) : option (list token * lstate) :=
  match lex_start c with
  | Some (ts, st) => Some (t :: ts, st)
  | None => None
  end.

Definition lex_step (st : lstate) (c : ascii) : option (list token * lstate) :=
  match st with
  | LStart => lex_start c
  | LWord acc =>
      if is_ident_part c then Some ([], LWord (snoc acc (lower c)))
      else emit_then (word_token acc) c
  | LNum ds =>
      if is_digit c then Some ([], LNum (snoc ds c))
      else if is_ident_start c then None
      else emit_then (TNum (number_of_digits ds)) c
  | LParam ds =>
      if is_digit c then Some ([], LParam (snoc ds c))
      else if is_ident_start c then None
      else match ds with
           | EmptyString => None
           | _ => emit_then (TParam (Z.to_nat (number_of_digits ds))) c
           end
  | LQId acc =>
      match c with
      | "034"%char => Some ([], LQIdQuote acc)
      | _ => Some ([], LQId (snoc acc c))
      end
  | LQIdQuote acc =>
      match c with
      | "034"%char => Some ([], LQId (snoc acc c))
      | _ => match acc with
             | EmptyString => None
             | _ => emit_then (TQId acc) c
             end
      end
  | LStr acc =>
      match c with
      | "'"%char => Some ([], LStrQuote acc)
      | _ => Some ([], LStr (snoc acc c))
      end
  | LStrQuote acc =>
      match c with
      | "'"%char => Some ([], LStr (snoc acc c))
      | _ => emit_then (TStr acc) c
      end
  | LLt =>
      match c with
      | "="%char => Some ([TLe], LStart)
      | ">"%char => Some ([TNe], LStart)
      | _ => emit_then TLt c
      end
  | LGt =>
      match c with
      | "="%char => Some ([TGe], LStart)
      | _ => emit_then TGt c
      end
  | LMinus =>
      match c with
      | "-"%char => Some ([], LComment)
      | _ => emit_then TMinus c
      end
  | LComment =>
      if (Nat.eqb (code c) 10 || Nat.eqb (code c) 13)%bool
      then Some ([], LStart) else Some ([], LComment)
  end.

(** End of the text. *)
Definition lex_end (st : lstate) : option (list token) :=
  match st with
  | LStart | LComment => Some []
  | LWord acc => Some [word_token acc]
  | LNum ds => Some [TNum (number_of_digits ds)]
  | LParam EmptyString => None
  | LParam ds => Some [TParam (Z.to_nat (number_of_digits ds))]
  | LQId _ => None
  | LQIdQuote EmptyString => None
  | LQIdQuote acc => Some [TQId acc]
  | LStr _ => None
  | LStrQuote acc => Some [TStr acc]
  | LLt => Some [TLt]
  | LGt => Some [TGt]
  | LMinus => Some [TMinus]
  end.

Fixpoint lex_from (st : lstate) (s : string) : option (list token) :=
  match s with
  | EmptyString => lex_end st
  | String c s' =>
      match lex_step st c with
      | None => None
      | Some (out, st') =>
          match lex_from st' s' with
          | None => None
          | Some ts => Some (out ++ ts)
          end
      end
  end.

Definition lex (s : string) : option (list token) := lex_from LStart s.

(** The machine run over a piece of text that is not the end of the
    statement: the tokens completed so far and the state reached. *)
Fixpoint lex_run (st : lstate) (s : string) : option (list token * lstate) :=
  match s with
  | EmptyString => Some ([], st)
  | String c s' =>
      match lex_step st c with
      | None => None
      | Some (out, st') =>
          match lex_run st' s' with
          | None => None
          | Some (ts, st'') => Some (out ++ ts, st'')
          end
      end
  end.

Fixpoint all_digits (s : string) : bool :=
  match s with
  | EmptyString => true
  | String c s' => (is_digit c && all_digits s')%bool
  end.


(** *** Abstract syntax *)

Inductive Atom : Type :=
| AColumn (name : string)
| AInt (z : Z)
| ALit (s : string)         (* a quoted literal, of no type of its own *)
| AParam (n : nat).

Inductive CmpOp : Type := OpEq | OpNe | OpLt | OpLe | OpGt | OpGe.

Inductive Expr : Type :=
| ECmp (op : CmpOp) (a b : Atom)
| EBetween (a lo hi : Atom)
| EILike (a pattern : Atom)
| EIsNull (a : Atom)
| EIsNotNull (a : Atom)
| EAnd (e1 e2 : Expr)
| EOr (e1 e2 : Expr).

(** [column AS alias]; without AS the alias is the column name. *)
Record SelItem : Type := { si_column : string; si_alias : string }.

Inductive Stmt : Type :=
| Select (items : list SelItem) (table : string)
         (condition : option Expr) (order_by : option string)
| Insert (table : string) (cols : list string) (vals : list Atom)
         (returning : list SelItem)
| Update (table : string) (assignments : list (string * Atom))
         (condition : option Expr) (returning : list SelItem)
| Delete (table : string) (condition : option Expr)
         (returning : list SelItem).

(** *** Parser: recursive descent over the token list *)

Definition parse_atom (ts : list token) : option (Atom * list token) :=
  match ts with
  | TId c :: r => Some (AColumn c, r)
  | TQId c :: r => Some (AColumn c, r)
  | TNum z :: r => Some (AInt z, r)
  | TMinus :: TNum z :: r => Some (AInt (- z), r)
  | TStr s :: r => Some (ALit s, r)
  | TParam n :: r => Some (AParam n, r)
  | _ => None
  end.

Definition cmp_of_token (t : token) : option CmpOp :=
  match t with
  | TEq => Some OpEq | TNe => Some OpNe
  | TLt => Some OpLt | TLe => Some OpLe
  | TGt => Some OpGt | TGe => Some OpGe
  | _ => None
  end.

(** One predicate: [a op b], [a ILIKE p], [a BETWEEN lo AND hi],
    [a IS NULL], [a IS NOT NULL]. *)
Definition parse_predicate (ts : list token) : option (Expr * list token) :=
  match parse_atom ts with
  | None => None
  | Some (a, r) =>
      match r with
      | TKw KIs :: TKw KNull :: r1 => Some (EIsNull a, r1)
      | TKw KIs :: TKw KNot :: TKw KNull :: r1 => Some (EIsNotNull a, r1)
      | TKw KIlike :: r1 =>
          match parse_atom r1 with
          | Some (p, r2) => Some (EILike a p, r2)
          | None => None
          end
      | TKw KBetween :: r1 =>
          match parse_atom r1 with
          | Some (lo, TKw KAnd :: r2) =>
              match parse_atom r2 with
              | Some (hi, r3) => Some (EBetween a lo hi, r3)
              | None => None
              end
          | _ => None
          end
      | t :: r1 =>
          match cmp_of_token t with
          | Some op =>
              match parse_atom r1 with
              | Some (b, r2) => Some (ECmp op a b, r2)
              | None => None
              end
          | None => None
          end
      | [] => None
      end
  end.

(** [p AND p AND ...]; AND is associative, the tree leans to the right. *)
Fixpoint parse_conjunction (fuel : nat) (ts : list token)
  : option (Expr * list token) :=
  match fuel with
  | O => None
  | S fuel' =>
      match parse_predicate ts with
      | Some (e, TKw KAnd :: r) =>
          match parse_conjunction fuel' r with
          | Some (e', r') => Some (EAnd e e', r')
          | None => None
          end
      | other => other
      end
  end.

(** [c OR c OR ...], each [c] a conjunction. *)
Fixpoint parse_disjunction (fuel : nat) (ts : list token)
  : option (Expr * list token) :=
  match fuel with
  | O => None
  | S fuel' =>
      match parse_conjunction (S (length ts)) ts with
      | Some (e, TKw KOr :: r) =>
          match parse_disjunction fuel' r with
          | Some (e', r') => Some (EOr e e', r')
          | None => None
          end
      | other => other
      end
  end.

Definition parse_expr (ts : list token) : option (Expr * list token) :=
  parse_disjunction (S (length ts)) ts.

Definition parse_name (ts : list token) : option (string * list token) :=
  match ts with
  | TId c :: r => Some (c, r)
  | TQId c :: r => Some (c, r)
  | _ => None
  end.

Definition parse_sel_item (ts : list token) : option (SelItem * list token) :=
  match parse_name ts with
  | Some (c, TKw KAs :: r) =>
      match parse_name r with
      | Some (a, r') => Some ({| si_column := c; si_alias := a |}, r')
      | None => None
      end
  | Some (c, r) => Some ({| si_column := c; si_alias := c |}, r)
  | None => None
  end.

(** A comma-separated list of [item]s. *)
Section CommaList.
Context {A : Type} (item : list token -> option (A * list token)).

Fixpoint parse_list (fuel : nat) (ts : list token)
  : option (list A * list token) :=
  match fuel with
  | O => None
  | S fuel' =>
      match item ts with
      | Some (x, TComma :: r) =>
          match parse_list fuel' r with
          | Some (xs, r') => Some (x :: xs, r')
          | None => None
          end
      | Some (x, r) => Some ([x], r)
      | None => None
      end
  end.
End CommaList.

Definition parse_items (ts : list token) :=
  parse_list parse_sel_item (S (length ts)) ts.
Definition parse_names (ts : list token) :=
  parse_list parse_name (S (length ts)) ts.
Definition parse_atoms (ts : list token) :=
  parse_list parse_atom (S (length ts)) ts.

Definition parse_assignment (ts : list token)
  : option ((string * Atom) * list token) :=
  match parse_name ts with
  | Some (c, TEq :: r) =>
      match parse_atom r with
      | Some (a, r') => Some ((c, a), r')
      | None => None
      end
  | _ => None
  end.

Definition parse_assignments (ts : list token) :=
  parse_list parse_assignment (S (length ts)) ts.

(** [WHERE e], if present. *)
Definition parse_where (ts : list token)
  : option (option Expr * list token) :=
  match ts with
  | TKw KWhere :: r =>
      match parse_expr r with
      | Some (e, r') => Some (Some e, r')
      | None => None
      end
  | _ => Some (None, ts)
  end.

(** [RETURNING items] up to the end of the statement, if present. *)
Definition parse_returning (ts : list token) : option (list SelItem) :=
  match ts with
  | [] => Some []
  | TKw KReturning :: r =>
      match parse_items r with
      | Some (items, []) => Some items
      | _ => None
      end
  | _ => None
  end.

Definition parse_order_by (ts : list token) : option (option string) :=
  match ts with
  | [] => Some None
  | [TKw KOrder; TKw KBy; TId c] => Some (Some c)
  | [TKw KOrder; TKw KBy; TQId c] => Some (Some c)
  | _ => None
  end.

Definition parse_stmt (ts : list token) : option Stmt :=
  match ts with
  | TKw KSelect :: r =>
      match parse_items r with
      | Some (items, TKw KFrom :: TId t :: r1) =>
          match parse_where r1 with
          | Some (w, r2) =>
              match parse_order_by r2 with
              | Some o => Some (Select items t w o)
              | None => None
              end
          | None => None
          end
      | _ => None
      end
  | TKw KInsert :: TKw KInto :: TId t :: TLParen :: r =>
      match parse_names r with
      | Some (cols, TRParen :: TKw KValues :: TLParen :: r1) =>
          match parse_atoms r1 with
          | Some (vals, TRParen :: r2) =>
              match parse_returning r2 with
              | Some ret => Some (Insert t cols vals ret)
              | None => None
              end
          | _ => None
          end
      | _ => None
      end
  | TKw KUpdate :: TId t :: TKw KSet :: r =>
      match parse_assignments r with
      | Some (asg, r1) =>
          match parse_where r1 with
          | Some (w, r2) =>
              match parse_returning r2 with
              | Some ret => Some (Update t asg w ret)
              | None => None
              end
          | None => None
          end
      | None => None
      end
  | TKw KDelete :: TKw KFrom :: TId t :: r =>
      match parse_where r with
      | Some (w, r1) =>
          match parse_returning r1 with
          | Some ret => Some (Delete t w ret)
          | None => None
          end
      | None => None
      end
  | _ => None
  end.

Definition parse (sql : string) : option Stmt :=
  match lex sql with
  | Some ts => parse_stmt ts
  | None => None
  end.


(** *** Values of the store *)

Inductive SqlType : Type := TyInt | TyText | TyNumeric.

(** An exact decimal [mant / 10^scale]; the scale is kept, as NUMERIC
    keeps the digits it was given. *)
Record Dec : Type := { mant : Z; scale : nat }.

Inductive SqlVal : Type :=
| VNull
| VInt (z : Z)
| VText (s : string)
| VNumeric (d : Dec).

Inductive Outcome (A : Type) : Type :=
| Done (a : A)
| Failed (f : StoreFailure).
Arguments Done {A} a.
Arguments Failed {A} f.

Definition and_then {A B : Type} (x : Outcome A) (k : A -> Outcome B)
  : Outcome B :=
  match x with
  | Done a => k a
  | Failed f => Failed f
  end.

Notation "'let*' x ':=' e 'in' k" := (and_then e (fun x => k))
  (at level 10, x pattern, e at level 100, k at level 200).

Definition require (b : bool) (f : StoreFailure) : Outcome unit :=
  if b then Done tt else Failed f.

Fixpoint traverse {A B : Type} (f : A -> Outcome B) (l : list A)
  : Outcome (list B) :=
  match l with
  | [] => Done []
  | x :: l' =>
      let* y := f x in
      let* ys := traverse f l' in
      Done (y :: ys)
  end.

(** *** Text input and output of numbers *)

Fixpoint drop_spaces (s : string) : string :=
  match s with
  | String c s' => if is_space c then drop_spaces s' else s
  | EmptyString => s
  end.

Fixpoint all_spaces (s : string) : bool :=
  match s with
  | String c s' => (is_space c && all_spaces s')%bool
  | EmptyString => true
  end.

(** Digits, an optional point, digits; blanks may follow.  [digits] are the
    digits read so far, [sc] how many of them came after the point. *)
Fixpoint read_decimal (point : bool) (digits : string) (sc : nat) (s : string)
  : option Dec :=
  let result :=
    match digits with
    | EmptyString => None
    | _ => Some {| mant := number_of_digits digits; scale := sc |}
    end in
  match s with
  | EmptyString => result
  | String c s' =>
      if is_digit c then
        read_decimal point (snoc digits c) (if point then S sc else sc) s'
      else if (Ascii.eqb c "." && negb point)%bool then
        read_decimal true digits sc s'
      else if all_spaces s then result
      else None
  end.

Definition negate (d : Dec) : Dec := {| mant := - mant d; scale := scale d |}.

Definition parse_numeric (s : string) : option Dec :=
  match drop_spaces s with
  | String "-" s' => option_map negate (read_decimal false EmptyString 0 s')
  | String "+" s' => read_decimal false EmptyString 0 s'
  | s' => read_decimal false EmptyString 0 s'
  end.

(** A 32-bit integer column. *)
Definition in_int4 (z : Z) : bool := ((-2147483648 <=? z) && (z <=? 2147483647))%Z.

Definition parse_int4 (s : string) : option Z :=
  match parse_numeric s with
  | Some {| mant := m; scale := O |} => if in_int4 m then Some m else None
  | _ => None
  end.

Fixpoint zeros (n : nat) : string :=
  match n with
  | O => EmptyString
  | S n' => String "0" (zeros n')
  end.

Definition show_dec (d : Dec) : string :=
  let m := Z.abs (mant d) in
  let p := (10 ^ Z.of_nat (scale d))%Z in
  let whole := show_Z (m / p) in
  let frac := show_Z (m mod p) in
  (if (mant d <? 0)%Z then "-" else EmptyString)
    +++ whole
    +++ match scale d with
        | O => EmptyString
        | S _ => "." +++ zeros (scale d - String.length frac) +++ frac
        end.

Definition dec_of_Z (z : Z) : Dec := {| mant := z; scale := O |}.

Definition dec_compare (a b : Dec) : comparison :=
  Z.compare (mant a * 10 ^ Z.of_nat (scale b)) (mant b * 10 ^ Z.of_nat (scale a)).

(** What node-postgres sends for a bind value: [None] is NULL, anything
    else travels as text. *)
Definition prepareValue (v : JsVal) : option string :=
  match v with
  | JUndef | JNull => None
  | JProto => Some "{}"
  | _ => Some (to_string v)
  end.

(** What node-postgres hands back: integers as numbers, NUMERIC as text. *)
Definition js_of_sql (v : SqlVal) : JsVal :=
  match v with
  | VNull => JNull
  | VInt z => JNum z
  | VText s => JStr s
  | VNumeric d => JStr (show_dec d)
  end.

(** Text (or NULL) read as a value of the column type. *)
Definition coerce (ty : SqlType) (text : option string) : Outcome SqlVal :=
  match text with
  | None => Done VNull
  | Some s =>
      match ty with
      | TyText => Done (VText s)
      | TyInt =>
          match parse_int4 s with
          | Some z => Done (VInt z)
          | None => Failed TypeFailure
          end
      | TyNumeric =>
          match parse_numeric s with
          | Some d => Done (VNumeric d)
          | None => Failed TypeFailure
          end
      end
  end.

(** A bind value that can be read at the type of a column. *)
Definition accepts (ty : SqlType) (v : JsVal) : bool :=
  match coerce ty (prepareValue v) with
  | Done _ => true
  | Failed _ => false
  end.

(** *** Comparison and pattern matching *)

Definition as_dec (v : SqlVal) : option Dec :=
  match v with
  | VInt z => Some (dec_of_Z z)
  | VNumeric d => Some d
  | _ => None
  end.

(** [None] when an operand is NULL (or the operands are not comparable,
    which binding rules out). *)
Definition compare_values (a b : SqlVal) : option comparison :=
  match a, b with
  | VInt x, VInt y => Some (Z.compare x y)
  | VText x, VText y => Some (String.compare x y)
  | _, _ =>
      match as_dec a, as_dec b with
      | Some x, Some y => Some (dec_compare x y)
      | _, _ => None
      end
  end.

Definition cmp_holds (op : CmpOp) (c : comparison) : bool :=
  match op, c with
  | OpEq, Eq => true
  | OpNe, (Lt | Gt) => true
  | OpLt, Lt => true
  | OpLe, (Lt | Eq) => true
  | OpGt, Gt => true
  | OpGe, (Gt | Eq) => true
  | _, _ => false
  end.

(** LIKE: [%] is any run of characters, [_] any one character, a backslash
    takes the next character literally. *)
Fixpoint like (p : string) : string -> bool :=
  match p with
  | EmptyString => fun t => match t with EmptyString => true | _ => false end
  | String "%" p' =>
      fix any_run (t : string) : bool :=
        (like p' t || match t with
                      | EmptyString => false
                      | String _ t' => any_run t'
                      end)%bool
  | String "_" p' =>
      fun t => match t with EmptyString => false | String _ t' => like p' t' end
  | String "\" (String c p') =>
      fun t => match t with
               | EmptyString => false
               | String d t' => (Ascii.eqb c d && like p' t')%bool
               end
  | String c p' =>
      fun t => match t with
               | EmptyString => false
               | String d t' => (Ascii.eqb c d && like p' t')%bool
               end
  end.

(** A pattern may not end in the middle of an escape. *)
Fixpoint pattern_ok (p : string) : bool :=
  match p with
  | EmptyString => true
  | String "\" EmptyString => false
  | String "\" (String _ p') => pattern_ok p'
  | String _ p' => pattern_ok p'
  end.

Definition ilike (text pattern : string) : bool :=
  like (lower_string pattern) (lower_string text).

(** Three-valued connectives; [None] is the unknown truth value. *)
Definition and3 (a b : option bool) : option bool :=
  match a, b with
  | Some false, _ | _, Some false => Some false
  | Some true, Some true => Some true
  | _, _ => None
  end.

Definition or3 (a b : option bool) : option bool :=
  match a, b with
  | Some true, _ | _, Some true => Some true
  | Some false, Some false => Some false
  | _, _ => None
  end.


(** *** Tables *)

(** A table: its columns, how a row is read by column name, and how a
    column of a row is overwritten ([None] when the value does not fit the
    column, as NULL in a NOT NULL column). *)
Class Table (R : Type) : Type := {
  columns : list (string * SqlType);
  column_value : string -> R -> SqlVal;
  assign : string -> SqlVal -> R -> option R
}.

Fixpoint assoc {A : Type} (l : list (string * A)) (k : string) : option A :=
  match l with
  | [] => None
  | (k', v) :: l' => if String.eqb k' k then Some v else assoc l' k
  end.

(** A scalar after binding: a column of the row at hand, or a constant. *)
Inductive Scalar : Type :=
| SColumn (name : string)
| SConst (v : SqlVal).

Inductive Cond : Type :=
| CCmp (op : CmpOp) (a b : Scalar)
| CILike (a pattern : Scalar)
| CIsNull (a : Scalar)
| CIsNotNull (a : Scalar)
| CAnd (c1 c2 : Cond)
| COr (c1 c2 : Cond).

(** An atom after name resolution: of a known type, or still untyped text
    (a quoted literal or a bind value; [None] is a NULL bind value). *)
Inductive Bound : Type :=
| BTyped (s : Scalar) (ty : SqlType)
| BUnknown (text : option string).

Definition compatible (a b : SqlType) : bool :=
  match a, b with
  | TyText, TyText => true
  | (TyInt | TyNumeric), (TyInt | TyNumeric) => true
  | _, _ => false
  end.

Section Generic.
Context {R : Type} `{Table R}.

Definition column_type (c : string) : option SqlType := assoc columns c.

(** Bind values are numbered from 1. *)
Definition bind_atom (params : list (option string)) (a : Atom)
  : Outcome Bound :=
  match a with
  | AColumn c =>
      match column_type c with
      | Some ty => Done (BTyped (SColumn c) ty)
      | None => Failed UndefinedName
      end
  | AInt z => Done (BTyped (SConst (VInt z)) TyInt)
  | ALit s => Done (BUnknown (Some s))
  | AParam O => Failed MissingParameter
  | AParam (S n) =>
      match nth_error params n with
      | Some p => Done (BUnknown p)
      | None => Failed MissingParameter
      end
  end.

Definition as_type (ty : SqlType) (b : Bound) : Outcome Scalar :=
  match b with
  | BTyped s ty' => if compatible ty' ty then Done s else Failed TypeFailure
  | BUnknown text => let* v := coerce ty text in Done (SConst v)
  end.

(** Untyped operands take the type of the other side; two untyped
    operands are compared as text. *)
Definition unify (a b : Bound) : Outcome (Scalar * Scalar) :=
  match a, b with
  | BTyped sa ta, _ => let* sb := as_type ta b in Done (sa, sb)
  | BUnknown _, BTyped sb tb => let* sa := as_type tb a in Done (sa, sb)
  | BUnknown _, BUnknown _ =>
      let* sa := as_type TyText a in
      let* sb := as_type TyText b in
      Done (sa, sb)
  end.

Definition bind_cmp (params : list (option string)) (op : CmpOp) (a b : Atom)
  : Outcome Cond :=
  let* ba := bind_atom params a in
  let* bb := bind_atom params b in
  let* (sa, sb) := unify ba bb in
  Done (CCmp op sa sb).

Definition bind_any (params : list (option string)) (a : Atom)
  : Outcome Scalar :=
  let* ba := bind_atom params a in
  match ba with
  | BTyped s _ => Done s
  | BUnknown _ => as_type TyText ba
  end.

Definition constant_pattern_ok (s : Scalar) : bool :=
  match s with
  | SConst (VText p) => pattern_ok p
  | _ => true
  end.

Fixpoint bind_expr (params : list (option string)) (e : Expr)
  : Outcome Cond :=
  match e with
  | ECmp op a b => bind_cmp params op a b
  | EBetween a lo hi =>
      let* c1 := bind_cmp params OpGe a lo in
      let* c2 := bind_cmp params OpLe a hi in
      Done (CAnd c1 c2)
  | EILike a p =>
      let* ba := bind_atom params a in
      let* bp := bind_atom params p in
      let* sa := as_type TyText ba in
      let* sp := as_type TyText bp in
      let* _ := require (constant_pattern_ok sp) TypeFailure in
      Done (CILike sa sp)
  | EIsNull a => let* s := bind_any params a in Done (CIsNull s)
  | EIsNotNull a => let* s := bind_any params a in Done (CIsNotNull s)
  | EAnd e1 e2 =>
      let* c1 := bind_expr params e1 in
      let* c2 := bind_expr params e2 in
      Done (CAnd c1 c2)
  | EOr e1 e2 =>
      let* c1 := bind_expr params e1 in
      let* c2 := bind_expr params e2 in
      Done (COr c1 c2)
  end.

(** No WHERE clause: every row qualifies. *)
Definition bind_where (params : list (option string)) (w : option Expr)
  : Outcome (option Cond) :=
  match w with
  | None => Done None
  | Some e => let* c := bind_expr params e in Done (Some c)
  end.

Definition bind_item (i : SelItem) : Outcome SelItem :=
  match column_type (si_column i) with
  | Some _ => Done i
  | None => Failed UndefinedName
  end.

Definition bind_items (items : list SelItem) : Outcome (list SelItem) :=
  traverse bind_item items.

(** [column = value] of SET, and the columns and values of INSERT: the
    value is read at the type of its column. *)
Definition bind_assignment (params : list (option string))
    (ca : string * Atom) : Outcome (string * Scalar) :=
  let '(c, a) := ca in
  match column_type c with
  | None => Failed UndefinedName
  | Some ty =>
      let* b := bind_atom params a in
      let* s := as_type ty b in
      Done (c, s)
  end.

Fixpoint distinct (l : list string) : bool :=
  match l with
  | [] => true
  | x :: l' => (negb (existsb (String.eqb x) l') && distinct l')%bool
  end.

Definition bind_assignments (params : list (option string))
    (asg : list (string * Atom)) : Outcome (list (string * Scalar)) :=
  let* _ := require (distinct (map fst asg)) SyntaxFailure in
  traverse (bind_assignment params) asg.

(** *** Evaluation on one row *)

Definition scalar_value (s : Scalar) (r : R) : SqlVal :=
  match s with
  | SColumn c => column_value c r
  | SConst v => v
  end.

Definition is_null (v : SqlVal) : bool :=
  match v with VNull => true | _ => false end.

Fixpoint holds (c : Cond) (r : R) : option bool :=
  match c with
  | CCmp op a b =>
      option_map (cmp_holds op)
        (compare_values (scalar_value a r) (scalar_value b r))
  | CILike a p =>
      match scalar_value a r, scalar_value p r with
      | VText t, VText pat => Some (ilike t pat)
      | _, _ => None
      end
  | CIsNull a => Some (is_null (scalar_value a r))
  | CIsNotNull a => Some (negb (is_null (scalar_value a r)))
  | CAnd c1 c2 => and3 (holds c1 r) (holds c2 r)
  | COr c1 c2 => or3 (holds c1 r) (holds c2 r)
  end.

(** A row qualifies when the condition is true (not false, not unknown). *)
Definition qualifies (w : option Cond) (r : R) : bool :=
  match w with
  | None => true
  | Some c => match holds c r with Some true => true | _ => false end
  end.

Definition project (items : list SelItem) (r : R) : JsObj :=
  map (fun i => (si_alias i, js_of_sql (column_value (si_column i) r))) items.

(** *** ORDER BY: ascending, NULL last, stable *)

Definition sorts_before (a b : SqlVal) : bool :=
  match a, b with
  | VNull, VNull => true
  | VNull, _ => false
  | _, VNull => true
  | _, _ => match compare_values a b with
            | Some Gt => false
            | _ => true
            end
  end.

Fixpoint insert_sorted (c : string) (r : R) (l : list R) : list R :=
  match l with
  | [] => [r]
  | x :: l' =>
      if sorts_before (column_value c r) (column_value c x)
      then r :: l
      else x :: insert_sorted c r l'
  end.

Definition order_rows (c : string) (l : list R) : list R :=
  fold_right (insert_sorted c) [] l.

Definition bind_order (o : option string) : Outcome (option string) :=
  match o with
  | None => Done None
  | Some c =>
      match column_type c with
      | Some _ => Done o
      | None => Failed UndefinedName
      end
  end.

Definition ordered (o : option string) (l : list R) : list R :=
  match o with
  | None => l
  | Some c => order_rows c l
  end.

(** SELECT on the rows of one table: never changes them. *)
Definition run_select (params : list (option string))
    (items : list SelItem) (w : option Expr) (o : option string)
    (rows : list R) : Outcome (list JsObj) :=
  let* items' := bind_items items in
  let* c := bind_where params w in
  let* o' := bind_order o in
  Done (map (project items') (ordered o' (filter (qualifies c) rows))).

(** *** UPDATE *)

Fixpoint apply_assignments (asg : list (string * Scalar)) (old r : R)
  : option R :=
  match asg with
  | [] => Some r
  | (c, s) :: asg' =>
      match assign c (scalar_value s old) r with
      | Some r' => apply_assignments asg' old r'
      | None => None
      end
  end.

(** The new table and, in table order, the rows that were rewritten. *)
Fixpoint update_rows (w : option Cond) (asg : list (string * Scalar))
    (rows : list R) : option (list R * list R) :=
  match rows with
  | [] => Some ([], [])
  | r :: rows' =>
      match update_rows w asg rows' with
      | None => None
      | Some (table, changed) =>
          if qualifies w r then
            match apply_assignments asg r r with
            | Some r' => Some (r' :: table, r' :: changed)
            | None => None
            end
          else Some (r :: table, changed)
      end
  end.

End Generic.


(** *** The two tables

    Modelled from the spec: the schema file is not part of the sources; the
    columns, their nullability, the unique company handle, the
    store-assigned job identifier, the equity range and the reference from a
    job to its company follow section 3 of the specification (Data model). *)

Record CompanyRow : Type := {
  co_handle : string;
  co_name : string;
  co_description : string;
  co_num_employees : option Z;
  co_logo_url : option string
}.

Record JobRow : Type := {
  job_id : Z;
  job_title : string;
  job_salary : option Z;
  job_equity : option Dec;
  job_company_handle : string
}.

Definition of_text (s : option string) : SqlVal :=
  match s with Some x => VText x | None => VNull end.
Definition of_int (z : option Z) : SqlVal :=
  match z with Some x => VInt x | None => VNull end.
Definition of_numeric (d : option Dec) : SqlVal :=
  match d with Some x => VNumeric x | None => VNull end.

(** Reading a value into a field; the outer [None] is a refusal. *)
Definition to_text (v : SqlVal) : option string :=
  match v with VText s => Some s | _ => None end.
Definition to_int (v : SqlVal) : option Z :=
  match v with VInt z => Some z | _ => None end.
Definition to_opt_text (v : SqlVal) : option (option string) :=
  match v with
  | VNull => Some None
  | VText s => Some (Some s)
  | _ => None
  end.
Definition to_opt_int (v : SqlVal) : option (option Z) :=
  match v with
  | VNull => Some None
  | VInt z => Some (Some z)
  | _ => None
  end.
Definition to_opt_numeric (v : SqlVal) : option (option Dec) :=
  match v with
  | VNull => Some None
  | VInt z => Some (Some (dec_of_Z z))
  | VNumeric d => Some (Some d)
  | _ => None
  end.

Definition company_value (c : string) (r : CompanyRow) : SqlVal :=
  if String.eqb c "handle" then VText (co_handle r)
  else if String.eqb c "name" then VText (co_name r)
  else if String.eqb c "description" then VText (co_description r)
  else if String.eqb c "num_employees" then of_int (co_num_employees r)
  else if String.eqb c "logo_url" then of_text (co_logo_url r)
  else VNull.

Definition company_assign (c : string) (v : SqlVal) (r : CompanyRow)
  : option CompanyRow :=
  if String.eqb c "handle" then
    option_map (fun x => {| co_handle := x; co_name := co_name r;
                            co_description := co_description r;
                            co_num_employees := co_num_employees r;
                            co_logo_url := co_logo_url r |}) (to_text v)
  else if String.eqb c "name" then
    option_map (fun x => {| co_handle := co_handle r; co_name := x;
                            co_description := co_description r;
                            co_num_employees := co_num_employees r;
                            co_logo_url := co_logo_url r |}) (to_text v)
  else if String.eqb c "description" then
    option_map (fun x => {| co_handle := co_handle r; co_name := co_name r;
                            co_description := x;
                            co_num_employees := co_num_employees r;
                            co_logo_url := co_logo_url r |}) (to_text v)
  else if String.eqb c "num_employees" then
    option_map (fun x => {| co_handle := co_handle r; co_name := co_name r;
                            co_description := co_description r;
                            co_num_employees := x;
                            co_logo_url := co_logo_url r |}) (to_opt_int v)
  else if String.eqb c "logo_url" then
    option_map (fun x => {| co_handle := co_handle r; co_name := co_name r;
                            co_description := co_description r;
                            co_num_employees := co_num_employees r;
                            co_logo_url := x |}) (to_opt_text v)
  else None.

#[global] Instance company_table : Table CompanyRow := {|
  columns := [ ("handle", TyText); ("name", TyText); ("description", TyText);
               ("num_employees", TyInt); ("logo_url", TyText) ];
  column_value := company_value;
  assign := company_assign
|}.

Definition job_value (c : string) (r : JobRow) : SqlVal :=
  if String.eqb c "id" then VInt (job_id r)
  else if String.eqb c "title" then VText (job_title r)
  else if String.eqb c "salary" then of_int (job_salary r)
  else if String.eqb c "equity" then of_numeric (job_equity r)
  else if String.eqb c "company_handle" then VText (job_company_handle r)
  else VNull.

Definition job_assign (c : string) (v : SqlVal) (r : JobRow) : option JobRow :=
  if String.eqb c "id" then
    option_map (fun x => {| job_id := x; job_title := job_title r;
                            job_salary := job_salary r;
                            job_equity := job_equity r;
                            job_company_handle := job_company_handle r |})
               (to_int v)
  else if String.eqb c "title" then
    option_map (fun x => {| job_id := job_id r; job_title := x;
                            job_salary := job_salary r;
                            job_equity := job_equity r;
                            job_company_handle := job_company_handle r |})
               (to_text v)
  else if String.eqb c "salary" then
    option_map (fun x => {| job_id := job_id r; job_title := job_title r;
                            job_salary := x;
                            job_equity := job_equity r;
                            job_company_handle := job_company_handle r |})
               (to_opt_int v)
  else if String.eqb c "equity" then
    option_map (fun x => {| job_id := job_id r; job_title := job_title r;
                            job_salary := job_salary r;
                            job_equity := x;
                            job_company_handle := job_company_handle r |})
               (to_opt_numeric v)
  else if String.eqb c "company_handle" then
    option_map (fun x => {| job_id := job_id r; job_title := job_title r;
                            job_salary := job_salary r;
                            job_equity := job_equity r;
                            job_company_handle := x |})
               (to_text v)
  else None.

#[global] Instance job_table : Table JobRow := {|
  columns := [ ("id", TyInt); ("title", TyText); ("salary", TyInt);
               ("equity", TyNumeric); ("company_handle", TyText) ];
  column_value := job_value;
  assign := job_assign
|}.

(** What happens to the jobs of a company that is deleted: the
    specification leaves it to the store. *)
Inductive FkAction : Type := Cascade | Restrict.

Record Store : Type := {
  companies : list CompanyRow;
  jobs : list JobRow;
  jobs_id_seq : Z;                (* last identifier handed out *)
  company_delete_rule : FkAction
}.

Definition with_companies (st : Store) (l : list CompanyRow) : Store :=
  {| companies := l; jobs := jobs st; jobs_id_seq := jobs_id_seq st;
     company_delete_rule := company_delete_rule st |}.

Definition with_jobs (st : Store) (l : list JobRow) : Store :=
  {| companies := companies st; jobs := l; jobs_id_seq := jobs_id_seq st;
     company_delete_rule := company_delete_rule st |}.

Definition with_seq (st : Store) (n : Z) : Store :=
  {| companies := companies st; jobs := jobs st; jobs_id_seq := n;
     company_delete_rule := company_delete_rule st |}.

Definition mem (x : string) (l : list string) : bool :=
  existsb (String.eqb x) l.

Definition handles (st : Store) : list string := map co_handle (companies st).

Definition count_id (i : Z) (l : list JobRow) : nat :=
  length (filter (fun j => Z.eqb (job_id j) i) l).

Definition count_handle (h : string) (l : list CompanyRow) : nat :=
  length (filter (fun c => String.eqb (co_handle c) h) l).

Definition equity_in_range (e : option Dec) : bool :=
  match e with
  | None => true
  | Some d => match dec_compare d (dec_of_Z 0), dec_compare d (dec_of_Z 1) with
              | Lt, _ | _, Gt => false
              | _, _ => true
              end
  end.

(** *** INSERT *)

Definition constant_of (s : Scalar) : Outcome SqlVal :=
  match s with
  | SConst v => Done v
  | SColumn _ => Failed UndefinedName
  end.

(** The values of an INSERT, by column. *)
Definition bind_insert {R : Type} `{Table R} (params : list (option string))
    (cols : list string) (vals : list Atom)
  : Outcome (list (string * SqlVal)) :=
  let* _ := require (Nat.eqb (length cols) (length vals)) SyntaxFailure in
  let* asg := bind_assignments params (combine cols vals) in
  traverse (fun cs => let* v := constant_of (snd cs) in Done (fst cs, v)) asg.

(** A column that is not listed takes its default, NULL. *)
Definition supplied (vals : list (string * SqlVal)) (c : string) : SqlVal :=
  match assoc vals c with
  | Some v => v
  | None => VNull
  end.

Definition new_company (vals : list (string * SqlVal)) : option CompanyRow :=
  match to_text (supplied vals "handle"), to_text (supplied vals "name"),
        to_text (supplied vals "description"),
        to_opt_int (supplied vals "num_employees"),
        to_opt_text (supplied vals "logo_url") with
  | Some h, Some n, Some d, Some e, Some l =>
      Some {| co_handle := h; co_name := n; co_description := d;
              co_num_employees := e; co_logo_url := l |}
  | _, _, _, _, _ => None
  end.

Definition new_job (id : SqlVal) (vals : list (string * SqlVal))
  : option JobRow :=
  match to_int id, to_text (supplied vals "title"),
        to_opt_int (supplied vals "salary"),
        to_opt_numeric (supplied vals "equity"),
        to_text (supplied vals "company_handle") with
  | Some i, Some t, Some s, Some e, Some c =>
      Some {| job_id := i; job_title := t; job_salary := s; job_equity := e;
              job_company_handle := c |}
  | _, _, _, _, _ => None
  end.

Definition insert_company (params : list (option string))
    (cols : list string) (vals : list Atom) (returning : list SelItem)
    (st : Store) : Outcome (list JsObj) * Store :=
  match (let* vs := bind_insert (R := CompanyRow) params cols vals in
         let* ret := bind_items (R := CompanyRow) returning in
         match new_company vs with
         | None => Failed ConstraintViolation
         | Some r =>
             let* _ := require (negb (mem (co_handle r) (handles st)))
                               ConstraintViolation in
             Done (r, ret)
         end) with
  | Failed f => (Failed f, st)
  | Done (r, ret) => (Done [project ret r], with_companies st (companies st ++ [r]))
  end.

(** The identifier of a job comes from the sequence unless the statement
    lists the column; a value drawn from the sequence is spent even when the
    row is then refused. *)
Definition insert_job (params : list (option string))
    (cols : list string) (vals : list Atom) (returning : list SelItem)
    (st : Store) : Outcome (list JsObj) * Store :=
  match (let* vs := bind_insert (R := JobRow) params cols vals in
         let* ret := bind_items (R := JobRow) returning in
         Done (vs, ret)) with
  | Failed f => (Failed f, st)
  | Done (vs, ret) =>
      let '(id, st1) :=
        match assoc vs "id" with
        | Some v => (v, st)
        | None => (VInt (jobs_id_seq st + 1), with_seq st (jobs_id_seq st + 1))
        end in
      match new_job id vs with
      | None => (Failed ConstraintViolation, st1)
      | Some r =>
          if (Nat.eqb (count_id (job_id r) (jobs st1)) 0
              && mem (job_company_handle r) (handles st1)
              && equity_in_range (job_equity r))%bool
          then (Done [project ret r], with_jobs st1 (jobs st1 ++ [r]))
          else (Failed ConstraintViolation, st1)
      end
  end.

(** *** UPDATE *)

Definition update_company (params : list (option string))
    (asg : list (string * Atom)) (w : option Expr) (returning : list SelItem)
    (st : Store) : Outcome (list JsObj) * Store :=
  match (let* a := bind_assignments (R := CompanyRow) params asg in
         let* c := bind_where (R := CompanyRow) params w in
         let* ret := bind_items (R := CompanyRow) returning in
         match update_rows c a (companies st) with
         | None => Failed ConstraintViolation
         | Some (table, changed) =>
             (* a rewritten handle stays unique, and no job is left behind *)
             let* _ := require
               (forallb (fun r => Nat.eqb (count_handle (co_handle r) table) 1)
                        changed) ConstraintViolation in
             let* _ := require
               (forallb (fun j => implb (mem (job_company_handle j) (handles st))
                                        (mem (job_company_handle j)
                                             (map co_handle table)))
                        (jobs st)) ConstraintViolation in
             Done (table, map (project ret) changed)
         end) with
  | Failed f => (Failed f, st)
  | Done (table, rows) => (Done rows, with_companies st table)
  end.

Definition job_row_ok (st : Store) (table : list JobRow) (r : JobRow) : bool :=
  (Nat.eqb (count_id (job_id r) table) 1
   && mem (job_company_handle r) (handles st)
   && equity_in_range (job_equity r))%bool.

Definition update_job (params : list (option string))
    (asg : list (string * Atom)) (w : option Expr) (returning : list SelItem)
    (st : Store) : Outcome (list JsObj) * Store :=
  match (let* a := bind_assignments (R := JobRow) params asg in
         let* c := bind_where (R := JobRow) params w in
         let* ret := bind_items (R := JobRow) returning in
         match update_rows c a (jobs st) with
         | None => Failed ConstraintViolation
         | Some (table, changed) =>
             let* _ := require (forallb (job_row_ok st table) changed)
                               ConstraintViolation in
             Done (table, map (project ret) changed)
         end) with
  | Failed f => (Failed f, st)
  | Done (table, rows) => (Done rows, with_jobs st table)
  end.

(** *** DELETE *)

Definition delete_company (params : list (option string))
    (w : option Expr) (returning : list SelItem)
    (st : Store) : Outcome (list JsObj) * Store :=
  match (let* c := bind_where (R := CompanyRow) params w in
         let* ret := bind_items (R := CompanyRow) returning in
         let gone := filter (qualifies c) (companies st) in
         let kept := filter (fun r => negb (qualifies c r)) (companies st) in
         let orphan j := mem (job_company_handle j) (map co_handle gone) in
         match company_delete_rule st with
         | Cascade =>
             Done (kept, filter (fun j => negb (orphan j)) (jobs st),
                   map (project ret) gone)
         | Restrict =>
             let* _ := require (negb (existsb orphan (jobs st)))
                               ConstraintViolation in
             Done (kept, jobs st, map (project ret) gone)
         end) with
  | Failed f => (Failed f, st)
  | Done (kept, js, rows) => (Done rows, with_jobs (with_companies st kept) js)
  end.

Definition delete_job (params : list (option string))
    (w : option Expr) (returning : list SelItem)
    (st : Store) : Outcome (list JsObj) * Store :=
  match (let* c := bind_where (R := JobRow) params w in
         let* ret := bind_items (R := JobRow) returning in
         Done (c, ret)) with
  | Failed f => (Failed f, st)
  | Done (c, ret) =>
      (Done (map (project ret) (filter (qualifies c) (jobs st))),
       with_jobs st (filter (fun r => negb (qualifies c r)) (jobs st)))
  end.

(** *** One statement against the store *)

Definition execute (s : Stmt) (params : list (option string)) (st : Store)
  : Outcome (list JsObj) * Store :=
  match s with
  | Select items t w o =>
      if String.eqb t "companies" then
        (run_select params items w o (companies st), st)
      else if String.eqb t "jobs" then
        (run_select params items w o (jobs st), st)
      else (Failed UndefinedName, st)
  | Insert t cols vals ret =>
      if String.eqb t "companies" then insert_company params cols vals ret st
      else if String.eqb t "jobs" then insert_job params cols vals ret st
      else (Failed UndefinedName, st)
  | Update t asg w ret =>
      if String.eqb t "companies" then update_company params asg w ret st
      else if String.eqb t "jobs" then update_job params asg w ret st
      else (Failed UndefinedName, st)
  | Delete t w ret =>
      if String.eqb t "companies" then delete_company params w ret st
      else if String.eqb t "jobs" then delete_job params w ret st
      else (Failed UndefinedName, st)
  end.

(** [db.query(sql, params)] as the store sees it: one statement per text.
    The lexer has no token for the semicolon, so a text that holds one
    outside a literal or a quoted identifier is refused here, where the
    store itself, given no bind value, would run the statements one after
    the other. The fixed texts of the managers hold none; a value that a
    filter pastes into its text may, and no property below rests on how
    such a text is answered. *)
Definition query (sql : string) (params : list JsVal) (st : Store)
  : Outcome (list JsObj) * Store :=
  match parse sql with
  | None => (Failed SyntaxFailure, st)
  | Some s => execute s (map prepareValue params) st
  end.

End Sql.

(* ===================================================================== *)
(** ** The managers' monad: store, log of issued statements, errors       *)
(* ===================================================================== *)

(** [log] records every call of [db.query], in order: the statement text
    and the bind values handed to the executor. *)
Record Db : Type := {
  store : Sql.Store;
  log : list (string * list JsVal)
}.

Definition M (A : Type) : Type := Db -> Result A * Db.

Definition ret {A : Type} (a : A) : M A := fun d => (Ok a, d).

Definition throw {A : Type} (e : Error) : M A := fun d => (Throw e, d).

Definition bind {A B : Type} (m : M A) (k : A -> M B) : M B :=
  fun d =>
    match m d with
    | (Ok a, d') => k a d'
    | (Throw e, d') => (Throw e, d')
    end.

Notation "x <- m ;; k" := (bind m (fun x => k))
  (at level 61, m at next level, right associativity).

(** A synchronous computation that may throw, run inside an async one. *)
Definition lift {A : Type} (r : Result A) : M A :=
  match r with
  | Ok a => ret a
  | Throw e => throw e
  end.

(** [await db.query(sql, params)]: a failure of the store is thrown
    unchanged. *)
Definition db_query (sql : string) (params : list JsVal) : M (list JsObj) :=
  fun d =>
    let '(o, st) := Sql.query sql params (store d) in
    let d' := {| store := st; log := log d ++ [(sql, params)] |} in
    match o with
    | Sql.Done rows => (Ok rows, d')
    | Sql.Failed f => (Throw (StoreError f), d')
    end.

(** [rows[0]]: [None] is [undefined]. *)
Definition first_row (rows : list JsObj) : option JsObj := hd_error rows.

(** [a < b] on the results of [parseInt]; false when either is [NaN]. *)
Definition js_lt (a b : option Z) : bool :=
  match a, b with
  | Some x, Some y => (x <? y)%Z
  | _, _ => false
  end.

(** [v === "text"] *)
Definition is_string (v : JsVal) (text : string) : bool :=
  match v with
  | JStr s => String.eqb s text
  | _ => false
  end.

(* ===================================================================== *)
(** ** models/company.js                                                  *)
(* ===================================================================== *)

Module Company.

Definition duplicate_check_sql : string :=
  lines
    [ "SELECT handle";
      "           FROM companies";
      "           WHERE handle = $1" ].

Definition insert_sql : string :=
  lines
    [ "INSERT INTO companies";
      "           (handle, name, description, num_employees, logo_url)";
      "           VALUES ($1, $2, $3, $4, $5)";
      "           RETURNING handle, name, description, num_employees AS " +++ dq +++ "numEmployees" +++ dq +++ ", logo_url AS " +++ dq +++ "logoUrl" +++ dq ].

Definition create (data : JsObj) : M (option JsObj) :=
  let handle := get data "handle" in
  let name := get data "name" in
  let description := get data "description" in
  let numEmployees := get data "numEmployees" in
  let logoUrl := get data "logoUrl" in
  duplicateCheck <- db_query duplicate_check_sql [handle] ;;
  match first_row duplicateCheck with
  | Some _ =>
      throw (BadRequestError ("Duplicate company: " +++ to_string handle))
  | None =>
      result <- db_query insert_sql
                  [handle; name; description; numEmployees; logoUrl] ;;
      ret (first_row result)
  end.

Definition findAll_sql : string :=
  lines
    [ "SELECT handle,";
      "                  name,";
      "                  description,";
      "                  num_employees AS " +++ dq +++ "numEmployees" +++ dq +++ ",";
      "                  logo_url AS " +++ dq +++ "logoUrl" +++ dq;
      "           FROM companies";
      "           ORDER BY name" ].

Definition findAll : M (list JsObj) := db_query findAll_sql [].

Definition filter_base : string :=
  lines
    [ EmptyString;
      "      SELECT handle,";
      "            name,";
      "            description,";
      "            num_employees AS " +++ dq +++ "numEmployees" +++ dq +++ ",";
      "            logo_url AS " +++ dq +++ "logoUrl" +++ dq;
      "      FROM companies" ].

(** The statement that [filter] builds (its lines 83 to 113), or the error
    it throws while building it. *)
Definition filter_statement (filters : JsObj) : Result string :=
  let sqlStmtForFilter := filter_base in
  let name := get filters "name" in
  let minEmployees := get filters "minEmployees" in
  let maxEmployees := get filters "maxEmployees" in
  let sqlStmtForFilter :=
    if defined name
    then sqlStmtForFilter +++ " WHERE name ILIKE '%" +++ to_string name +++ "%'"
    else sqlStmtForFilter in
  let sqlStmtForFilter :=
    if (Nat.ltb 1 (length (Object_keys filters)) && defined name)%bool
    then sqlStmtForFilter +++ " AND"
    else if negb (defined name)
    then sqlStmtForFilter +++ " WHERE"
    else sqlStmtForFilter in
  if (defined minEmployees && defined maxEmployees)%bool then
    if js_lt (parseInt maxEmployees) (parseInt minEmployees) then
      Throw (BadRequestError "max employees must be greater than min employees")
    else
      Ok (sqlStmtForFilter +++ " num_employees BETWEEN "
            +++ show_number (parseInt minEmployees) +++ " AND "
            +++ show_number (parseInt maxEmployees))
  else if defined minEmployees then
    Ok (sqlStmtForFilter +++ " num_employees > "
          +++ show_number (parseInt minEmployees))
  else if defined maxEmployees then
    Ok (sqlStmtForFilter +++ " num_employees < "
          +++ show_number (parseInt maxEmployees))
  else Ok sqlStmtForFilter.

Definition filter (filters : JsObj) : M (list JsObj) :=
  sqlStmtForFilter <- lift (filter_statement filters) ;;
  db_query sqlStmtForFilter [].

Definition get_sql : string :=
  lines
    [ "SELECT handle,";
      "                  name,";
      "                  description,";
      "                  num_employees AS " +++ dq +++ "numEmployees" +++ dq +++ ",";
      "                  logo_url AS " +++ dq +++ "logoUrl" +++ dq;
      "           FROM companies";
      "           WHERE handle = $1" ].

Definition get (handle : JsVal) : M JsObj :=
  companyRes <- db_query get_sql [handle] ;;
  match first_row companyRes with
  | None => throw (NotFoundError ("No company: " +++ to_string handle))
  | Some company => ret company
  end.

Definition jsToSql : JsObj :=
  [ ("numEmployees", JStr "num_employees"); ("logoUrl", JStr "logo_url") ].

(** "Data can include: {name, description, numEmployees, logoUrl}" *)
Definition updatable : list string :=
  [ "name"; "description"; "numEmployees"; "logoUrl" ].

(** A payload as the caller is expected to have validated it: documented
    fields only, each at most once, each value readable at the type of its
    column. *)
Definition valid_update (data : JsObj) : bool :=
  (Sql.distinct (Object_keys data)
   && forallb (fun kv =>
        Sql.mem (fst kv) updatable
        && match Sql.column_type (R := Sql.CompanyRow)
                   (column_name jsToSql (fst kv)) with
           | Some ty => Sql.accepts ty (snd kv)
           | None => false
           end) data)%bool.

Definition update_sql (setCols handleVarIdx : string) : string :=
  lines
    [ "UPDATE companies ";
      "                      SET " +++ setCols +++ " ";
      "                      WHERE handle = " +++ handleVarIdx +++ " ";
      "                      RETURNING handle, ";
      "                                name, ";
      "                                description, ";
      "                                num_employees AS " +++ dq +++ "numEmployees" +++ dq +++ ", ";
      "                                logo_url AS " +++ dq +++ "logoUrl" +++ dq ].

Definition update (handle : JsVal) (data : JsObj) : M JsObj :=
  clause <- lift (sqlForPartialUpdate data jsToSql) ;;
  let handleVarIdx := "$" +++ show_Z (Z.of_nat (length (values clause)) + 1) in
  let querySql := update_sql (setCols clause) handleVarIdx in
  result <- db_query querySql (values clause ++ [handle]) ;;
  match first_row result with
  | None => throw (NotFoundError ("No company: " +++ to_string handle))
  | Some company => ret company
  end.

Definition remove_sql : string :=
  lines
    [ "DELETE";
      "           FROM companies";
      "           WHERE handle = $1";
      "           RETURNING handle" ].

Definition remove (handle : JsVal) : M unit :=
  result <- db_query remove_sql [handle] ;;
  match first_row result with
  | None => throw (NotFoundError ("No company: " +++ to_string handle))
  | Some _ => ret tt
  end.

End Company.

(* ===================================================================== *)
(** ** models/job.js                                                      *)
(* ===================================================================== *)

Module Job.

Definition duplicate_check_sql : string :=
  lines
    [ "SELECT title, company_handle";
      "           FROM jobs";
      "           WHERE title = $1 AND";
      "           company_handle = $2" ].

Definition insert_sql : string :=
  lines
    [ "INSERT INTO jobs";
      "           (title, salary, equity, company_handle)";
      "           VALUES ($1, $2, $3, $4)";
      "           RETURNING id, title, salary, equity, company_handle" ].

Definition create (data : JsObj) : M (option JsObj) :=
  let title := get data "title" in
  let salary := get data "salary" in
  let equity := get data "equity" in
  let company_handle := get data "company_handle" in
  duplicateCheck <- db_query duplicate_check_sql [title; company_handle] ;;
  match first_row duplicateCheck with
  | Some _ =>
      throw (BadRequestError ("Duplicate job: " +++ to_string title +++ " at "
                                +++ to_string company_handle))
  | None =>
      result <- db_query insert_sql [title; salary; equity; company_handle] ;;
      ret (first_row result)
  end.

Definition findAll_sql : string :=
  lines
    [ "SELECT id, title, salary, equity, company_handle";
      "           FROM jobs";
      "           ORDER BY salary" ].

Definition findAll : M (list JsObj) := db_query findAll_sql [].

Definition filter_base : string :=
  lines
    [ EmptyString;
      "      SELECT id,";
      "            title,";
      "            salary,";
      "            equity,";
      "            company_handle";
      "      FROM jobs" ].

(** The body of [for (let filter of Object.keys(filters))], over the keys
    still to visit; [counter] is the number of keys already visited. *)
Fixpoint filter_loop (filters : JsObj) (keys : list string) (counter : nat)
    (sqlStmtForFilter : string) : string :=
  match keys with
  | [] => sqlStmtForFilter
  | filter :: keys' =>
      let sqlStmtForFilter :=
        if String.eqb filter "title" then
          sqlStmtForFilter +++ " title ILIKE '%"
            +++ to_string (get filters "title") +++ "%'"
        else if String.eqb filter "minSalary" then
          sqlStmtForFilter +++ " salary > "
            +++ show_number (parseInt (get filters "minSalary"))
        else if String.eqb filter "hasEquity" then
          if is_string (get filters "hasEquity") "true" then
            sqlStmtForFilter +++ " equity IS NOT NULL AND equity > 0"
          else if is_string (get filters "hasEquity") "false" then
            sqlStmtForFilter +++ " equity >= 0 OR equity IS NULL"
          else sqlStmtForFilter
        else sqlStmtForFilter in
      let counter := S counter in
      let sqlStmtForFilter :=
        if Nat.ltb counter (length (Object_keys filters))
        then sqlStmtForFilter +++ " AND"
        else sqlStmtForFilter in
      filter_loop filters keys' counter sqlStmtForFilter
  end.

(** The statement that [filter] builds (its lines 76 to 117). *)
Definition filter_statement (filters : JsObj) : string :=
  let sqlStmtForFilter := filter_base in
  let sqlStmtForFilter :=
    if Nat.eqb (length (Object_keys filters)) 1 then
      if defined (get filters "title") then
        sqlStmtForFilter +++ " WHERE title ILIKE '%"
          +++ to_string (get filters "title") +++ "%'"
      else if defined (get filters "minSalary") then
        sqlStmtForFilter +++ " WHERE salary > "
          +++ show_number (parseInt (get filters "minSalary"))
      else
        sqlStmtForFilter +++ " WHERE equity IS NOT NULL AND equity > 0"
    else sqlStmtForFilter in
  if Nat.ltb 1 (length (Object_keys filters)) then
    filter_loop filters (Object_keys filters) 0 (sqlStmtForFilter +++ " WHERE")
  else sqlStmtForFilter.

Definition filter (filters : JsObj) : M (list JsObj) :=
  db_query (filter_statement filters) [].

Definition get_sql : string :=
  lines
    [ "SELECT title, salary, equity, company_handle";
      "           FROM jobs";
      "           WHERE id = $1" ].

Definition get (id : JsVal) : M JsObj :=
  jobRes <- db_query get_sql [id] ;;
  match first_row jobRes with
  | None => throw (NotFoundError ("No job: " +++ to_string id))
  | Some job => ret job
  end.

Definition jsToSql : JsObj :=
  [ ("title", JStr "title"); ("salary", JStr "salary");
    ("equity", JStr "equity") ].

(** "Data can include: {title, salary, equity}" *)
Definition updatable : list string := [ "title"; "salary"; "equity" ].

(** A payload as the caller is expected to have validated it: documented
    fields only, each at most once, each value readable at the type of its
    column. *)
Definition valid_update (data : JsObj) : bool :=
  (Sql.distinct (Object_keys data)
   && forallb (fun kv =>
        Sql.mem (fst kv) updatable
        && match Sql.column_type (R := Sql.JobRow)
                   (column_name jsToSql (fst kv)) with
           | Some ty => Sql.accepts ty (snd kv)
           | None => false
           end) data)%bool.

Definition update_sql (setCols handleVarIdx : string) : string :=
  lines
    [ "UPDATE jobs ";
      "                      SET " +++ setCols +++ " ";
      "                      WHERE id = " +++ handleVarIdx +++ " ";
      "                      RETURNING title, salary, equity, company_handle" ].

Definition update (id : JsVal) (data : JsObj) : M JsObj :=
  clause <- lift (sqlForPartialUpdate data jsToSql) ;;
  let handleVarIdx := "$" +++ show_Z (Z.of_nat (length (values clause)) + 1) in
  let querySql := update_sql (setCols clause) handleVarIdx in
  result <- db_query querySql (values clause ++ [id]) ;;
  match first_row result with
  | None => throw (NotFoundError ("No company: " +++ to_string id))
  | Some job => ret job
  end.

Definition remove_sql : string :=
  lines
    [ "DELETE";
      "           FROM jobs";
      "           WHERE id = $1";
      "           RETURNING id" ].

Definition remove (id : JsVal) : M unit :=
  result <- db_query remove_sql [id] ;;
  match first_row result with
  | None => throw (NotFoundError ("No job: " +++ to_string id))
  | Some _ => ret tt
  end.

End Job.


(* ===================================================================== *)
(** ** A small database used in the examples                              *)
(* ===================================================================== *)

Definition acme : Sql.CompanyRow :=
  {| Sql.co_handle := "acme"; Sql.co_name := "Acme Networks";
     Sql.co_description := "Routers"; Sql.co_num_employees := Some 12%Z;
     Sql.co_logo_url := None |}.

Definition bolt : Sql.CompanyRow :=
  {| Sql.co_handle := "bolt"; Sql.co_name := "Bolt";
     Sql.co_description := "Fasteners"; Sql.co_num_employees := None;
     Sql.co_logo_url := Some "http://bolt.img" |}.

Definition job (id : Z) (title : string) (salary : option Z)
    (equity : option Sql.Dec) (company : string) : Sql.JobRow :=
  {| Sql.job_id := id; Sql.job_title := title; Sql.job_salary := salary;
     Sql.job_equity := equity; Sql.job_company_handle := company |}.

Definition example_store : Sql.Store :=
  {| Sql.companies := [acme; bolt];
     Sql.jobs :=
       [ job 1 "job1" (Some 100%Z) (Some {| Sql.mant := 0; Sql.scale := 0 |}) "acme";
         job 2 "job2" (Some 50%Z) None "acme";
         job 3 "clerk" None (Some {| Sql.mant := 5; Sql.scale := 2 |}) "bolt";
         job 4 "cook" (Some 70%Z) None "bolt" ];
     Sql.jobs_id_seq := 4;
     Sql.company_delete_rule := Sql.Cascade |}.

Definition example_db : Db := {| store := example_store; log := [] |}.

(** The rows of the example as the managers return them. *)
Definition job1_row : JsObj :=
  [ ("id", JNum 1); ("title", JStr "job1"); ("salary", JNum 100);
    ("equity", JStr "0"); ("company_handle", JStr "acme") ].
Definition job2_row : JsObj :=
  [ ("id", JNum 2); ("title", JStr "job2"); ("salary", JNum 50);
    ("equity", JNull); ("company_handle", JStr "acme") ].
Definition clerk_row : JsObj :=
  [ ("id", JNum 3); ("title", JStr "clerk"); ("salary", JNull);
    ("equity", JStr "0.05"); ("company_handle", JStr "bolt") ].
Definition cook_row : JsObj :=
  [ ("id", JNum 4); ("title", JStr "cook"); ("salary", JNum 70);
    ("equity", JNull); ("company_handle", JStr "bolt") ].
Definition acme_row : JsObj :=
  [ ("handle", JStr "acme"); ("name", JStr "Acme Networks");
    ("description", JStr "Routers"); ("numEmployees", JNum 12);
    ("logoUrl", JNull) ].
Definition bolt_row : JsObj :=
  [ ("handle", JStr "bolt"); ("name", JStr "Bolt");
    ("description", JStr "Fasteners"); ("numEmployees", JNull);
    ("logoUrl", JStr "http://bolt.img") ].

(* ===================================================================== *)
(** ** Vocabulary of the statements about the generated SQL              *)
(* ===================================================================== *)

(** The tokens of the SET clause that [sqlForPartialUpdate] writes for the
    columns [cols], the first placeholder being [$(start+1)]. *)
Fixpoint assignment_tokens (cols : list string) (start : nat) : list Sql.token :=
  match cols with
  | [] => []
  | [c] => [Sql.TQId c; Sql.TEq; Sql.TParam (S start)]
  | c :: cols' =>
      Sql.TQId c :: Sql.TEq :: Sql.TParam (S start) :: Sql.TComma
        :: assignment_tokens cols' (S start)
  end.

(** ... and the assignments they parse to. *)
Fixpoint assignments (cols : list string) (start : nat)
  : list (string * Sql.Atom) :=
  match cols with
  | [] => []
  | c :: cols' => (c, Sql.AParam (S start)) :: assignments cols' (S start)
  end.

(** A column name that can stand between double quotes. *)
Definition lexes_quoted (c : string) : Prop :=
  Sql.lex_run Sql.LStart (dq +++ c +++ dq +++ "=$") =
  Some ([Sql.TQId c; Sql.TEq], Sql.LParam EmptyString).

(** The RETURNING lists of the two [update] statements. *)
Definition company_returning : list Sql.SelItem :=
  [ {| Sql.si_column := "handle"; Sql.si_alias := "handle" |};
    {| Sql.si_column := "name"; Sql.si_alias := "name" |};
    {| Sql.si_column := "description"; Sql.si_alias := "description" |};
    {| Sql.si_column := "num_employees"; Sql.si_alias := "numEmployees" |};
    {| Sql.si_column := "logo_url"; Sql.si_alias := "logoUrl" |} ].

Definition job_returning : list Sql.SelItem :=
  [ {| Sql.si_column := "title"; Sql.si_alias := "title" |};
    {| Sql.si_column := "salary"; Sql.si_alias := "salary" |};
    {| Sql.si_column := "equity"; Sql.si_alias := "equity" |};
    {| Sql.si_column := "company_handle"; Sql.si_alias := "company_handle" |} ].

(** The select list of [Job.findAll], [Job.filter] and [Job.create]. *)
Definition job_items : list Sql.SelItem :=
  [ {| Sql.si_column := "id"; Sql.si_alias := "id" |};
    {| Sql.si_column := "title"; Sql.si_alias := "title" |};
    {| Sql.si_column := "salary"; Sql.si_alias := "salary" |};
    {| Sql.si_column := "equity"; Sql.si_alias := "equity" |};
    {| Sql.si_column := "company_handle"; Sql.si_alias := "company_handle" |} ].

(** The conditions [handle = $n] and [id = $n] once bound. *)
Definition company_key (h : string) : option Sql.Cond :=
  Some (Sql.CCmp Sql.OpEq (Sql.SColumn "handle") (Sql.SConst (Sql.VText h))).

Definition job_key (i : Z) : option Sql.Cond :=
  Some (Sql.CCmp Sql.OpEq (Sql.SColumn "id") (Sql.SConst (Sql.VInt i))).

(** The condition of the duplicate check of [Job.create] once bound. *)
Definition job_pair (title company : string) : option Sql.Cond :=
  Some (Sql.CAnd
          (Sql.CCmp Sql.OpEq (Sql.SColumn "title") (Sql.SConst (Sql.VText title)))
          (Sql.CCmp Sql.OpEq (Sql.SColumn "company_handle")
                    (Sql.SConst (Sql.VText company)))).

(** The rows that [create] returns. *)
Definition company_result (r : Sql.CompanyRow) : JsObj :=
  [ ("handle", JStr (Sql.co_handle r)); ("name", JStr (Sql.co_name r));
    ("description", JStr (Sql.co_description r));
    ("numEmployees", Sql.js_of_sql (Sql.of_int (Sql.co_num_employees r)));
    ("logoUrl", Sql.js_of_sql (Sql.of_text (Sql.co_logo_url r))) ].

Definition job_result (r : Sql.JobRow) : JsObj :=
  [ ("id", JNum (Sql.job_id r)); ("title", JStr (Sql.job_title r));
    ("salary", Sql.js_of_sql (Sql.of_int (Sql.job_salary r)));
    ("equity", Sql.js_of_sql (Sql.of_numeric (Sql.job_equity r)));
    ("company_handle", JStr (Sql.job_company_handle r)) ].

(** The row that [Job.get] and [Job.update] return. *)
Definition job_result_without_id (r : Sql.JobRow) : JsObj :=
  [ ("title", JStr (Sql.job_title r));
    ("salary", Sql.js_of_sql (Sql.of_int (Sql.job_salary r)));
    ("equity", Sql.js_of_sql (Sql.of_numeric (Sql.job_equity r)));
    ("company_handle", JStr (Sql.job_company_handle r)) ].

(** A job whose equity is set and above zero. *)
Definition positive_equity (r : Sql.JobRow) : bool :=
  match Sql.job_equity r with
  | Some e => (0 <? Sql.mant e)%Z
  | None => false
  end.

(** A field of an update payload whose column exists and whose value can be
    read at the type of that column. *)
Definition field_ok {R : Type} `{Sql.Table R} (jsToSql : JsObj)
    (kv : string * JsVal) : Prop :=
  exists ty,
    Sql.column_type (R := R) (column_name jsToSql (fst kv)) = Some ty
    /\ Sql.accepts ty (snd kv) = true.

(* ===================================================================== *)
(** ** Texts that the caller passes on                                    *)
(* ===================================================================== *)

(** The characters of a search text that the statement does not take as
    themselves: the quote, which ends the literal, and the wildcards and the
    escape character of LIKE. *)
Definition special (c : ascii) : bool :=
  match c with
  | "'"%char | "%"%char | "_"%char | "\"%char => true
  | _ => false
  end.

Fixpoint plain (s : string) : bool :=
  match s with
  | EmptyString => true
  | String c s' => (negb (special c) && plain s')%bool
  end.

(** A text of ASCII characters only. *)
Fixpoint ascii_text (s : string) : bool :=
  match s with
  | EmptyString => true
  | String c s' => (Nat.ltb (nat_of_ascii c) 128 && ascii_text s')%bool
  end.

(* ===================================================================== *)
(** ** Sequences of calls on the Company manager                          *)
(* ===================================================================== *)

(** Every operation of the manager except [create]. *)
Inductive CompanyCall : Type :=
| CallFindAll
| CallFilter (filters : JsObj)
| CallGet (handle : JsVal)
| CallUpdate (handle : JsVal) (data : JsObj)
| CallRemove (handle : JsVal).

(** The database after the call, whether it returned or threw. *)
Definition after_call (c : CompanyCall) (d : Db) : Db :=
  match c with
  | CallFindAll => snd (Company.findAll d)
  | CallFilter filters => snd (Company.filter filters d)
  | CallGet handle => snd (Company.get handle d)
  | CallUpdate handle data => snd (Company.update handle data d)
  | CallRemove handle => snd (Company.remove handle d)
  end.

Definition after_calls (cs : list CompanyCall) (d : Db) : Db :=
  fold_left (fun d c => after_call c d) cs d.

(** A call as its caller is expected to have validated it: the payload of
    an update names documented fields only, and the name that a filter
    pastes into its statement holds none of the characters that the
    statement reads as more than themselves. *)
Definition validated (c : CompanyCall) : Prop :=
  match c with
  | CallUpdate _ data =>
      Forall (fun k => In k Company.updatable) (Object_keys data)
  | CallFilter filters => plain (to_string (get filters "name")) = true
  | _ => True
  end.

Definition is_remove (c : CompanyCall) : Prop :=
  match c with
  | CallRemove _ => True
  | _ => False
  end.

(** The operation fails with NotFound and the store is as it was. *)
Definition not_found {A : Type} (m : M A) (d : Db) : Prop :=
  exists message d',
    m d = (Throw (NotFoundError message), d') /\ store d' = store d.

(** Two companies and no job. *)
Definition companies_db : Db :=
  {| store := {| Sql.companies := [acme; bolt]; Sql.jobs := [];
                 Sql.jobs_id_seq := 0;
                 Sql.company_delete_rule := Sql.Restrict |};
     log := [] |}.

(** Payloads of [create] used in the examples. *)
Definition zinc_data : JsObj :=
  [ ("handle", JStr "zinc"); ("name", JStr "Zinc"); ("description", JStr "Metal");
    ("numEmployees", JNum 7); ("logoUrl", JNull) ].

Definition welder_data : JsObj :=
  [ ("title", JStr "welder"); ("salary", JNum 100); ("equity", JStr "0.5");
    ("company_handle", JStr "acme") ].


(* ===================================================================== *)
(** ** Vocabulary of the further properties                               *)
(* ===================================================================== *)

(** A value of the type of a column, or NULL. *)
Definition has_type (ty : Sql.SqlType) (v : Sql.SqlVal) : bool :=
  match ty, v with
  | _, Sql.VNull => true
  | Sql.TyInt, Sql.VInt _ => true
  | Sql.TyText, Sql.VText _ => true
  | Sql.TyNumeric, Sql.VNumeric _ => true
  | _, _ => false
  end.

(** The value of a field of an update payload as the store reads it: at
    the type of the column that the field names. *)
Definition bound_value {R : Type} `{Sql.Table R} (jsToSql : JsObj)
    (kv : string * JsVal) : Sql.SqlVal :=
  match Sql.column_type (R := R) (column_name jsToSql (fst kv)) with
  | Some ty =>
      match Sql.coerce ty (Sql.prepareValue (snd kv)) with
      | Sql.Done v => v
      | Sql.Failed _ => Sql.VNull
      end
  | None => Sql.VNull
  end.

(** The SET list of an update once bound: one constant per field. *)
Definition bound_assignments {R : Type} `{Sql.Table R} (jsToSql : JsObj)
    (data : JsObj) : list (string * Sql.Scalar) :=
  map (fun kv => (column_name jsToSql (fst kv),
                  Sql.SConst (bound_value (R := R) jsToSql kv))) data.

(** The order of the salaries in a listing: ascending, and a job without a
    salary after every job that has one. *)
Definition salary_le (a b : option Z) : Prop :=
  match a, b with
  | _, None => True
  | None, Some _ => False
  | Some x, Some y => (x <= y)%Z
  end.

(** [s] occurs in [t]. *)
Fixpoint contains (s t : string) : bool :=
  (String.prefix s t
   || match t with
      | EmptyString => false
      | String _ t' => contains s t'
      end)%bool.

(** [search] occurs in [text], letter case apart. *)
Definition matches_search (search text : string) : bool :=
  contains (Sql.lower_string search) (Sql.lower_string text).

(** A number that is there (not NULL) and satisfies [p]. *)
Definition known_and (p : Z -> bool) (v : option Z) : bool :=
  match v with
  | Some k => p k
  | None => false
  end.

(** A column name that the SET clause can carry between double quotes: not
    empty, and without a double quote of its own. *)
Fixpoint quote_free (c : string) : bool :=
  match c with
  | EmptyString => true
  | String a c' => (negb (Ascii.eqb a "034"%char) && quote_free c')%bool
  end.

Definition quotable (c : string) : bool :=
  match c with
  | EmptyString => false
  | _ => quote_free c
  end.

(** Read the text of a SET clause back: its assignments, and the tokens
    left over. *)
Definition read_assignments (text : string)
  : option (list (string * Sql.Atom) * list Sql.token) :=
  match Sql.lex text with
  | Some ts => Sql.parse_assignments ts
  | None => None
  end.
(* ===================================================================== *)
(** * Properties                                                          *)
(* ===================================================================== *)

(** ** The monad and the log *)

Lemma db_query_log sql params d :
  log (snd (db_query sql params d)) = log d ++ [(sql, params)].
Proof.
  unfold db_query. destruct (Sql.query sql params (store d)) as [o st].
  destruct o; reflexivity.
Qed.

Lemma db_query_store sql params d :
  store (snd (db_query sql params d)) = snd (Sql.query sql params (store d)).
Proof.
  unfold db_query. destruct (Sql.query sql params (store d)) as [o st].
  destruct o; reflexivity.
Qed.

Lemma db_query_result sql params d :
  fst (db_query sql params d) =
  match fst (Sql.query sql params (store d)) with
  | Sql.Done rows => Ok rows
  | Sql.Failed f => Throw (StoreError f)
  end.
Proof.
  unfold db_query. destruct (Sql.query sql params (store d)) as [o st].
  destruct o; reflexivity.
Qed.

(** ** [parseInt] *)

Lemma parseInt_defined v z : parseInt v = Some z -> defined v = true.
Proof. destruct v; simpl; try reflexivity. discriminate. Qed.

(** ** sqlForPartialUpdate *)

Lemma map_with_index_length f start keys :
  length (map_with_index f start keys) = length keys.
Proof.
  revert start. induction keys as [|k keys IH]; intros start; simpl.
  - reflexivity.
  - now rewrite IH.
Qed.

Lemma map_with_index_nth f start keys i k :
  nth_error keys i = Some k ->
  nth_error (map_with_index f start keys) i = Some (f k (start + i)).
Proof.
  revert start i. induction keys as [|k0 keys IH]; intros start [|i]; simpl;
    try discriminate.
  - intros [= ->]. now rewrite Nat.add_0_r.
  - intros Hk. rewrite (IH (S start) i Hk). f_equal. f_equal. lia.
Qed.

(** A non-empty field set is accepted; the clause is the comma-separated
    list of one assignment per field, numbered from 1 in field order, and
    the values are the field values in the same order. *)
Lemma sqlForPartialUpdate_nonempty data jsToSql :
  data <> [] ->
  sqlForPartialUpdate data jsToSql =
  Ok {| setCols := String.concat ", "
                     (map_with_index (column_assignment jsToSql) 0
                                     (Object_keys data));
        values := Object_values data |}.
Proof.
  intros Hne. unfold sqlForPartialUpdate.
  destruct data as [|kv data]; [congruence|]. reflexivity.
Qed.

(** A field name for which the name-map holds nothing, own or inherited,
    is its own column name. *)
Lemma column_assignment_passthrough jsToSql k idx :
  own_property jsToSql k = None ->
  inherited_property k = None ->
  column_assignment jsToSql k idx =
  dq +++ k +++ dq +++ "=$" +++ show_Z (Z.of_nat idx + 1).
Proof.
  intros Hown Hinh. unfold column_assignment, column_name, get.
  now rewrite Hown, Hinh.
Qed.

(** C5 (the code at the failing input): a field named like a member that
    every object inherits, here [constructor], is absent from the empty
    name-map, yet the column written into the clause is not the field name:
    the lookup [jsToSql[colName]] finds the inherited function, which is
    truthy, and the template prints its source text. *)
Theorem sqlForPartialUpdate_inherited_name :
  own_property [] "constructor" = None
  /\ sqlForPartialUpdate [("constructor", JStr "x")] [] =
     Ok {| setCols := dq +++ "function Object() { [native code] }" +++ dq
                         +++ "=$1";
           values := [JStr "x"] |}
  /\ sqlForPartialUpdate [("constructor", JStr "x")] [] <>
     Ok {| setCols := dq +++ "constructor" +++ dq +++ "=$1";
           values := [JStr "x"] |}.
Proof.
  split; [reflexivity|]. split; [reflexivity|].
  intros H. vm_compute in H. discriminate H.
Qed.

(** C6: with no field to update the helper throws BadRequest whatever the
    name-map holds, and the two [update] operations built on it throw the
    same error without issuing any statement: the store and the log of
    statements are left as they were. *)
Theorem empty_update_rejected :
  (forall jsToSql : JsObj,
      sqlForPartialUpdate [] jsToSql = Throw (BadRequestError "No data"))
  /\ (forall handle d,
        Company.update handle [] d = (Throw (BadRequestError "No data"), d))
  /\ (forall id d,
        Job.update id [] d = (Throw (BadRequestError "No data"), d)).
Proof.
  split; [|split]; reflexivity.
Qed.

(** ** The filter builders *)

(** C4: when both employee bounds are given, as safe integers, and the
    upper one is below the lower one, [Company.filter] throws BadRequest and
    the database record (store and log of issued statements) is returned
    untouched: no statement reached the store. *)
Theorem unsatisfiable_range_rejected (filters : JsObj) (d : Db) (lo hi : Z) :
  parseInt (get filters "minEmployees") = Some lo ->
  parseInt (get filters "maxEmployees") = Some hi ->
  is_safe_integer lo = true ->
  is_safe_integer hi = true ->
  (hi < lo)%Z ->
  exists message,
    Company.filter filters d = (Throw (BadRequestError message), d).
Proof.
  intros Hlo Hhi _ _ Hlt.
  exists "max employees must be greater than min employees".
  unfold Company.filter, Company.filter_statement.
  rewrite (parseInt_defined _ _ Hlo), (parseInt_defined _ _ Hhi), Hlo, Hhi.
  simpl. apply Z.ltb_lt in Hlt. rewrite Hlt. reflexivity.
Qed.

Lemma unsatisfiable_range_rejected_witness :
  exists message,
    Company.filter [("minEmployees", JStr "5"); ("maxEmployees", JStr "1")]
      {| store := {| Sql.companies := []; Sql.jobs := [];
                     Sql.jobs_id_seq := 0;
                     Sql.company_delete_rule := Sql.Cascade |};
         log := [] |}
    = (Throw (BadRequestError message),
       {| store := {| Sql.companies := []; Sql.jobs := [];
                      Sql.jobs_id_seq := 0;
                      Sql.company_delete_rule := Sql.Cascade |};
          log := [] |}).
Proof.
  apply (unsatisfiable_range_rejected _ _ 5%Z 1%Z);
    [reflexivity|reflexivity|reflexivity|reflexivity|lia].
Defined.

(** The statement of a filter on one text field carries the value. *)
Lemma company_name_filter_statement v :
  defined v = true ->
  Company.filter_statement [("name", v)] =
  Ok (Company.filter_base +++ " WHERE name ILIKE '%" +++ to_string v +++ "%'").
Proof.
  intros Hv. destruct v; try discriminate Hv; reflexivity.
Qed.

Lemma job_title_filter_statement v :
  defined v = true ->
  Job.filter_statement [("title", v)] =
  Job.filter_base +++ " WHERE title ILIKE '%" +++ to_string v +++ "%'".
Proof.
  intros Hv. destruct v; try discriminate Hv; reflexivity.
Qed.

(** C1 (the code on the failing inputs): the value of a filter is pasted
    into the statement text and the list of bind values is empty, so two
    requests with the same key and different values send different texts;
    a value containing a quote rewrites the condition (here it makes the
    name filter return every company). *)
Theorem filter_values_interpolated :
  (forall d s,
      log (snd (Company.filter [("name", JStr s)] d)) =
      log d ++ [(Company.filter_base +++ " WHERE name ILIKE '%" +++ s +++ "%'",
                 [])])
  /\ (forall d s,
        log (snd (Job.filter [("title", JStr s)] d)) =
        log d ++ [(Job.filter_base +++ " WHERE title ILIKE '%" +++ s +++ "%'",
                   [])])
  /\ Company.filter_statement [("name", JStr "a")] <>
     Company.filter_statement [("name", JStr "b")]
  /\ Job.filter_statement [("title", JStr "a")] <>
     Job.filter_statement [("title", JStr "b")]
  /\ Company.filter_statement [("minEmployees", JStr "1")] <>
     Company.filter_statement [("minEmployees", JStr "2")]
  /\ fst (Company.filter [("name", JStr "zzz%' OR name ILIKE '")] example_db) =
     Ok [acme_row; bolt_row].
Proof.
  split; [|split; [|split; [|split; [|split]]]].
  - intros d s. unfold Company.filter.
    rewrite (company_name_filter_statement (JStr s) eq_refl).
    apply db_query_log.
  - intros d s. unfold Job.filter.
    rewrite (job_title_filter_statement (JStr s) eq_refl).
    apply db_query_log.
  - intros H; vm_compute in H; discriminate H.
  - intros H; vm_compute in H; discriminate H.
  - intros H; vm_compute in H; discriminate H.
  - vm_compute. reflexivity.
Qed.

(** ** ORDER BY permutes *)

Lemma insert_sorted_perm {R} `{Sql.Table R} c (r : R) l :
  Permutation (Sql.insert_sorted c r l) (r :: l).
Proof.
  induction l as [|x l IH]; simpl.
  - reflexivity.
  - destruct (Sql.sorts_before _ _).
    + reflexivity.
    + rewrite IH. apply perm_swap.
Qed.

Lemma order_rows_perm {R} `{Sql.Table R} c (l : list R) :
  Permutation (Sql.order_rows c l) l.
Proof.
  induction l as [|x l IH]; simpl.
  - reflexivity.
  - rewrite insert_sorted_perm. now constructor.
Qed.

Lemma filter_all {A} (l : list A) : filter (fun _ => true) l = l.
Proof. induction l; simpl; congruence. Qed.

Lemma job_equity_statement v :
  Job.filter_statement [("hasEquity", v)] =
  Job.filter_base +++ " WHERE equity IS NOT NULL AND equity > 0".
Proof. reflexivity. Qed.

Lemma equity_condition_qualifies (r : Sql.JobRow) :
  Sql.qualifies
    (Some (Sql.CAnd (Sql.CIsNotNull (Sql.SColumn "equity"))
                    (Sql.CCmp Sql.OpGt (Sql.SColumn "equity")
                              (Sql.SConst (Sql.VInt 0))))) r
  = positive_equity r.
Proof.
  unfold Sql.qualifies, positive_equity.
  cbn [Sql.holds Sql.scalar_value Sql.column_value Sql.job_table Sql.job_value
       String.eqb Ascii.eqb Bool.eqb].
  destruct (Sql.job_equity r) as [e|]; [|reflexivity].
  cbn [Sql.of_numeric Sql.is_null negb Sql.compare_values Sql.as_dec option_map].
  unfold Sql.dec_compare, Sql.dec_of_Z. cbn [Sql.mant Sql.scale Z.of_nat].
  rewrite Z.pow_0_r, Z.mul_1_r, Z.mul_0_l.
  destruct (Z.compare_spec (Sql.mant e) 0) as [H|H|H]; cbn;
    symmetry; [apply Z.ltb_ge|apply Z.ltb_ge|apply Z.ltb_lt]; lia.
Qed.

(** With [hasEquity] as the only filter, whatever its value, the jobs that
    come back are those with a positive equity. *)
Lemma job_filter_hasEquity_only v d :
  fst (Job.filter [("hasEquity", v)] d) =
  Ok (map job_result (filter positive_equity (Sql.jobs (store d)))).
Proof.
  unfold Job.filter. rewrite job_equity_statement, db_query_result.
  unfold Sql.query.
  replace (Sql.parse (Job.filter_base +++ " WHERE equity IS NOT NULL AND equity > 0"))
    with (Some (Sql.Select job_items "jobs"
                  (Some (Sql.EAnd (Sql.EIsNotNull (Sql.AColumn "equity"))
                                  (Sql.ECmp Sql.OpGt (Sql.AColumn "equity")
                                            (Sql.AInt 0))))
                  None)) by (vm_compute; reflexivity).
  cbn [Sql.execute String.eqb Ascii.eqb Bool.eqb fst].
  unfold Sql.run_select.
  cbn [Sql.and_then Sql.bind_items Sql.traverse job_items Sql.bind_item
       Sql.si_column Sql.column_type Sql.assoc Sql.columns Sql.job_table
       String.eqb Ascii.eqb Bool.eqb Sql.bind_where Sql.bind_expr Sql.bind_any
       Sql.bind_cmp Sql.bind_atom Sql.unify Sql.as_type Sql.compatible
       Sql.bind_order Sql.ordered].
  f_equal. f_equal. apply filter_ext. apply equity_condition_qualifies.
Qed.

(** C2 (the code on the failing input): a request whose only filter is
    [hasEquity], whatever its value, gets the statement that keeps jobs with
    a positive equity, and on every store only those jobs come back; with
    the value ["false"] the jobs without equity are therefore dropped.
    Combined with a title, ["false"] appends a disjunction that is not
    parenthesized, and a job whose title does not match comes back
    ([cook_row]). *)
Theorem hasEquity_false_restricts :
  (forall v,
      Job.filter_statement [("hasEquity", v)] =
      Job.filter_base +++ " WHERE equity IS NOT NULL AND equity > 0")
  /\ (forall d,
        fst (Job.filter [("hasEquity", JStr "false")] d) =
        Ok (map job_result (filter positive_equity (Sql.jobs (store d)))))
  /\ fst (Job.filter [("hasEquity", JStr "false")] example_db) = Ok [clerk_row]
  /\ fst (Job.filter [] example_db) =
     Ok [job1_row; job2_row; clerk_row; cook_row]
  /\ fst (Job.filter [("title", JStr "job"); ("hasEquity", JStr "false")]
            example_db) = Ok [job1_row; job2_row; cook_row].
Proof.
  split; [|split; [|split; [|split]]].
  - intros v. unfold Job.filter_statement. simpl. reflexivity.
  - intros d. apply job_filter_hasEquity_only.
  - vm_compute. reflexivity.
  - vm_compute. reflexivity.
  - vm_compute. reflexivity.
Qed.

(** C3: with no filter at all, [Job.filter] returns the rows of
    [Job.findAll] (in table order instead of salary order), but
    [Company.filter] sends a statement that ends in a bare WHERE, which the
    store refuses, while [Company.findAll] answers. *)
Theorem empty_filter_and_findAll :
  (forall d, fst (Company.filter [] d) = Throw (StoreError SyntaxFailure))
  /\ (forall d, exists rows, fst (Company.findAll d) = Ok rows)
  /\ (forall d, exists rows rows',
         fst (Job.filter [] d) = Ok rows
         /\ fst (Job.findAll d) = Ok rows'
         /\ Permutation rows rows').
Proof.
  split; [|split].
  - intros d. unfold Company.filter. cbn. rewrite db_query_result.
    reflexivity.
  - intros d. unfold Company.findAll. rewrite db_query_result.
    cbn. eexists. reflexivity.
  - intros d. unfold Job.filter, Job.findAll. rewrite !db_query_result.
    cbn. do 2 eexists. split; [reflexivity|]. split; [reflexivity|].
    apply Permutation_map. symmetry. apply order_rows_perm.
Qed.

(** ** Text of the generated statements *)

Lemma append_assoc (a b c : string) : (a +++ b) +++ c = a +++ b +++ c.
Proof. induction a; simpl; congruence. Qed.

Lemma append_nil_r (a : string) : a +++ EmptyString = a.
Proof. induction a; simpl; congruence. Qed.

Lemma lex_run_app st s1 s2 :
  Sql.lex_run st (s1 +++ s2) =
  match Sql.lex_run st s1 with
  | None => None
  | Some (out, st') =>
      match Sql.lex_run st' s2 with
      | None => None
      | Some (ts, st'') => Some (out ++ ts, st'')
      end
  end.
Proof.
  revert st. induction s1 as [|c s1 IH]; intros st; simpl.
  - destruct (Sql.lex_run st s2) as [[ts st'']|]; reflexivity.
  - destruct (Sql.lex_step st c) as [[out st']|]; [|reflexivity].
    rewrite IH. destruct (Sql.lex_run st' s1) as [[o1 st1]|]; [|reflexivity].
    destruct (Sql.lex_run st1 s2) as [[ts st2]|]; [|reflexivity].
    now rewrite app_assoc.
Qed.

Lemma lex_from_run st s :
  Sql.lex_from st s =
  match Sql.lex_run st s with
  | None => None
  | Some (out, st') =>
      match Sql.lex_end st' with
      | None => None
      | Some ts => Some (out ++ ts)
      end
  end.
Proof.
  revert st. induction s as [|c s IH]; intros st; simpl.
  - destruct (Sql.lex_end st); reflexivity.
  - destruct (Sql.lex_step st c) as [[out st']|]; [|reflexivity].
    rewrite IH. destruct (Sql.lex_run st' s) as [[o1 st1]|]; [|reflexivity].
    destruct (Sql.lex_end st1); [|reflexivity]. now rewrite app_assoc.
Qed.

Lemma uint_digits u : Sql.all_digits (NilEmpty.string_of_uint u) = true.
Proof. induction u; simpl; auto. Qed.

Lemma show_Z_digits z : (0 <= z)%Z -> Sql.all_digits (show_Z z) = true.
Proof.
  intros Hz. unfold show_Z. destruct z as [|p|p]; [reflexivity| |lia].
  simpl. unfold NilZero.string_of_uint.
  destruct (Pos.to_uint p) eqn:E; try (rewrite <- E; apply uint_digits).
  reflexivity.
Qed.

Lemma show_Z_nonempty z : show_Z z <> EmptyString.
Proof.
  unfold show_Z. destruct z as [|p|p]; simpl; try discriminate.
  unfold NilZero.string_of_uint. destruct (Pos.to_uint p); simpl; discriminate.
Qed.

Lemma number_of_show_Z z : (0 <= z)%Z -> Sql.number_of_digits (show_Z z) = z.
Proof.
  intros Hz. unfold Sql.number_of_digits, show_Z.
  destruct z as [|p|p]; [reflexivity| |lia].
  simpl. unfold NilZero.string_of_uint.
  assert (H : NilEmpty.uint_of_string (NilEmpty.string_of_uint (Pos.to_uint p))
              = Some (Pos.to_uint p)) by apply NilEmpty.usu.
  assert (Hp : Z.of_uint (Pos.to_uint p) = Z.pos p).
  { unfold Z.of_uint. now rewrite DecimalPos.Unsigned.of_to. }
  destruct (Pos.to_uint p) eqn:E; try (rewrite H; exact Hp).
  simpl in Hp. discriminate Hp.
Qed.

Lemma lex_run_param_digits acc ds :
  Sql.all_digits ds = true ->
  Sql.lex_run (Sql.LParam acc) ds = Some ([], Sql.LParam (acc +++ ds)).
Proof.
  revert acc. induction ds as [|c ds IH]; intros acc Hd; simpl in *.
  - now rewrite append_nil_r.
  - apply andb_prop in Hd as [Hc Hd]. rewrite Hc.
    rewrite (IH _ Hd). unfold Sql.snoc. now rewrite append_assoc.
Qed.


Lemma lex_run_param_space ds rest :
  ds <> EmptyString ->
  Sql.lex_run (Sql.LParam ds) (" " +++ rest) =
  match Sql.lex_run Sql.LStart rest with
  | None => None
  | Some (ts, st) =>
      Some (Sql.TParam (Z.to_nat (Sql.number_of_digits ds)) :: ts, st)
  end.
Proof.
  intros Hne. destruct ds as [|c ds]; [congruence|]. reflexivity.
Qed.

Lemma lex_run_param_comma ds rest :
  ds <> EmptyString ->
  Sql.lex_run (Sql.LParam ds) (", " +++ rest) =
  match Sql.lex_run Sql.LStart rest with
  | None => None
  | Some (ts, st) =>
      Some (Sql.TParam (Z.to_nat (Sql.number_of_digits ds)) :: Sql.TComma :: ts,
            st)
  end.
Proof.
  intros Hne. destruct ds as [|c ds]; [congruence|]. simpl.
  destruct (Sql.lex_run Sql.LStart rest) as [[ts st]|]; reflexivity.
Qed.

(** A placeholder [$n] written by the code, followed by [sep]. *)
Lemma lex_run_placeholder (n : nat) sep rest k :
  (forall ds, ds <> EmptyString ->
     Sql.lex_run (Sql.LParam ds) (sep +++ rest) =
     match Sql.lex_run Sql.LStart rest with
     | None => None
     | Some (ts, st) =>
         Some (Sql.TParam (Z.to_nat (Sql.number_of_digits ds)) :: k ++ ts, st)
     end) ->
  Sql.lex_run (Sql.LParam EmptyString)
              (show_Z (Z.of_nat n + 1) +++ sep +++ rest) =
  match Sql.lex_run Sql.LStart rest with
  | None => None
  | Some (ts, st) => Some (Sql.TParam (S n) :: k ++ ts, st)
  end.
Proof.
  intros Hsep. rewrite lex_run_app.
  rewrite lex_run_param_digits by (apply show_Z_digits; lia).
  simpl (EmptyString +++ _).
  rewrite Hsep by apply show_Z_nonempty.
  rewrite number_of_show_Z by lia.
  replace (Z.to_nat (Z.of_nat n + 1)) with (S n) by lia.
  destruct (Sql.lex_run Sql.LStart rest) as [[ts st]|]; reflexivity.
Qed.

Lemma column_assignment_text jsToSql k idx rest :
  column_assignment jsToSql k idx +++ rest =
  (dq +++ column_name jsToSql k +++ dq +++ "=$")
    +++ show_Z (Z.of_nat idx + 1) +++ rest.
Proof.
  unfold column_assignment. now rewrite !append_assoc.
Qed.

Lemma lex_run_assignment jsToSql k idx sep rest toks :
  lexes_quoted (column_name jsToSql k) ->
  (forall ds, ds <> EmptyString ->
     Sql.lex_run (Sql.LParam ds) (sep +++ rest) =
     match Sql.lex_run Sql.LStart rest with
     | None => None
     | Some (ts, st) =>
         Some (Sql.TParam (Z.to_nat (Sql.number_of_digits ds)) :: toks ++ ts, st)
     end) ->
  Sql.lex_run Sql.LStart (column_assignment jsToSql k idx +++ sep +++ rest) =
  match Sql.lex_run Sql.LStart rest with
  | None => None
  | Some (ts, st) =>
      Some (Sql.TQId (column_name jsToSql k) :: Sql.TEq :: Sql.TParam (S idx)
              :: toks ++ ts, st)
  end.
Proof.
  intros Hq Hsep. rewrite column_assignment_text, lex_run_app, Hq.
  rewrite (lex_run_placeholder idx sep rest toks Hsep).
  destruct (Sql.lex_run Sql.LStart rest) as [[ts st]|]; reflexivity.
Qed.

Lemma lex_run_setCols jsToSql keys start rest :
  keys <> [] ->
  Forall (fun k => lexes_quoted (column_name jsToSql k)) keys ->
  Sql.lex_run Sql.LStart
    (String.concat ", " (map_with_index (column_assignment jsToSql) start keys)
       +++ " " +++ rest) =
  match Sql.lex_run Sql.LStart rest with
  | None => None
  | Some (ts, st) =>
      Some (assignment_tokens (map (column_name jsToSql) keys) start ++ ts, st)
  end.
Proof.
  intros Hne Hall. revert start.
  induction keys as [|k keys IH]; [congruence|]. intros start.
  inversion Hall as [|? ? Hk Hrest]; subst.
  destruct keys as [|k' keys].
  - cbn [String.concat map_with_index].
    rewrite (lex_run_assignment jsToSql k start " " rest []); auto.
    intros ds Hds. now rewrite lex_run_param_space.
  - change (String.concat ", " (map_with_index (column_assignment jsToSql) start (k :: k' :: keys)))
      with (column_assignment jsToSql k start +++ ", " +++
            String.concat ", " (map_with_index (column_assignment jsToSql) (S start) (k' :: keys))).
    rewrite !append_assoc.
    rewrite (lex_run_assignment jsToSql k start ", " _ [Sql.TComma]).
    + rewrite IH by (auto; discriminate).
      destruct (Sql.lex_run Sql.LStart rest) as [[ts st]|]; reflexivity.
    + exact Hk.
    + intros ds Hds. now rewrite lex_run_param_comma.
Qed.

Lemma parse_list_assignments cols start rest fuel :
  cols <> [] ->
  length cols <= fuel ->
  match rest with Sql.TComma :: _ => False | _ => True end ->
  Sql.parse_list Sql.parse_assignment fuel (assignment_tokens cols start ++ rest)
  = Some (assignments cols start, rest).
Proof.
  intros Hne. revert start fuel.
  induction cols as [|c cols IH]; [congruence|]. intros start fuel Hf Hrest.
  destruct fuel as [|fuel]; [simpl in Hf; lia|].
  destruct cols as [|c' cols].
  - simpl. destruct rest as [|t rest]; [reflexivity|].
    destruct t; try reflexivity. contradiction.
  - change (assignment_tokens (c :: c' :: cols) start)
      with (Sql.TQId c :: Sql.TEq :: Sql.TParam (S start) :: Sql.TComma
              :: assignment_tokens (c' :: cols) (S start)).
    cbn [app Sql.parse_list Sql.parse_assignment Sql.parse_name Sql.parse_atom].
    rewrite IH; [reflexivity|discriminate| simpl in *; lia | exact Hrest].
Qed.

Lemma assignment_tokens_length cols start :
  length cols <= length (assignment_tokens cols start).
Proof.
  revert start. induction cols as [|c cols IH]; intros start; [simpl; lia|].
  destruct cols as [|c' cols]; [simpl; lia|].
  change (assignment_tokens (c :: c' :: cols) start)
      with (Sql.TQId c :: Sql.TEq :: Sql.TParam (S start) :: Sql.TComma
              :: assignment_tokens (c' :: cols) (S start)).
  specialize (IH (S start)). simpl in *. lia.
Qed.


Section UpdateText.
Variables (P1 P2 P3 : string) (T1 T2 T3 : list Sql.token).
Hypothesis HP1 : Sql.lex_run Sql.LStart P1 = Some (T1, Sql.LStart).
Hypothesis HP2 :
  Sql.lex_run Sql.LStart P2 = Some (T2, Sql.LParam EmptyString).
Hypothesis HP3 : Sql.lex_from Sql.LStart P3 = Some T3.

Lemma lex_update_text jsToSql keys n :
  keys <> [] ->
  Forall (fun k => lexes_quoted (column_name jsToSql k)) keys ->
  Sql.lex (P1 +++ String.concat ", "
                    (map_with_index (column_assignment jsToSql) 0 keys)
              +++ " " +++ P2 +++ show_Z (Z.of_nat n + 1) +++ " " +++ P3) =
  Some (T1 ++ assignment_tokens (map (column_name jsToSql) keys) 0
           ++ T2 ++ Sql.TParam (S n) :: T3).
Proof.
  intros Hne Hall. unfold Sql.lex.
  rewrite lex_from_run in *.
  rewrite lex_run_app, HP1.
  rewrite (lex_run_setCols jsToSql keys 0 _ Hne Hall).
  rewrite lex_run_app, HP2.
  rewrite (lex_run_placeholder n " " P3 []).
  - destruct (Sql.lex_run Sql.LStart P3) as [[ts st]|]; [|discriminate].
    destruct (Sql.lex_end st) as [te|]; [|discriminate].
    injection HP3 as <-. simpl. now rewrite <- !app_assoc.
  - intros ds Hds. now rewrite lex_run_param_space.
Qed.
End UpdateText.

Lemma company_update_sql_text setCols idx :
  Company.update_sql setCols ("$" +++ idx) =
  ("UPDATE companies " +++ nl +++ "                      SET ")
    +++ setCols +++ " "
    +++ (nl +++ "                      WHERE handle = $")
    +++ idx +++ " "
    +++ (nl +++ "                      RETURNING handle, " +++ nl
         +++ "                                name, " +++ nl
         +++ "                                description, " +++ nl
         +++ "                                num_employees AS " +++ dq +++ "numEmployees" +++ dq +++ ", " +++ nl
         +++ "                                logo_url AS " +++ dq +++ "logoUrl" +++ dq).
Proof.
  unfold Company.update_sql, lines. cbn [String.concat].
  rewrite !append_assoc. reflexivity.
Qed.

Lemma company_updatable_lexes k :
  In k Company.updatable -> lexes_quoted (column_name Company.jsToSql k).
Proof.
  intros Hk. simpl in Hk.
  destruct Hk as [<-|[<-|[<-|[<-|[]]]]]; reflexivity.
Qed.

Lemma parse_company_update keys n :
  keys <> [] ->
  Forall (fun k => In k Company.updatable) keys ->
  Sql.parse
    (Company.update_sql
       (String.concat ", "
          (map_with_index (column_assignment Company.jsToSql) 0 keys))
       ("$" +++ show_Z (Z.of_nat n + 1))) =
  Some (Sql.Update "companies"
          (assignments (map (column_name Company.jsToSql) keys) 0)
          (Some (Sql.ECmp Sql.OpEq (Sql.AColumn "handle") (Sql.AParam (S n))))
          company_returning).
Proof.
  intros Hne Hall. unfold Sql.parse.
  rewrite company_update_sql_text.
  erewrite lex_update_text; cycle 1.
  - vm_compute. reflexivity.
  - vm_compute. reflexivity.
  - vm_compute. reflexivity.
  - exact Hne.
  - eapply Forall_impl; [|exact Hall]. apply company_updatable_lexes.
  - cbn [app Sql.parse_stmt]. unfold Sql.parse_assignments.
    rewrite parse_list_assignments.
    + reflexivity.
    + destruct keys; [congruence|discriminate].
    + rewrite length_app, length_map.
      pose proof (assignment_tokens_length (map (column_name Company.jsToSql) keys) 0) as Hl.
      rewrite length_map in Hl. lia.
    + exact I.
Qed.

(** ** Reading back a number the code printed *)

Lemma digit_not_space c : Sql.is_digit c = true -> Sql.is_space c = false.
Proof.
  unfold Sql.is_digit, Sql.is_space. intros H.
  apply andb_prop in H as [H1 H2].
  apply Nat.leb_le in H1. apply Nat.leb_le in H2.
  apply orb_false_intro.
  - apply Nat.eqb_neq. lia.
  - apply andb_false_intro2. apply Nat.leb_gt. lia.
Qed.

Lemma read_decimal_digits acc ds :
  Sql.all_digits ds = true ->
  acc +++ ds <> EmptyString ->
  Sql.read_decimal false acc 0 ds =
  Some {| Sql.mant := Sql.number_of_digits (acc +++ ds); Sql.scale := 0 |}.
Proof.
  revert acc. induction ds as [|c ds IH]; intros acc Hd Hne.
  - rewrite append_nil_r in *. destruct acc; [congruence|reflexivity].
  - simpl in Hd. apply andb_prop in Hd as [Hc Hd].
    cbn [Sql.read_decimal]. rewrite Hc. rewrite IH.
    + unfold Sql.snoc. now rewrite append_assoc.
    + exact Hd.
    + unfold Sql.snoc. destruct acc; discriminate.
Qed.

Lemma parse_numeric_digits ds :
  Sql.all_digits ds = true -> ds <> EmptyString ->
  Sql.parse_numeric ds =
  Some {| Sql.mant := Sql.number_of_digits ds; Sql.scale := 0 |}.
Proof.
  intros Hd Hne. destruct ds as [|c ds]; [congruence|].
  pose proof Hd as Hd'. simpl in Hd'. apply andb_prop in Hd' as [Hc _].
  unfold Sql.parse_numeric. cbn [Sql.drop_spaces].
  rewrite (digit_not_space c Hc).
  destruct c as [[] [] [] [] [] [] [] []]; try discriminate Hc;
    apply (read_decimal_digits EmptyString _ Hd); discriminate.
Qed.

Lemma show_Z_neg p : show_Z (Z.neg p) = String "-" (show_Z (Z.pos p)).
Proof. reflexivity. Qed.

Lemma parse_numeric_show_Z z :
  Sql.parse_numeric (show_Z z) = Some {| Sql.mant := z; Sql.scale := 0 |}.
Proof.
  destruct z as [|p|p].
  - reflexivity.
  - rewrite parse_numeric_digits.
    + now rewrite number_of_show_Z by lia.
    + apply show_Z_digits; lia.
    + apply show_Z_nonempty.
  - rewrite show_Z_neg. unfold Sql.parse_numeric. cbn [Sql.drop_spaces].
    change (Sql.is_space "-") with false. cbv iota.
    rewrite read_decimal_digits.
    + simpl (EmptyString +++ _). rewrite number_of_show_Z by lia. reflexivity.
    + apply show_Z_digits; lia.
    + apply show_Z_nonempty.
Qed.

Lemma parse_int4_show_Z z :
  Sql.in_int4 z = true -> Sql.parse_int4 (show_Z z) = Some z.
Proof.
  intros Hz. unfold Sql.parse_int4. rewrite parse_numeric_show_Z. now rewrite Hz.
Qed.

(** ** Rows selected by key *)

Lemma filter_none {A} (f : A -> bool) l :
  (forall x, In x l -> f x = false) -> filter f l = [].
Proof.
  induction l as [|x l IH]; intros Hf; simpl; [reflexivity|].
  rewrite (Hf x (or_introl eq_refl)). apply IH. intros y Hy. apply Hf. now right.
Qed.

Lemma filter_negb_none {A} (f : A -> bool) l :
  (forall x, In x l -> f x = false) -> filter (fun x => negb (f x)) l = l.
Proof.
  induction l as [|x l IH]; intros Hf; simpl; [reflexivity|].
  rewrite (Hf x (or_introl eq_refl)). simpl. f_equal. apply IH.
  intros y Hy. apply Hf. now right.
Qed.

Lemma update_rows_none {R} `{Sql.Table R} w a (rows : list R) :
  (forall r, In r rows -> Sql.qualifies w r = false) ->
  Sql.update_rows w a rows = Some (rows, []).
Proof.
  induction rows as [|r rows IH]; intros Hq; simpl; [reflexivity|].
  rewrite IH by (intros y Hy; apply Hq; now right).
  now rewrite (Hq r (or_introl eq_refl)).
Qed.


Lemma string_compare_refl s : String.compare s s = Eq.
Proof.
  pose proof (String.compare_antisym s s) as H.
  destruct (String.compare s s); [reflexivity|discriminate H|discriminate H].
Qed.

Lemma company_key_qualifies h (r : Sql.CompanyRow) :
  Sql.qualifies (company_key h) r = String.eqb (Sql.co_handle r) h.
Proof.
  unfold company_key, Sql.qualifies. cbn.
  destruct (String.eqb_spec (Sql.co_handle r) h) as [->|Hne].
  - now rewrite string_compare_refl.
  - destruct (String.compare (Sql.co_handle r) h) eqn:E; try reflexivity.
    apply String.compare_eq_iff in E. contradiction.
Qed.

Lemma job_key_qualifies i (r : Sql.JobRow) :
  Sql.qualifies (job_key i) r = Z.eqb (Sql.job_id r) i.
Proof.
  unfold job_key, Sql.qualifies. cbn.
  destruct (Z.eqb_spec (Sql.job_id r) i) as [->|Hne].
  - now rewrite Z.compare_refl.
  - destruct (Z.compare (Sql.job_id r) i) eqn:E; try reflexivity.
    apply Z.compare_eq_iff in E. contradiction.
Qed.

Lemma absent_company_rows h (rows : list Sql.CompanyRow) :
  ~ In h (map Sql.co_handle rows) ->
  forall r, In r rows -> Sql.qualifies (company_key h) r = false.
Proof.
  intros Hn r Hr. rewrite company_key_qualifies. apply String.eqb_neq.
  intros <-. apply Hn. now apply in_map.
Qed.

Lemma absent_job_rows i (rows : list Sql.JobRow) :
  ~ In i (map Sql.job_id rows) ->
  forall r, In r rows -> Sql.qualifies (job_key i) r = false.
Proof.
  intros Hn r Hr. rewrite job_key_qualifies. apply Z.eqb_neq.
  intros <-. apply Hn. now apply in_map.
Qed.

Lemma store_eta st :
  Sql.with_jobs (Sql.with_companies st (Sql.companies st)) (Sql.jobs st) = st.
Proof. destruct st; reflexivity. Qed.

Lemma with_companies_same st : Sql.with_companies st (Sql.companies st) = st.
Proof. destruct st; reflexivity. Qed.

Lemma with_jobs_same st : Sql.with_jobs st (Sql.jobs st) = st.
Proof. destruct st; reflexivity. Qed.

(** *** get *)

Lemma company_get_absent h d :
  ~ In h (Sql.handles (store d)) ->
  exists d', Company.get (JStr h) d =
             (Throw (NotFoundError ("No company: " +++ h)), d')
             /\ store d' = store d.
Proof.
  intros Hn. unfold Company.get, bind, db_query, Sql.query.
  replace (Sql.parse Company.get_sql) with
    (Some (Sql.Select company_returning "companies"
             (Some (Sql.ECmp Sql.OpEq (Sql.AColumn "handle") (Sql.AParam 1)))
             None)) by (vm_compute; reflexivity).
  cbn.
  fold (company_key h).
  rewrite (filter_none _ _ (absent_company_rows h _ Hn)).
  cbn. eexists. split; reflexivity.
Qed.


Lemma coerce_int_show_Z i :
  Sql.in_int4 i = true ->
  Sql.coerce Sql.TyInt (Some (show_Z i)) = Sql.Done (Sql.VInt i).
Proof. intros Hi. unfold Sql.coerce. now rewrite parse_int4_show_Z. Qed.

Lemma job_get_absent i d :
  Sql.in_int4 i = true ->
  ~ In i (map Sql.job_id (Sql.jobs (store d))) ->
  exists d', Job.get (JNum i) d =
             (Throw (NotFoundError ("No job: " +++ show_Z i)), d')
             /\ store d' = store d.
Proof.
  intros Hi Hn. unfold Job.get, bind, db_query, Sql.query.
  replace (Sql.parse Job.get_sql) with
    (Some (Sql.Select job_returning "jobs"
             (Some (Sql.ECmp Sql.OpEq (Sql.AColumn "id") (Sql.AParam 1)))
             None)) by (vm_compute; reflexivity).
  cbn -[Sql.coerce]. rewrite (coerce_int_show_Z i Hi).
  cbn. fold (job_key i).
  rewrite (filter_none _ _ (absent_job_rows i _ Hn)).
  cbn. eexists. split; reflexivity.
Qed.

Lemma parse_company_remove :
  Sql.parse Company.remove_sql =
  Some (Sql.Delete "companies"
          (Some (Sql.ECmp Sql.OpEq (Sql.AColumn "handle") (Sql.AParam 1)))
          [ {| Sql.si_column := "handle"; Sql.si_alias := "handle" |} ]).
Proof. vm_compute. reflexivity. Qed.

Lemma mem_nil x : Sql.mem x [] = false.
Proof. reflexivity. Qed.

Lemma existsb_none {A} (f : A -> bool) l :
  (forall x, In x l -> f x = false) -> existsb f l = false.
Proof.
  induction l as [|x l IH]; intros Hf; simpl; [reflexivity|].
  rewrite (Hf x (or_introl eq_refl)). apply IH. intros y Hy. apply Hf. now right.
Qed.

Lemma query_company_remove_absent h st :
  ~ In h (Sql.handles st) ->
  Sql.query Company.remove_sql [JStr h] st = (Sql.Done [], st).
Proof.
  intros Hn. unfold Sql.query. rewrite parse_company_remove.
  cbn [Sql.execute String.eqb Ascii.eqb Bool.eqb map Sql.prepareValue to_string].
  unfold Sql.delete_company.
  cbn [Sql.bind_where Sql.bind_expr Sql.bind_cmp Sql.bind_atom Sql.and_then
       nth_error Sql.column_type Sql.assoc Sql.columns Sql.company_table
       String.eqb Ascii.eqb Bool.eqb Sql.unify Sql.as_type Sql.coerce
       Sql.bind_items Sql.traverse Sql.bind_item Sql.si_column].
  fold (company_key h).
  rewrite (filter_none _ _ (absent_company_rows h _ Hn)).
  rewrite (filter_negb_none _ _ (absent_company_rows h _ Hn)).
  cbn [map Sql.mem existsb negb].
  rewrite filter_all.
  replace (existsb (fun _ : Sql.JobRow => false) (Sql.jobs st)) with false
    by (symmetry; apply existsb_none; reflexivity).
  destruct (Sql.company_delete_rule st); cbn; now rewrite store_eta.
Qed.

(** ** Binding the statement of [update] *)

Lemma assignments_names cols start : map fst (assignments cols start) = cols.
Proof.
  revert start. induction cols as [|c cols IH]; intros start; simpl;
    [reflexivity|]. now rewrite IH.
Qed.

Section BindUpdate.
Context {R : Type} `{Sql.Table R}.
Variable jsToSql : JsObj.
Variable params : list (option string).

Lemma traverse_assignments (data : JsObj) start :
  (forall j kv, nth_error data j = Some kv ->
                nth_error params (start + j) = Some (Sql.prepareValue (snd kv))) ->
  Forall (field_ok jsToSql) data ->
  exists a,
    Sql.traverse (Sql.bind_assignment (R := R) params)
      (assignments (map (column_name jsToSql) (Object_keys data)) start)
    = Sql.Done a
    /\ map fst a = map (column_name jsToSql) (Object_keys data).
Proof.
  revert start. induction data as [|[k v] data IH]; intros start Hnth Hok.
  - exists []. split; reflexivity.
  - inversion Hok as [|? ? [ty [Hty Hacc]] Hok']; subst.
    destruct (IH (S start)) as [a [Ha Hnames]].
    + intros j kv Hj. replace (S start + j) with (start + S j) by lia.
      now apply Hnth.
    + exact Hok'.
    + simpl in Hty, Hacc. unfold Sql.accepts in Hacc.
      destruct (Sql.coerce ty (Sql.prepareValue v)) as [val|] eqn:Hco;
        [|discriminate].
      exists ((column_name jsToSql k, Sql.SConst val) :: a).
      cbn [Object_keys map fst assignments Sql.traverse Sql.bind_assignment].
      fold (Object_keys data).
      rewrite Hty. cbn [Sql.bind_atom].
      specialize (Hnth 0 (k, v) eq_refl). rewrite Nat.add_0_r in Hnth.
      rewrite Hnth. cbn [Sql.and_then Sql.as_type snd].
      rewrite Hco. cbn [Sql.and_then]. rewrite Ha. cbn [Sql.and_then].
      split; [reflexivity|]. cbn [map fst]. now rewrite Hnames.
Qed.

Lemma bind_assignments_valid (data : JsObj) post :
  params = map Sql.prepareValue (Object_values data ++ post) ->
  Sql.distinct (map (column_name jsToSql) (Object_keys data)) = true ->
  Forall (field_ok jsToSql) data ->
  exists a,
    Sql.bind_assignments (R := R) params
      (assignments (map (column_name jsToSql) (Object_keys data)) 0)
    = Sql.Done a
    /\ map fst a = map (column_name jsToSql) (Object_keys data).
Proof.
  intros Hp Hd Hok. unfold Sql.bind_assignments.
  rewrite assignments_names, Hd. cbn [Sql.require Sql.and_then].
  apply traverse_assignments; [|exact Hok].
  intros j kv Hj. rewrite Hp. cbn [Nat.add].
  rewrite map_app, nth_error_app1.
  - unfold Object_values. rewrite !nth_error_map, Hj. reflexivity.
  - unfold Object_values. rewrite !length_map. apply nth_error_Some.
    rewrite Hj. discriminate.
Qed.
End BindUpdate.

Lemma distinct_map (f : string -> string) (dom keys : list string) :
  (forall a b, In a dom -> In b dom -> f a = f b -> a = b) ->
  Forall (fun k => In k dom) keys ->
  Sql.distinct keys = true ->
  Sql.distinct (map f keys) = true.
Proof.
  intros Hinj. induction keys as [|k keys IH]; intros Hdom Hd; [reflexivity|].
  inversion Hdom as [|? ? Hk Hdom']; subst.
  simpl in *. apply andb_prop in Hd as [Hnot Hd].
  rewrite IH by assumption. rewrite andb_true_r.
  apply negb_true_iff. apply negb_true_iff in Hnot.
  apply existsb_none. intros y Hy. apply in_map_iff in Hy as [x [<- Hx]].
  apply String.eqb_neq. intros Heq.
  assert (k = x) as -> by (apply Hinj; auto; rewrite Forall_forall in Hdom'; auto).
  assert (Hex : existsb (String.eqb x) keys = true).
  { apply existsb_exists. exists x. split; [assumption|apply String.eqb_refl]. }
  congruence.
Qed.

Lemma mem_In x l : Sql.mem x l = true <-> In x l.
Proof.
  unfold Sql.mem. rewrite existsb_exists. split.
  - intros [y [Hy Heq]]. apply String.eqb_eq in Heq. now subst.
  - intros Hx. exists x. split; [assumption|apply String.eqb_refl].
Qed.

Lemma company_columns_injective a b :
  In a Company.updatable -> In b Company.updatable ->
  column_name Company.jsToSql a = column_name Company.jsToSql b -> a = b.
Proof.
  simpl. intros [<-|[<-|[<-|[<-|[]]]]] [<-|[<-|[<-|[<-|[]]]]] Heq;
    try reflexivity; vm_compute in Heq; discriminate Heq.
Qed.

Lemma company_valid_update data :
  Company.valid_update data = true ->
  Forall (fun k => In k Company.updatable) (Object_keys data)
  /\ Sql.distinct (map (column_name Company.jsToSql) (Object_keys data)) = true
  /\ Forall (field_ok (R := Sql.CompanyRow) Company.jsToSql) data.
Proof.
  unfold Company.valid_update. intros Hv. apply andb_prop in Hv as [Hd Hf].
  rewrite forallb_forall in Hf.
  assert (Hdom : Forall (fun k => In k Company.updatable) (Object_keys data)).
  { apply Forall_forall. intros k Hk. apply in_map_iff in Hk as [kv [<- Hkv]].
    apply Hf in Hkv. apply andb_prop in Hkv as [Hm _]. now apply mem_In. }
  split; [exact Hdom|]. split.
  - eapply distinct_map; eauto. apply company_columns_injective.
  - apply Forall_forall. intros kv Hkv. apply Hf in Hkv.
    apply andb_prop in Hkv as [_ Hty]. unfold field_ok.
    destruct (Sql.column_type _) as [ty|]; [|discriminate]. now exists ty.
Qed.

Lemma bind_where_company_key params n h :
  nth_error params n = Some (Some h) ->
  Sql.bind_where (R := Sql.CompanyRow) params
    (Some (Sql.ECmp Sql.OpEq (Sql.AColumn "handle") (Sql.AParam (S n))))
  = Sql.Done (company_key h).
Proof.
  intros Hn. cbn. rewrite Hn. reflexivity.
Qed.

Lemma bind_where_job_key params n i :
  Sql.in_int4 i = true ->
  nth_error params n = Some (Some (show_Z i)) ->
  Sql.bind_where (R := Sql.JobRow) params
    (Some (Sql.ECmp Sql.OpEq (Sql.AColumn "id") (Sql.AParam (S n))))
  = Sql.Done (job_key i).
Proof.
  intros Hi Hn. cbn -[Sql.coerce]. rewrite Hn. cbn -[Sql.coerce].
  rewrite (coerce_int_show_Z i Hi). reflexivity.
Qed.

Lemma nth_error_last_param (vals : list JsVal) (v : JsVal) :
  nth_error (map Sql.prepareValue (vals ++ [v])) (length vals)
  = Some (Sql.prepareValue v).
Proof.
  rewrite map_app, nth_error_app2 by (rewrite length_map; lia).
  rewrite length_map, Nat.sub_diag. reflexivity.
Qed.

Lemma forallb_implb_same {A} (f : A -> bool) l :
  forallb (fun x => implb (f x) (f x)) l = true.
Proof.
  induction l as [|x l IH]; simpl; [reflexivity|].
  rewrite IH. now destruct (f x).
Qed.

Lemma update_company_absent params asg a n h ret st :
  Sql.bind_assignments (R := Sql.CompanyRow) params asg = Sql.Done a ->
  nth_error params n = Some (Some h) ->
  Sql.bind_items (R := Sql.CompanyRow) ret = Sql.Done ret ->
  ~ In h (Sql.handles st) ->
  Sql.update_company params asg
    (Some (Sql.ECmp Sql.OpEq (Sql.AColumn "handle") (Sql.AParam (S n)))) ret st
  = (Sql.Done [], st).
Proof.
  intros Ha Hn Hret Habs. unfold Sql.update_company.
  rewrite Ha, (bind_where_company_key _ _ _ Hn), Hret.
  cbn [Sql.and_then].
  rewrite (update_rows_none _ _ _ (absent_company_rows h _ Habs)).
  cbn [forallb Sql.require Sql.and_then map].
  fold (Sql.handles st). rewrite forallb_implb_same.
  cbn [Sql.require Sql.and_then]. now rewrite with_companies_same.
Qed.

Lemma query_company_update_absent h data st :
  data <> [] ->
  Company.valid_update data = true ->
  ~ In h (Sql.handles st) ->
  Sql.query
    (Company.update_sql
       (String.concat ", "
          (map_with_index (column_assignment Company.jsToSql) 0
             (Object_keys data)))
       ("$" +++ show_Z (Z.of_nat (length (Object_values data)) + 1)))
    (Object_values data ++ [JStr h]) st
  = (Sql.Done [], st).
Proof.
  intros Hne Hv Habs.
  destruct (company_valid_update data Hv) as [Hdom [Hd Hok]].
  unfold Sql.query. rewrite parse_company_update; [|destruct data; [congruence|discriminate]|exact Hdom].
  cbn [Sql.execute String.eqb Ascii.eqb Bool.eqb].
  destruct (bind_assignments_valid (R := Sql.CompanyRow) Company.jsToSql
              (map Sql.prepareValue (Object_values data ++ [JStr h]))
              data [JStr h] eq_refl Hd Hok) as [a [Ha _]].
  apply (update_company_absent _ _ a _ h); auto.
  - apply nth_error_last_param.
Qed.

Lemma company_update_absent h data d :
  data <> [] ->
  Company.valid_update data = true ->
  ~ In h (Sql.handles (store d)) ->
  exists d', Company.update (JStr h) data d =
             (Throw (NotFoundError ("No company: " +++ h)), d')
             /\ store d' = store d.
Proof.
  intros Hne Hv Habs. unfold Company.update.
  rewrite sqlForPartialUpdate_nonempty by exact Hne.
  unfold bind, lift, ret, db_query. cbn [setCols values].
  rewrite query_company_update_absent by assumption.
  cbn. eexists. split; reflexivity.
Qed.

(** ** The same for jobs *)

Lemma job_update_sql_text setCols idx :
  Job.update_sql setCols ("$" +++ idx) =
  ("UPDATE jobs " +++ nl +++ "                      SET ")
    +++ setCols +++ " "
    +++ (nl +++ "                      WHERE id = $")
    +++ idx +++ " "
    +++ (nl +++ "                      RETURNING title, salary, equity, company_handle").
Proof.
  unfold Job.update_sql, lines. cbn [String.concat].
  rewrite !append_assoc. reflexivity.
Qed.

Lemma job_updatable_lexes k :
  In k Job.updatable -> lexes_quoted (column_name Job.jsToSql k).
Proof.
  intros Hk. simpl in Hk.
  destruct Hk as [<-|[<-|[<-|[]]]]; reflexivity.
Qed.

Lemma parse_job_update keys n :
  keys <> [] ->
  Forall (fun k => In k Job.updatable) keys ->
  Sql.parse
    (Job.update_sql
       (String.concat ", "
          (map_with_index (column_assignment Job.jsToSql) 0 keys))
       ("$" +++ show_Z (Z.of_nat n + 1))) =
  Some (Sql.Update "jobs"
          (assignments (map (column_name Job.jsToSql) keys) 0)
          (Some (Sql.ECmp Sql.OpEq (Sql.AColumn "id") (Sql.AParam (S n))))
          job_returning).
Proof.
  intros Hne Hall. unfold Sql.parse.
  rewrite job_update_sql_text.
  erewrite lex_update_text; cycle 1.
  - vm_compute. reflexivity.
  - vm_compute. reflexivity.
  - vm_compute. reflexivity.
  - exact Hne.
  - eapply Forall_impl; [|exact Hall]. apply job_updatable_lexes.
  - cbn [app Sql.parse_stmt]. unfold Sql.parse_assignments.
    rewrite parse_list_assignments.
    + reflexivity.
    + destruct keys; [congruence|discriminate].
    + rewrite length_app, length_map.
      pose proof (assignment_tokens_length
                    (map (column_name Job.jsToSql) keys) 0) as Hl.
      rewrite length_map in Hl. lia.
    + exact I.
Qed.

Lemma job_columns_injective a b :
  In a Job.updatable -> In b Job.updatable ->
  column_name Job.jsToSql a = column_name Job.jsToSql b -> a = b.
Proof.
  simpl. intros [<-|[<-|[<-|[]]]] [<-|[<-|[<-|[]]]] Heq;
    try reflexivity; vm_compute in Heq; discriminate Heq.
Qed.

Lemma job_valid_update data :
  Job.valid_update data = true ->
  Forall (fun k => In k Job.updatable) (Object_keys data)
  /\ Sql.distinct (map (column_name Job.jsToSql) (Object_keys data)) = true
  /\ Forall (field_ok (R := Sql.JobRow) Job.jsToSql) data.
Proof.
  unfold Job.valid_update. intros Hv. apply andb_prop in Hv as [Hd Hf].
  rewrite forallb_forall in Hf.
  assert (Hdom : Forall (fun k => In k Job.updatable) (Object_keys data)).
  { apply Forall_forall. intros k Hk. apply in_map_iff in Hk as [kv [<- Hkv]].
    apply Hf in Hkv. apply andb_prop in Hkv as [Hm _]. now apply mem_In. }
  split; [exact Hdom|]. split.
  - eapply distinct_map; eauto. apply job_columns_injective.
  - apply Forall_forall. intros kv Hkv. apply Hf in Hkv.
    apply andb_prop in Hkv as [_ Hty]. unfold field_ok.
    destruct (Sql.column_type _) as [ty|]; [|discriminate]. now exists ty.
Qed.

Lemma update_job_absent params asg a n i ret st :
  Sql.in_int4 i = true ->
  Sql.bind_assignments (R := Sql.JobRow) params asg = Sql.Done a ->
  nth_error params n = Some (Some (show_Z i)) ->
  Sql.bind_items (R := Sql.JobRow) ret = Sql.Done ret ->
  ~ In i (map Sql.job_id (Sql.jobs st)) ->
  Sql.update_job params asg
    (Some (Sql.ECmp Sql.OpEq (Sql.AColumn "id") (Sql.AParam (S n)))) ret st
  = (Sql.Done [], st).
Proof.
  intros Hi Ha Hn Hret Habs. unfold Sql.update_job.
  rewrite Ha, (bind_where_job_key _ _ _ Hi Hn), Hret.
  cbn [Sql.and_then].
  rewrite (update_rows_none _ _ _ (absent_job_rows i _ Habs)).
  cbn [forallb Sql.require Sql.and_then map]. now rewrite with_jobs_same.
Qed.

Lemma query_job_update_absent i data st :
  Sql.in_int4 i = true ->
  data <> [] ->
  Job.valid_update data = true ->
  ~ In i (map Sql.job_id (Sql.jobs st)) ->
  Sql.query
    (Job.update_sql
       (String.concat ", "
          (map_with_index (column_assignment Job.jsToSql) 0 (Object_keys data)))
       ("$" +++ show_Z (Z.of_nat (length (Object_values data)) + 1)))
    (Object_values data ++ [JNum i]) st
  = (Sql.Done [], st).
Proof.
  intros Hi Hne Hv Habs.
  destruct (job_valid_update data Hv) as [Hdom [Hd Hok]].
  unfold Sql.query.
  rewrite parse_job_update;
    [|destruct data; [congruence|discriminate]|exact Hdom].
  cbn [Sql.execute String.eqb Ascii.eqb Bool.eqb].
  destruct (bind_assignments_valid (R := Sql.JobRow) Job.jsToSql
              (map Sql.prepareValue (Object_values data ++ [JNum i]))
              data [JNum i] eq_refl Hd Hok) as [a [Ha _]].
  apply (update_job_absent _ _ a _ i); auto.
  apply nth_error_last_param.
Qed.

Lemma job_update_absent i data d :
  Sql.in_int4 i = true ->
  data <> [] ->
  Job.valid_update data = true ->
  ~ In i (map Sql.job_id (Sql.jobs (store d))) ->
  exists d', Job.update (JNum i) data d =
             (Throw (NotFoundError ("No company: " +++ show_Z i)), d')
             /\ store d' = store d.
Proof.
  intros Hi Hne Hv Habs. unfold Job.update.
  rewrite sqlForPartialUpdate_nonempty by exact Hne.
  unfold bind, lift, ret, db_query. cbn [setCols values].
  rewrite query_job_update_absent by assumption.
  cbn. eexists. split; reflexivity.
Qed.

(** *** remove *)

Lemma parse_job_remove :
  Sql.parse Job.remove_sql =
  Some (Sql.Delete "jobs"
          (Some (Sql.ECmp Sql.OpEq (Sql.AColumn "id") (Sql.AParam 1)))
          [ {| Sql.si_column := "id"; Sql.si_alias := "id" |} ]).
Proof. vm_compute. reflexivity. Qed.

Lemma delete_job_by_key i st :
  Sql.in_int4 i = true ->
  Sql.query Job.remove_sql [JNum i] st =
  (Sql.Done (map (Sql.project [ {| Sql.si_column := "id"; Sql.si_alias := "id" |} ])
               (filter (Sql.qualifies (job_key i)) (Sql.jobs st))),
   Sql.with_jobs st
     (filter (fun r => negb (Sql.qualifies (job_key i) r)) (Sql.jobs st))).
Proof.
  intros Hi. unfold Sql.query. rewrite parse_job_remove.
  cbn [Sql.execute String.eqb Ascii.eqb Bool.eqb map Sql.prepareValue to_string].
  unfold Sql.delete_job.
  rewrite (bind_where_job_key [Some (show_Z i)] 0 i Hi eq_refl).
  reflexivity.
Qed.

Lemma job_remove_absent i d :
  Sql.in_int4 i = true ->
  ~ In i (map Sql.job_id (Sql.jobs (store d))) ->
  exists d', Job.remove (JNum i) d =
             (Throw (NotFoundError ("No job: " +++ show_Z i)), d')
             /\ store d' = store d.
Proof.
  intros Hi Habs. unfold Job.remove, bind, db_query.
  rewrite (delete_job_by_key i _ Hi).
  rewrite (filter_none _ _ (absent_job_rows i _ Habs)).
  rewrite (filter_negb_none _ _ (absent_job_rows i _ Habs)).
  rewrite with_jobs_same. cbn. eexists. split; reflexivity.
Qed.

Lemma company_remove_absent h d :
  ~ In h (Sql.handles (store d)) ->
  exists d', Company.remove (JStr h) d =
             (Throw (NotFoundError ("No company: " +++ h)), d')
             /\ store d' = store d.
Proof.
  intros Habs. unfold Company.remove, bind, db_query.
  rewrite (query_company_remove_absent h _ Habs).
  cbn. eexists. split; reflexivity.
Qed.

(** After a successful removal the key is gone. *)
Lemma job_remove_removes i d d' :
  Sql.in_int4 i = true ->
  Job.remove (JNum i) d = (Ok tt, d') ->
  ~ In i (map Sql.job_id (Sql.jobs (store d'))).
Proof.
  intros Hi. unfold Job.remove, bind, db_query.
  rewrite (delete_job_by_key i _ Hi).
  destruct (first_row _); cbn; [|discriminate].
  intros [= <-]. cbn. intros Hin.
  apply in_map_iff in Hin as [r [Hr Hin]].
  apply filter_In in Hin as [_ Hq]. cbv beta in Hq.
  rewrite Hr, Z.compare_refl in Hq. discriminate Hq.
Qed.

(** ** What can change a company handle *)

Lemma company_assign_handle c v r r' :
  c <> "handle" ->
  Sql.company_assign c v r = Some r' ->
  Sql.co_handle r' = Sql.co_handle r.
Proof.
  intros Hc. unfold Sql.company_assign.
  destruct (String.eqb_spec c "handle") as [->|_]; [congruence|].
  repeat match goal with
         | |- (if ?b then _ else _) = _ -> _ => destruct b
         end;
    try discriminate;
    match goal with
    | |- option_map _ ?o = _ -> _ => destruct o; simpl; [|discriminate]
    end; intros [= <-]; reflexivity.
Qed.

Lemma apply_assignments_handle (a : list (string * Sql.Scalar)) old r r' :
  ~ In "handle" (map fst a) ->
  Sql.apply_assignments a old r = Some r' ->
  Sql.co_handle r' = Sql.co_handle r.
Proof.
  revert r. induction a as [|[c s] a IH]; intros r Hn; simpl.
  - now intros [= <-].
  - destruct (Sql.company_assign c (Sql.scalar_value s old) r) as [r1|] eqn:E;
      [|discriminate].
    intros Hr'. rewrite (IH r1).
    + apply (company_assign_handle c _ _ _ ltac:(intros ->; apply Hn; now left) E).
    + intros Hin. apply Hn. now right.
    + exact Hr'.
Qed.

Lemma update_rows_handles w (a : list (string * Sql.Scalar)) rows table changed :
  ~ In "handle" (map fst a) ->
  Sql.update_rows w a rows = Some (table, changed) ->
  map Sql.co_handle table = map Sql.co_handle rows.
Proof.
  intros Hn. revert table changed.
  induction rows as [|r rows IH]; intros table changed; simpl.
  - now intros [= <- <-].
  - destruct (Sql.update_rows w a rows) as [[t c]|]; [|discriminate].
    destruct (Sql.qualifies w r).
    + destruct (Sql.apply_assignments a r r) as [r'|] eqn:E; [|discriminate].
      intros [= <- <-]. simpl. f_equal.
      * now apply (apply_assignments_handle a r r r').
      * now apply (IH t c).
    + intros [= <- <-]. simpl. f_equal. now apply (IH t c).
Qed.

Lemma traverse_bind_assignment_names {R} `{Sql.Table R} params asg a :
  Sql.traverse (Sql.bind_assignment (R := R) params) asg = Sql.Done a ->
  map fst a = map fst asg.
Proof.
  revert a. induction asg as [|[c x] asg IH]; intros a; simpl.
  - now intros [= <-].
  - destruct (Sql.column_type c); [|discriminate].
    destruct (Sql.bind_atom params x) as [b|]; [|discriminate]. simpl.
    destruct (Sql.as_type s b) as [sc|]; [|discriminate]. simpl.
    destruct (Sql.traverse _ asg) as [a'|]; [|discriminate]. simpl.
    intros [= <-]. simpl. f_equal. now apply IH.
Qed.

Lemma bind_assignments_names {R} `{Sql.Table R} params asg a :
  Sql.bind_assignments (R := R) params asg = Sql.Done a ->
  map fst a = map fst asg.
Proof.
  unfold Sql.bind_assignments.
  destruct (Sql.distinct (map fst asg)); [|discriminate]. simpl.
  apply traverse_bind_assignment_names.
Qed.

(** An UPDATE of companies that does not assign the column [handle]
    leaves the handles of the table as they are, row by row. *)
Lemma update_company_handles params asg w ret st :
  ~ In "handle" (map fst asg) ->
  Sql.handles (snd (Sql.update_company params asg w ret st)) = Sql.handles st.
Proof.
  intros Hn. unfold Sql.update_company.
  destruct (Sql.bind_assignments params asg) as [a|] eqn:Ha; [|reflexivity].
  cbn [Sql.and_then].
  destruct (Sql.bind_where params w) as [c|]; [|reflexivity].
  cbn [Sql.and_then].
  destruct (Sql.bind_items ret) as [ret'|]; [|reflexivity].
  cbn [Sql.and_then].
  destruct (Sql.update_rows c a (Sql.companies st)) as [[table changed]|] eqn:E;
    [|reflexivity].
  destruct (forallb _ changed); [|reflexivity]. cbn [Sql.require Sql.and_then].
  destruct (forallb _ (Sql.jobs st)); [|reflexivity].
  cbn [Sql.require Sql.and_then snd]. unfold Sql.handles. cbn.
  apply (update_rows_handles c a _ _ changed); [|exact E].
  now rewrite (bind_assignments_names _ _ _ Ha).
Qed.

Lemma company_columns_not_handle keys :
  Forall (fun k => In k Company.updatable) keys ->
  ~ In "handle" (map (column_name Company.jsToSql) keys).
Proof.
  intros Hall Hin. apply in_map_iff in Hin as [k [Hk Hin]].
  rewrite Forall_forall in Hall. specialize (Hall k Hin). simpl in Hall.
  destruct Hall as [<-|[<-|[<-|[<-|[]]]]]; vm_compute in Hk; discriminate Hk.
Qed.

(** [Company.update] with documented fields: whatever the target, the
    values and the outcome, no handle changes. *)
Lemma company_update_handles handle data d :
  Forall (fun k => In k Company.updatable) (Object_keys data) ->
  Sql.handles (store (snd (Company.update handle data d))) =
  Sql.handles (store d).
Proof.
  intros Hdom. destruct data as [|kv data]; [reflexivity|].
  unfold Company.update.
  rewrite sqlForPartialUpdate_nonempty by discriminate.
  unfold bind, lift, ret. cbn [setCols values].
  match goal with
  | |- context [db_query ?q ?p d] =>
      pose proof (db_query_store q p d) as Hs;
      destruct (db_query q p d) as [[rows|e] d1]
  end; cbn [snd] in Hs.
  - assert (Hd1 : Sql.handles (store d1) = Sql.handles (store d)).
    { rewrite Hs. unfold Sql.query.
      rewrite parse_company_update by (exact Hdom || discriminate).
      cbn [Sql.execute String.eqb Ascii.eqb Bool.eqb].
      apply update_company_handles. rewrite assignments_names.
      now apply company_columns_not_handle. }
    destruct (first_row rows); exact Hd1.
  - cbn [snd]. rewrite Hs. unfold Sql.query.
    rewrite parse_company_update by (exact Hdom || discriminate).
    cbn [Sql.execute String.eqb Ascii.eqb Bool.eqb].
    apply update_company_handles. rewrite assignments_names.
    now apply company_columns_not_handle.
Qed.

(** ** Statements that only read *)

Lemma execute_select_store items t w o params st :
  snd (Sql.execute (Sql.Select items t w o) params st) = st.
Proof.
  simpl. destruct (String.eqb t "companies"); [reflexivity|].
  destruct (String.eqb t "jobs"); reflexivity.
Qed.

Lemma parse_stmt_select ts :
  Sql.parse_stmt (Sql.TKw Sql.KSelect :: ts) = None
  \/ exists items t w o,
      Sql.parse_stmt (Sql.TKw Sql.KSelect :: ts) = Some (Sql.Select items t w o).
Proof.
  cbn [Sql.parse_stmt].
  repeat match goal with
         | |- context [match ?x with _ => _ end] =>
             destruct x; try (left; reflexivity)
         end.
  right. do 4 eexists. reflexivity.
Qed.

(** A text that opens with the head of a SELECT is a SELECT or nothing. *)
Lemma parse_select_prefix base rest toks st0 :
  Sql.lex_run Sql.LStart base = Some (Sql.TKw Sql.KSelect :: toks, st0) ->
  Sql.parse (base +++ rest) = None
  \/ exists items t w o,
      Sql.parse (base +++ rest) = Some (Sql.Select items t w o).
Proof.
  intros Hbase. unfold Sql.parse, Sql.lex.
  rewrite lex_from_run, lex_run_app, Hbase.
  destruct (Sql.lex_run st0 rest) as [[ts st1]|]; [|now left].
  destruct (Sql.lex_end st1) as [te|]; [|now left].
  cbn [app]. apply parse_stmt_select.
Qed.

Lemma query_select_prefix base rest toks st0 params st :
  Sql.lex_run Sql.LStart base = Some (Sql.TKw Sql.KSelect :: toks, st0) ->
  snd (Sql.query (base +++ rest) params st) = st.
Proof.
  intros Hbase. unfold Sql.query.
  destruct (parse_select_prefix base rest toks st0 Hbase)
    as [->|[items [t [w [o ->]]]]]; [reflexivity|].
  apply execute_select_store.
Qed.

Lemma company_filter_text filters sql :
  Company.filter_statement filters = Ok sql ->
  exists rest, sql = Company.filter_base +++ rest.
Proof.
  unfold Company.filter_statement.
  repeat match goal with
         | |- context [if ?b then _ else _] => destruct b
         end;
    intros [= <-]; rewrite ?append_assoc; eexists; reflexivity.
Qed.

(** A filter whose name is plain sends one SELECT, or a text that the
    store refuses. *)
Lemma company_filter_store filters d :
  plain (to_string (get filters "name")) = true ->
  store (snd (Company.filter filters d)) = store d.
Proof.
  intros _. unfold Company.filter, bind, lift.
  destruct (Company.filter_statement filters) as [sql|e] eqn:E; [|reflexivity].
  cbn [ret]. destruct (company_filter_text _ _ E) as [rest ->].
  match goal with
  | |- context [db_query ?q ?p d] =>
      pose proof (db_query_store q p d) as Hs;
      destruct (db_query q p d) as [[rows|e] d1]
  end; cbn [snd] in *; rewrite Hs;
    eapply query_select_prefix; vm_compute; reflexivity.
Qed.

Lemma company_findAll_store d : store (snd (Company.findAll d)) = store d.
Proof.
  unfold Company.findAll. rewrite db_query_store.
  rewrite <- (append_nil_r Company.findAll_sql).
  eapply query_select_prefix. vm_compute. reflexivity.
Qed.

Lemma company_get_store handle d :
  store (snd (Company.get handle d)) = store d.
Proof.
  unfold Company.get, bind.
  match goal with
  | |- context [db_query ?q ?p d] =>
      pose proof (db_query_store q p d) as Hs;
      destruct (db_query q p d) as [[rows|e] d1]
  end; cbn [snd] in *.
  - destruct (first_row rows); cbn; rewrite Hs;
      rewrite <- (append_nil_r Company.get_sql);
      eapply query_select_prefix; vm_compute; reflexivity.
  - rewrite Hs. rewrite <- (append_nil_r Company.get_sql).
    eapply query_select_prefix; vm_compute; reflexivity.
Qed.

(** DELETE only takes rows away. *)
Lemma delete_company_handles params w ret st :
  incl (Sql.handles (snd (Sql.delete_company params w ret st))) (Sql.handles st).
Proof.
  unfold Sql.delete_company.
  destruct (Sql.bind_where params w) as [c|]; [|apply incl_refl].
  cbn [Sql.and_then].
  destruct (Sql.bind_items ret) as [ret'|]; [|apply incl_refl].
  cbn [Sql.and_then].
  assert (Hkept : incl (map Sql.co_handle
                          (filter (fun r : Sql.CompanyRow => negb (Sql.qualifies c r))
                                  (Sql.companies st)))
                       (Sql.handles st)).
  { intros h Hh. apply in_map_iff in Hh as [r [<- Hr]].
    apply filter_In in Hr as [Hr _]. unfold Sql.handles. now apply in_map. }
  destruct (Sql.company_delete_rule st).
  - exact Hkept.
  - destruct (existsb _ (Sql.jobs st)); [apply incl_refl|exact Hkept].
Qed.

Lemma company_remove_handles handle d :
  incl (Sql.handles (store (snd (Company.remove handle d))))
       (Sql.handles (store d)).
Proof.
  unfold Company.remove, bind.
  match goal with
  | |- context [db_query ?q ?p d] =>
      pose proof (db_query_store q p d) as Hs;
      destruct (db_query q p d) as [[rows|e] d1]
  end; cbn [snd] in *.
  - assert (H1 : incl (Sql.handles (store d1)) (Sql.handles (store d))).
    { rewrite Hs. unfold Sql.query. rewrite parse_company_remove.
      cbn [Sql.execute String.eqb Ascii.eqb Bool.eqb].
      apply delete_company_handles. }
    destruct (first_row rows); exact H1.
  - rewrite Hs. unfold Sql.query. rewrite parse_company_remove.
    cbn [Sql.execute String.eqb Ascii.eqb Bool.eqb].
    apply delete_company_handles.
Qed.

Lemma after_call_handles c d :
  validated c ->
  incl (Sql.handles (store (after_call c d))) (Sql.handles (store d))
  /\ (match c with CallRemove _ => True
      | _ => Sql.handles (store (after_call c d)) = Sql.handles (store d) end).
Proof.
  intros Hdoc. destruct c as [|filters|handle|handle data|handle];
    cbn [after_call].
  - rewrite company_findAll_store. split; [apply incl_refl|reflexivity].
  - rewrite (company_filter_store filters d Hdoc).
    split; [apply incl_refl|reflexivity].
  - rewrite company_get_store. split; [apply incl_refl|reflexivity].
  - rewrite (company_update_handles handle data d Hdoc).
    split; [apply incl_refl|reflexivity].
  - split; [apply company_remove_handles|exact I].
Qed.

Lemma after_calls_handles calls d :
  Forall validated calls ->
  incl (Sql.handles (store (after_calls calls d))) (Sql.handles (store d))
  /\ (Forall (fun c => ~ is_remove c) calls ->
      Sql.handles (store (after_calls calls d)) = Sql.handles (store d)).
Proof.
  revert d. induction calls as [|c calls IH]; intros d Hdoc.
  - split; [apply incl_refl|reflexivity].
  - inversion Hdoc as [|? ? Hc Hcalls]; subst.
    destruct (after_call_handles c d Hc) as [Hincl Heq].
    destruct (IH (after_call c d) Hcalls) as [IHincl IHeq].
    cbn [after_calls fold_left]. fold (after_calls calls (after_call c d)).
    split.
    + eapply incl_tran; eassumption.
    + intros Hnr. inversion Hnr as [|? ? Hc' Hcalls']; subst.
      rewrite (IHeq Hcalls'). destruct c; try exact Heq.
      exfalso. apply Hc'. exact I.
Qed.

(** C7, counterexample: [Company.update] given the field [handle] renames
    the company. *)
Lemma update_renames_company :
  fst (Company.update (JStr "bolt") [("handle", JStr "zed")] companies_db) =
  Ok [ ("handle", JStr "zed"); ("name", JStr "Bolt");
       ("description", JStr "Fasteners"); ("numEmployees", JNull);
       ("logoUrl", JStr "http://bolt.img") ]
  /\ Sql.handles (store companies_db) = ["acme"; "bolt"]
  /\ Sql.handles
       (store (snd (Company.update (JStr "bolt") [("handle", JStr "zed")]
                      companies_db))) = ["acme"; "zed"].
Proof. vm_compute. repeat split. Qed.

(** C7, amended: through any sequence of calls other than [create], the
    updates carrying documented fields only and the filters a plain name,
    every handle found in the store afterwards was there before; if the
    sequence holds no [remove], the handles of the store are the same, each
    as many times as before. *)
Theorem handles_stable (calls : list CompanyCall) (d : Db) :
  Forall validated calls ->
  incl (Sql.handles (store (after_calls calls d))) (Sql.handles (store d))
  /\ (Forall (fun c => ~ is_remove c) calls ->
      Permutation (Sql.handles (store (after_calls calls d)))
                  (Sql.handles (store d))).
Proof.
  intros Hv. destruct (after_calls_handles calls d Hv) as [Hincl Heq].
  split; [exact Hincl|]. intros Hnr. rewrite (Heq Hnr). apply Permutation_refl.
Qed.

Lemma handles_stable_witness :
  incl (Sql.handles
          (store (after_calls
                    [ CallUpdate (JStr "acme") [("name", JStr "Acme 2")];
                      CallFilter [("name", JStr "net"); ("minEmployees", JStr "2")];
                      CallGet (JStr "acme");
                      CallUpdate (JStr "bolt") [("numEmployees", JNum 3)] ]
                    example_db)))
       (Sql.handles (store example_db))
  /\ (Forall (fun c => ~ is_remove c)
        [ CallUpdate (JStr "acme") [("name", JStr "Acme 2")];
          CallFilter [("name", JStr "net"); ("minEmployees", JStr "2")];
          CallGet (JStr "acme");
          CallUpdate (JStr "bolt") [("numEmployees", JNum 3)] ] ->
      Permutation
        (Sql.handles
           (store (after_calls
                     [ CallUpdate (JStr "acme") [("name", JStr "Acme 2")];
                       CallFilter [("name", JStr "net"); ("minEmployees", JStr "2")];
                       CallGet (JStr "acme");
                       CallUpdate (JStr "bolt") [("numEmployees", JNum 3)] ]
                     example_db)))
        (Sql.handles (store example_db))).
Proof.
  apply handles_stable.
  constructor; [|constructor; [|constructor; [|constructor; [|constructor]]]].
  - constructor; [left; reflexivity|constructor].
  - reflexivity.
  - exact I.
  - constructor; [right; right; left; reflexivity|constructor].
Defined.

(** ** Absent entities *)

Lemma query_company_remove h st :
  Sql.query Company.remove_sql [JStr h] st =
  Sql.delete_company [Some h]
    (Some (Sql.ECmp Sql.OpEq (Sql.AColumn "handle") (Sql.AParam 1)))
    [ {| Sql.si_column := "handle"; Sql.si_alias := "handle" |} ] st.
Proof. unfold Sql.query. rewrite parse_company_remove. reflexivity. Qed.

Lemma company_remove_removes h d d' :
  Company.remove (JStr h) d = (Ok tt, d') ->
  ~ In h (Sql.handles (store d')).
Proof.
  unfold Company.remove, bind, db_query. rewrite query_company_remove.
  unfold Sql.delete_company.
  cbn [Sql.bind_where Sql.bind_expr Sql.bind_cmp Sql.bind_atom Sql.and_then
       nth_error Sql.column_type Sql.assoc Sql.columns Sql.company_table
       String.eqb Ascii.eqb Bool.eqb Sql.unify Sql.as_type Sql.coerce
       Sql.bind_items Sql.traverse Sql.bind_item Sql.si_column].
  fold (company_key h).
  assert (Hkept : ~ In h (map Sql.co_handle
            (filter (fun r : Sql.CompanyRow => negb (Sql.qualifies (company_key h) r))
                    (Sql.companies (store d))))).
  { intros Hin. apply in_map_iff in Hin as [r [Hr Hin]].
    apply filter_In in Hin as [_ Hq]. cbv beta in Hq.
    rewrite company_key_qualifies in Hq.
    apply negb_true_iff, String.eqb_neq in Hq. contradiction. }
  destruct (Sql.company_delete_rule (store d)).
  - cbn [Sql.and_then]. destruct (first_row _); cbn; [|discriminate].
    intros [= <-]. exact Hkept.
  - destruct (existsb _ (Sql.jobs (store d))); cbn [negb Sql.require Sql.and_then].
    + discriminate.
    + destruct (first_row _); cbn; [|discriminate].
      intros [= <-]. exact Hkept.
Qed.

Lemma company_absent_not_found h d :
  ~ In h (Sql.handles (store d)) ->
  not_found (Company.get (JStr h)) d
  /\ not_found (Company.remove (JStr h)) d
  /\ (forall data, data <> [] -> Company.valid_update data = true ->
                   not_found (Company.update (JStr h) data) d).
Proof.
  intros Habs. unfold not_found. split; [|split].
  - destruct (company_get_absent h d Habs) as [d' [H1 H2]]. eauto.
  - destruct (company_remove_absent h d Habs) as [d' [H1 H2]]. eauto.
  - intros data Hne Hv.
    destruct (company_update_absent h data d Hne Hv Habs) as [d' [H1 H2]]. eauto.
Qed.

Lemma job_absent_not_found i d :
  Sql.in_int4 i = true ->
  ~ In i (map Sql.job_id (Sql.jobs (store d))) ->
  not_found (Job.get (JNum i)) d
  /\ not_found (Job.remove (JNum i)) d
  /\ (forall data, data <> [] -> Job.valid_update data = true ->
                   not_found (Job.update (JNum i) data) d).
Proof.
  intros Hi Habs. unfold not_found. split; [|split].
  - destruct (job_get_absent i d Hi Habs) as [d' [H1 H2]]. eauto.
  - destruct (job_remove_absent i d Hi Habs) as [d' [H1 H2]]. eauto.
  - intros data Hne Hv.
    destruct (job_update_absent i data d Hi Hne Hv Habs) as [d' [H1 H2]]. eauto.
Qed.

(** C8, counterexample: on an identifier that does not exist, [update]
    with an empty payload fails with BadRequest, not NotFound (the helper
    rejects the payload before any statement is issued).  A payload that the
    store cannot bind (a value that is not of the column type, a field that
    is no column) and a job identifier beyond the range of the column are
    answered by the store's own error, not by NotFound either. *)
Lemma update_absent_empty_payload :
  ~ In 9999%Z (map Sql.job_id (Sql.jobs (store example_db)))
  /\ ~ In "nowhere" (Sql.handles (store example_db))
  /\ Job.update (JNum 9999) [] example_db =
     (Throw (BadRequestError "No data"), example_db)
  /\ Company.update (JStr "nowhere") [] example_db =
     (Throw (BadRequestError "No data"), example_db)
  /\ ~ not_found (Job.update (JNum 9999) []) example_db
  /\ ~ not_found (Company.update (JStr "nowhere") []) example_db
  /\ fst (Job.update (JNum 9999) [("salary", JStr "abc")] example_db) =
     Throw (StoreError TypeFailure)
  /\ fst (Job.update (JNum 9999) [("color", JStr "red")] example_db) =
     Throw (StoreError UndefinedName)
  /\ fst (Job.get (JNum 99999999999) example_db) =
     Throw (StoreError TypeFailure).
Proof.
  split; [|split; [|split; [|split; [|split; [|split; [|split; [|split]]]]]]].
  - simpl. intuition discriminate.
  - simpl. intuition discriminate.
  - reflexivity.
  - reflexivity.
  - intros [message [d' [H _]]]. discriminate H.
  - intros [message [d' [H _]]]. discriminate H.
  - vm_compute. reflexivity.
  - vm_compute. reflexivity.
  - vm_compute. reflexivity.
Qed.

(** C8, amended: for a company handle, and for a job identifier (a 32-bit
    integer), that is not in the store, because it never was or because the
    entity has just been removed, [get] and [remove] fail with NotFound, and
    so does [update] when it is given a non-empty valid payload; the store is
    left as it was, so that a second [remove] fails in the same way. *)
Theorem absent_entity_not_found (d : Db) (h : string) (i : Z) :
  (~ In h (Sql.handles (store d))
   \/ exists d0, Company.remove (JStr h) d0 = (Ok tt, d)) ->
  Sql.in_int4 i = true ->
  (~ In i (map Sql.job_id (Sql.jobs (store d)))
   \/ exists d0, Job.remove (JNum i) d0 = (Ok tt, d)) ->
  (not_found (Company.get (JStr h)) d
   /\ not_found (Company.remove (JStr h)) d
   /\ not_found (Company.remove (JStr h)) (snd (Company.remove (JStr h) d))
   /\ (forall data, data <> [] -> Company.valid_update data = true ->
                    not_found (Company.update (JStr h) data) d))
  /\ (not_found (Job.get (JNum i)) d
      /\ not_found (Job.remove (JNum i)) d
      /\ not_found (Job.remove (JNum i)) (snd (Job.remove (JNum i) d))
      /\ (forall data, data <> [] -> Job.valid_update data = true ->
                       not_found (Job.update (JNum i) data) d)).
Proof.
  intros Hc Hi Hj.
  assert (Hc' : ~ In h (Sql.handles (store d))).
  { destruct Hc as [Hc|[d0 Hc]]; [exact Hc|].
    now apply (company_remove_removes h d0 d). }
  assert (Hj' : ~ In i (map Sql.job_id (Sql.jobs (store d)))).
  { destruct Hj as [Hj|[d0 Hj]]; [exact Hj|].
    now apply (job_remove_removes i d0 d). }
  split.
  - destruct (company_absent_not_found h d Hc') as [Hg [Hr Hu]].
    repeat split; try assumption.
    destruct Hr as [message [d' [Hr Hs]]]. rewrite Hr. cbn [snd].
    apply company_absent_not_found. now rewrite Hs.
  - destruct (job_absent_not_found i d Hi Hj') as [Hg [Hr Hu]].
    repeat split; try assumption.
    destruct Hr as [message [d' [Hr Hs]]]. rewrite Hr. cbn [snd].
    apply job_absent_not_found; [exact Hi|]. now rewrite Hs.
Qed.

Lemma absent_entity_not_found_witness :
  (not_found (Company.get (JStr "nowhere")) example_db
   /\ not_found (Company.remove (JStr "nowhere")) example_db
   /\ not_found (Company.remove (JStr "nowhere"))
                (snd (Company.remove (JStr "nowhere") example_db))
   /\ (forall data, data <> [] -> Company.valid_update data = true ->
                    not_found (Company.update (JStr "nowhere") data) example_db))
  /\ (not_found (Job.get (JNum 9999)) example_db
      /\ not_found (Job.remove (JNum 9999)) example_db
      /\ not_found (Job.remove (JNum 9999))
                   (snd (Job.remove (JNum 9999) example_db))
      /\ (forall data, data <> [] -> Job.valid_update data = true ->
                       not_found (Job.update (JNum 9999) data) example_db)).
Proof.
  apply (absent_entity_not_found example_db "nowhere" 9999%Z).
  - left. simpl. intuition discriminate.
  - reflexivity.
  - left. simpl. intuition discriminate.
Defined.

(** ** create *)

Lemma parse_company_duplicate_check :
  Sql.parse Company.duplicate_check_sql =
  Some (Sql.Select [ {| Sql.si_column := "handle"; Sql.si_alias := "handle" |} ]
          "companies"
          (Some (Sql.ECmp Sql.OpEq (Sql.AColumn "handle") (Sql.AParam 1)))
          None).
Proof. vm_compute. reflexivity. Qed.

Lemma parse_company_insert :
  Sql.parse Company.insert_sql =
  Some (Sql.Insert "companies"
          ["handle"; "name"; "description"; "num_employees"; "logo_url"]
          [Sql.AParam 1; Sql.AParam 2; Sql.AParam 3; Sql.AParam 4; Sql.AParam 5]
          company_returning).
Proof. vm_compute. reflexivity. Qed.

Lemma query_company_duplicate_check h st :
  Sql.query Company.duplicate_check_sql [JStr h] st =
  (Sql.Done
     (map (Sql.project [ {| Sql.si_column := "handle"; Sql.si_alias := "handle" |} ])
          (filter (Sql.qualifies (company_key h)) (Sql.companies st))),
   st).
Proof.
  unfold Sql.query. rewrite parse_company_duplicate_check. reflexivity.
Qed.

Lemma present_company_rows h (rows : list Sql.CompanyRow) :
  In h (map Sql.co_handle rows) ->
  exists r rest, filter (Sql.qualifies (company_key h)) rows = r :: rest.
Proof.
  intros Hin. apply in_map_iff in Hin as [r [Hr Hin]].
  destruct (filter (Sql.qualifies (company_key h)) rows) as [|x l] eqn:E.
  - assert (Hf : In r (filter (Sql.qualifies (company_key h)) rows)).
    { apply filter_In. split; [exact Hin|]. rewrite company_key_qualifies.
      subst h. apply String.eqb_refl. }
    rewrite E in Hf. contradiction.
  - eauto.
Qed.

Lemma company_create_duplicate data d h :
  get data "handle" = JStr h ->
  In h (Sql.handles (store d)) ->
  exists d',
    Company.create data d =
    (Throw (BadRequestError ("Duplicate company: " +++ h)), d')
    /\ store d' = store d.
Proof.
  intros Hh Hin. unfold Company.create, bind, db_query. rewrite Hh.
  rewrite query_company_duplicate_check.
  destruct (present_company_rows h _ Hin) as [r [rest ->]].
  cbn. eexists. split; reflexivity.
Qed.

Lemma coerce_text v :
  Sql.coerce Sql.TyText v = Sql.Done (Sql.of_text v).
Proof. destruct v; reflexivity. Qed.

Lemma mem_false x l : ~ In x l -> Sql.mem x l = false.
Proof.
  intros Hn. destruct (Sql.mem x l) eqn:E; [|reflexivity].
  apply mem_In in E. contradiction.
Qed.

Lemma query_company_insert h n ds ne lg emp st :
  Sql.coerce Sql.TyInt (Sql.prepareValue ne) = Sql.Done (Sql.of_int emp) ->
  ~ In h (Sql.handles st) ->
  Sql.query Company.insert_sql [JStr h; JStr n; JStr ds; ne; lg] st =
  (Sql.Done
     [company_result {| Sql.co_handle := h; Sql.co_name := n;
                        Sql.co_description := ds;
                        Sql.co_num_employees := emp;
                        Sql.co_logo_url := Sql.prepareValue lg |}],
   Sql.with_companies st
     (Sql.companies st ++
        [{| Sql.co_handle := h; Sql.co_name := n; Sql.co_description := ds;
            Sql.co_num_employees := emp;
            Sql.co_logo_url := Sql.prepareValue lg |}])).
Proof.
  intros Hne Habs. unfold Sql.query. rewrite parse_company_insert.
  cbn [Sql.execute String.eqb Ascii.eqb Bool.eqb].
  unfold Sql.insert_company, Sql.bind_insert.
  cbn -[Sql.coerce Sql.mem]. rewrite Hne, (coerce_text (Sql.prepareValue lg)).
  cbn -[Sql.mem].
  destruct emp as [z|]; destruct (Sql.prepareValue lg) as [l|];
    cbn -[Sql.mem]; rewrite (mem_false _ _ Habs); reflexivity.
Qed.

Lemma company_create_fresh data d h n ds emp :
  get data "handle" = JStr h ->
  get data "name" = JStr n ->
  get data "description" = JStr ds ->
  Sql.coerce Sql.TyInt (Sql.prepareValue (get data "numEmployees"))
    = Sql.Done (Sql.of_int emp) ->
  ~ In h (Sql.handles (store d)) ->
  let row := {| Sql.co_handle := h; Sql.co_name := n; Sql.co_description := ds;
                Sql.co_num_employees := emp;
                Sql.co_logo_url := Sql.prepareValue (get data "logoUrl") |} in
  exists d',
    Company.create data d = (Ok (Some (company_result row)), d')
    /\ store d' = Sql.with_companies (store d) (Sql.companies (store d) ++ [row]).
Proof.
  intros Hh Hn Hds Hemp Habs row.
  unfold Company.create, bind, db_query. rewrite Hh, Hn, Hds.
  rewrite query_company_duplicate_check.
  rewrite (filter_none _ _ (absent_company_rows h _ Habs)).
  cbn [map first_row hd_error store].
  rewrite (query_company_insert h n ds _ _ emp _ Hemp Habs).
  cbn. eexists. split; reflexivity.
Qed.

Lemma parse_job_duplicate_check :
  Sql.parse Job.duplicate_check_sql =
  Some (Sql.Select
          [ {| Sql.si_column := "title"; Sql.si_alias := "title" |};
            {| Sql.si_column := "company_handle";
               Sql.si_alias := "company_handle" |} ]
          "jobs"
          (Some (Sql.EAnd
                   (Sql.ECmp Sql.OpEq (Sql.AColumn "title") (Sql.AParam 1))
                   (Sql.ECmp Sql.OpEq (Sql.AColumn "company_handle")
                             (Sql.AParam 2))))
          None).
Proof. vm_compute. reflexivity. Qed.

Lemma parse_job_insert :
  Sql.parse Job.insert_sql =
  Some (Sql.Insert "jobs"
          ["title"; "salary"; "equity"; "company_handle"]
          [Sql.AParam 1; Sql.AParam 2; Sql.AParam 3; Sql.AParam 4]
          [ {| Sql.si_column := "id"; Sql.si_alias := "id" |};
            {| Sql.si_column := "title"; Sql.si_alias := "title" |};
            {| Sql.si_column := "salary"; Sql.si_alias := "salary" |};
            {| Sql.si_column := "equity"; Sql.si_alias := "equity" |};
            {| Sql.si_column := "company_handle";
               Sql.si_alias := "company_handle" |} ]).
Proof. vm_compute. reflexivity. Qed.

Lemma query_job_duplicate_check t c st :
  Sql.query Job.duplicate_check_sql [JStr t; JStr c] st =
  (Sql.Done
     (map (Sql.project
             [ {| Sql.si_column := "title"; Sql.si_alias := "title" |};
               {| Sql.si_column := "company_handle";
                  Sql.si_alias := "company_handle" |} ])
          (filter (Sql.qualifies (job_pair t c)) (Sql.jobs st))),
   st).
Proof.
  unfold Sql.query. rewrite parse_job_duplicate_check. reflexivity.
Qed.

Lemma job_pair_qualifies t c (r : Sql.JobRow) :
  Sql.qualifies (job_pair t c) r =
  (String.eqb (Sql.job_title r) t && String.eqb (Sql.job_company_handle r) c)%bool.
Proof.
  unfold job_pair, Sql.qualifies. cbn.
  destruct (String.eqb_spec (Sql.job_title r) t) as [->|Ht];
    destruct (String.eqb_spec (Sql.job_company_handle r) c) as [->|Hc];
    rewrite ?string_compare_refl; cbn.
  - reflexivity.
  - destruct (String.compare (Sql.job_company_handle r) c) eqn:E; try reflexivity.
    apply String.compare_eq_iff in E. contradiction.
  - destruct (String.compare (Sql.job_title r) t) eqn:E; try reflexivity.
    apply String.compare_eq_iff in E. contradiction.
  - destruct (String.compare (Sql.job_title r) t) eqn:E;
      try (apply String.compare_eq_iff in E; contradiction);
      destruct (String.compare (Sql.job_company_handle r) c) eqn:E';
      try (apply String.compare_eq_iff in E'; contradiction); reflexivity.
Qed.

Lemma job_create_duplicate data d t c :
  get data "title" = JStr t ->
  get data "company_handle" = JStr c ->
  (exists r, In r (Sql.jobs (store d))
             /\ Sql.job_title r = t /\ Sql.job_company_handle r = c) ->
  exists d',
    Job.create data d =
    (Throw (BadRequestError ("Duplicate job: " +++ t +++ " at " +++ c)), d')
    /\ store d' = store d.
Proof.
  intros Ht Hc [r [Hin [Hrt Hrc]]].
  unfold Job.create, bind, db_query. rewrite Ht, Hc.
  rewrite query_job_duplicate_check.
  destruct (filter (Sql.qualifies (job_pair t c)) (Sql.jobs (store d)))
    as [|x l] eqn:E.
  - assert (Hf : In r (filter (Sql.qualifies (job_pair t c))
                              (Sql.jobs (store d)))).
    { apply filter_In. split; [exact Hin|]. rewrite job_pair_qualifies.
      subst. now rewrite !String.eqb_refl. }
    rewrite E in Hf. contradiction.
  - cbn. eexists. split; reflexivity.
Qed.

Lemma count_id_absent i l :
  ~ In i (map Sql.job_id l) -> Sql.count_id i l = 0.
Proof.
  intros Hn. unfold Sql.count_id. rewrite filter_none; [reflexivity|].
  intros r Hr. apply Z.eqb_neq. intros Heq. apply Hn. subst. now apply in_map.
Qed.

Lemma mem_true x l : In x l -> Sql.mem x l = true.
Proof. apply mem_In. Qed.

Lemma query_job_insert t sv ev c sal eq st :
  Sql.coerce Sql.TyInt (Sql.prepareValue sv) = Sql.Done (Sql.of_int sal) ->
  Sql.coerce Sql.TyNumeric (Sql.prepareValue ev) = Sql.Done (Sql.of_numeric eq) ->
  Sql.equity_in_range eq = true ->
  In c (Sql.handles st) ->
  ~ In (Sql.jobs_id_seq st + 1)%Z (map Sql.job_id (Sql.jobs st)) ->
  let row := {| Sql.job_id := Sql.jobs_id_seq st + 1; Sql.job_title := t;
                Sql.job_salary := sal; Sql.job_equity := eq;
                Sql.job_company_handle := c |} in
  Sql.query Job.insert_sql [JStr t; sv; ev; JStr c] st =
  (Sql.Done [job_result row],
   Sql.with_jobs (Sql.with_seq st (Sql.jobs_id_seq st + 1))
                 (Sql.jobs st ++ [row])).
Proof.
  intros Hsal Heq Hrange Hc Hfresh row.
  unfold Sql.query. rewrite parse_job_insert.
  cbn [Sql.execute String.eqb Ascii.eqb Bool.eqb].
  unfold Sql.insert_job, Sql.bind_insert.
  cbn -[Sql.coerce Sql.mem Sql.count_id Sql.equity_in_range Z.add].
  rewrite Hsal, Heq.
  cbn -[Sql.mem Sql.count_id Sql.equity_in_range Z.add].
  destruct sal as [z|]; destruct eq as [q|];
    cbn -[Sql.mem Sql.count_id Sql.equity_in_range Z.add];
    rewrite (count_id_absent _ _ Hfresh); fold (Sql.handles st);
    rewrite (mem_true _ _ Hc); cbn -[Sql.equity_in_range Z.add];
    rewrite ?Hrange; reflexivity.
Qed.

Lemma job_create_fresh data d t c sal eq :
  get data "title" = JStr t ->
  get data "company_handle" = JStr c ->
  Sql.coerce Sql.TyInt (Sql.prepareValue (get data "salary"))
    = Sql.Done (Sql.of_int sal) ->
  Sql.coerce Sql.TyNumeric (Sql.prepareValue (get data "equity"))
    = Sql.Done (Sql.of_numeric eq) ->
  Sql.equity_in_range eq = true ->
  In c (Sql.handles (store d)) ->
  (forall r, In r (Sql.jobs (store d)) ->
             ~ (Sql.job_title r = t /\ Sql.job_company_handle r = c)) ->
  ~ In (Sql.jobs_id_seq (store d) + 1)%Z (map Sql.job_id (Sql.jobs (store d))) ->
  let row := {| Sql.job_id := Sql.jobs_id_seq (store d) + 1; Sql.job_title := t;
                Sql.job_salary := sal; Sql.job_equity := eq;
                Sql.job_company_handle := c |} in
  exists d',
    Job.create data d = (Ok (Some (job_result row)), d')
    /\ store d' = Sql.with_jobs
                    (Sql.with_seq (store d) (Sql.jobs_id_seq (store d) + 1))
                    (Sql.jobs (store d) ++ [row]).
Proof.
  intros Ht Hc Hsal Heq Hrange Hfk Hnew Hfresh row.
  unfold Job.create, bind, db_query. rewrite Ht, Hc.
  rewrite query_job_duplicate_check.
  rewrite filter_none.
  - cbn [map first_row hd_error store].
    rewrite (query_job_insert t _ _ c sal eq _ Hsal Heq Hrange Hfk Hfresh).
    cbn. eexists. split; reflexivity.
  - intros r Hr. rewrite job_pair_qualifies.
    destruct (String.eqb_spec (Sql.job_title r) t) as [Et|]; [|reflexivity].
    destruct (String.eqb_spec (Sql.job_company_handle r) c) as [Ec|]; [|reflexivity].
    exfalso. apply (Hnew r Hr). now split.
Qed.

(** C9: a first [create] with a new key and values the store accepts
    returns the row as stored (for a job, with the identifier drawn from the
    sequence), and the row is in the table afterwards; as long as that row
    is there, in particular right after the first call, a [create] with the
    same key (the handle of a company; the title and company handle of a
    job) throws BadRequest and leaves the store alone. *)
Theorem duplicate_create_rejected :
  (forall (d : Db) (data : JsObj) h n ds emp,
      get data "handle" = JStr h ->
      get data "name" = JStr n ->
      get data "description" = JStr ds ->
      Sql.coerce Sql.TyInt (Sql.prepareValue (get data "numEmployees"))
        = Sql.Done (Sql.of_int emp) ->
      ~ In h (Sql.handles (store d)) ->
      exists row d1,
        Company.create data d = (Ok (Some (company_result row)), d1)
        /\ row = {| Sql.co_handle := h; Sql.co_name := n;
                    Sql.co_description := ds; Sql.co_num_employees := emp;
                    Sql.co_logo_url := Sql.prepareValue (get data "logoUrl") |}
        /\ In row (Sql.companies (store d1))
        /\ forall d2 data',
            In row (Sql.companies (store d2)) ->
            get data' "handle" = JStr h ->
            exists message d3,
              Company.create data' d2 = (Throw (BadRequestError message), d3)
              /\ store d3 = store d2)
  /\ (forall (d : Db) (data : JsObj) t c sal eq,
        get data "title" = JStr t ->
        get data "company_handle" = JStr c ->
        Sql.coerce Sql.TyInt (Sql.prepareValue (get data "salary"))
          = Sql.Done (Sql.of_int sal) ->
        Sql.coerce Sql.TyNumeric (Sql.prepareValue (get data "equity"))
          = Sql.Done (Sql.of_numeric eq) ->
        Sql.equity_in_range eq = true ->
        In c (Sql.handles (store d)) ->
        (forall r, In r (Sql.jobs (store d)) ->
                   ~ (Sql.job_title r = t /\ Sql.job_company_handle r = c)) ->
        ~ In (Sql.jobs_id_seq (store d) + 1)%Z
             (map Sql.job_id (Sql.jobs (store d))) ->
        exists row d1,
          Job.create data d = (Ok (Some (job_result row)), d1)
          /\ row = {| Sql.job_id := Sql.jobs_id_seq (store d) + 1;
                      Sql.job_title := t; Sql.job_salary := sal;
                      Sql.job_equity := eq; Sql.job_company_handle := c |}
          /\ In row (Sql.jobs (store d1))
          /\ forall d2 data',
              In row (Sql.jobs (store d2)) ->
              get data' "title" = JStr t ->
              get data' "company_handle" = JStr c ->
              exists message d3,
                Job.create data' d2 = (Throw (BadRequestError message), d3)
                /\ store d3 = store d2).
Proof.
  split.
  - intros d data h n ds emp Hh Hn Hds Hemp Habs.
    destruct (company_create_fresh data d h n ds emp Hh Hn Hds Hemp Habs)
      as [d1 [Hc Hs]].
    eexists. exists d1. split; [exact Hc|]. split; [reflexivity|]. split.
    + rewrite Hs. cbn. apply in_or_app. right. now left.
    + intros d2 data' Hin Hh'.
      destruct (company_create_duplicate data' d2 h Hh') as [d3 [Hdup Hs3]].
      * unfold Sql.handles. apply in_map_iff. eexists. split; [|exact Hin].
        reflexivity.
      * eauto.
  - intros d data t c sal eq Ht Hc Hsal Heq Hrange Hfk Hnew Hfresh.
    destruct (job_create_fresh data d t c sal eq Ht Hc Hsal Heq Hrange Hfk
                Hnew Hfresh) as [d1 [Hcr Hs]].
    eexists. exists d1. split; [exact Hcr|]. split; [reflexivity|]. split.
    + rewrite Hs. cbn. apply in_or_app. right. now left.
    + intros d2 data' Hin Ht' Hc'.
      destruct (job_create_duplicate data' d2 t c Ht' Hc') as [d3 [Hdup Hs3]].
      * eexists. split; [exact Hin|]. split; reflexivity.
      * eauto.
Qed.

Lemma duplicate_create_rejected_witness :
  (exists row d1,
      Company.create zinc_data example_db = (Ok (Some (company_result row)), d1)
      /\ row = {| Sql.co_handle := "zinc"; Sql.co_name := "Zinc";
                  Sql.co_description := "Metal";
                  Sql.co_num_employees := Some 7%Z;
                  Sql.co_logo_url := Sql.prepareValue (get zinc_data "logoUrl") |}
      /\ In row (Sql.companies (store d1))
      /\ forall d2 data',
          In row (Sql.companies (store d2)) ->
          get data' "handle" = JStr "zinc" ->
          exists message d3,
            Company.create data' d2 = (Throw (BadRequestError message), d3)
            /\ store d3 = store d2)
  /\ (exists row d1,
        Job.create welder_data example_db = (Ok (Some (job_result row)), d1)
        /\ row = {| Sql.job_id := Sql.jobs_id_seq (store example_db) + 1;
                    Sql.job_title := "welder"; Sql.job_salary := Some 100%Z;
                    Sql.job_equity := Some {| Sql.mant := 5; Sql.scale := 1 |};
                    Sql.job_company_handle := "acme" |}
        /\ In row (Sql.jobs (store d1))
        /\ forall d2 data',
            In row (Sql.jobs (store d2)) ->
            get data' "title" = JStr "welder" ->
            get data' "company_handle" = JStr "acme" ->
            exists message d3,
              Job.create data' d2 = (Throw (BadRequestError message), d3)
              /\ store d3 = store d2).
Proof.
  split.
  - apply (proj1 duplicate_create_rejected example_db zinc_data
                 "zinc" "Zinc" "Metal" (Some 7%Z));
      try reflexivity.
    simpl. intuition discriminate.
  - apply (proj2 duplicate_create_rejected example_db welder_data
                 "welder" "acme" (Some 100%Z)
                 (Some {| Sql.mant := 5; Sql.scale := 1 |}));
      try reflexivity.
    + simpl. left. reflexivity.
    + intros r Hr [Ht Hc]. simpl in Hr.
      destruct Hr as [<-|[<-|[<-|[<-|[]]]]]; discriminate Ht.
    + simpl. intuition discriminate.
Defined.

(** ** The rows that the Job manager returns *)

Lemma parse_job_get :
  Sql.parse Job.get_sql =
  Some (Sql.Select job_returning "jobs"
          (Some (Sql.ECmp Sql.OpEq (Sql.AColumn "id") (Sql.AParam 1))) None).
Proof. vm_compute. reflexivity. Qed.

Lemma query_job_get i st :
  Sql.in_int4 i = true ->
  Sql.query Job.get_sql [JNum i] st =
  (Sql.Done (map job_result_without_id
               (filter (Sql.qualifies (job_key i)) (Sql.jobs st))), st).
Proof.
  intros Hi. unfold Sql.query. rewrite parse_job_get.
  cbn [Sql.execute String.eqb Ascii.eqb Bool.eqb map Sql.prepareValue to_string].
  unfold Sql.run_select.
  rewrite (bind_where_job_key [Some (show_Z i)] 0 i Hi eq_refl).
  reflexivity.
Qed.

Lemma present_job_rows i (rows : list Sql.JobRow) :
  In i (map Sql.job_id rows) ->
  exists r rest,
    filter (Sql.qualifies (job_key i)) rows = r :: rest
    /\ In r rows /\ Sql.job_id r = i.
Proof.
  intros Hin. apply in_map_iff in Hin as [r [Hr Hin]].
  destruct (filter (Sql.qualifies (job_key i)) rows) as [|x l] eqn:E.
  - assert (Hf : In r (filter (Sql.qualifies (job_key i)) rows)).
    { apply filter_In. split; [exact Hin|]. rewrite job_key_qualifies.
      subst i. apply Z.eqb_refl. }
    rewrite E in Hf. contradiction.
  - exists x, l. split; [reflexivity|].
    assert (Hx : In x (filter (Sql.qualifies (job_key i)) rows))
      by (rewrite E; now left).
    apply filter_In in Hx as [Hx Hq]. rewrite job_key_qualifies in Hq.
    apply Z.eqb_eq in Hq. now split.
Qed.

Lemma job_get_present i d :
  Sql.in_int4 i = true ->
  In i (map Sql.job_id (Sql.jobs (store d))) ->
  exists r d',
    Job.get (JNum i) d = (Ok (job_result_without_id r), d')
    /\ In r (Sql.jobs (store d)) /\ Sql.job_id r = i /\ store d' = store d.
Proof.
  intros Hi Hin. unfold Job.get, bind, db_query.
  rewrite (query_job_get i _ Hi).
  destruct (present_job_rows i _ Hin) as [r [rest [-> [Hr Hid]]]].
  cbn. exists r. eexists. repeat split; assumption.
Qed.

Lemma job_assign_id c v r r' :
  c <> "id" ->
  Sql.job_assign c v r = Some r' ->
  Sql.job_id r' = Sql.job_id r.
Proof.
  intros Hc. unfold Sql.job_assign.
  destruct (String.eqb_spec c "id") as [->|_]; [congruence|].
  repeat match goal with
         | |- (if ?b then _ else _) = _ -> _ => destruct b
         end;
    try discriminate;
    match goal with
    | |- option_map _ ?o = _ -> _ => destruct o; simpl; [|discriminate]
    end; intros [= <-]; reflexivity.
Qed.

Lemma apply_assignments_id (a : list (string * Sql.Scalar)) old r r' :
  ~ In "id" (map fst a) ->
  Sql.apply_assignments a old r = Some r' ->
  Sql.job_id r' = Sql.job_id r.
Proof.
  revert r. induction a as [|[c s] a IH]; intros r Hn; simpl.
  - now intros [= <-].
  - destruct (Sql.job_assign c (Sql.scalar_value s old) r) as [r1|] eqn:E;
      [|discriminate].
    intros Hr'. rewrite (IH r1).
    + apply (job_assign_id c _ _ _ ltac:(intros ->; apply Hn; now left) E).
    + intros Hin. apply Hn. now right.
    + exact Hr'.
Qed.

(** The rows rewritten by an UPDATE: each comes from a row that qualified,
    each is in the new table, and there is one as soon as a row qualifies. *)
Lemma update_rows_changed {R} `{Sql.Table R} w a (rows table changed : list R) :
  Sql.update_rows w a rows = Some (table, changed) ->
  Forall (fun r' => exists r, In r rows /\ Sql.qualifies w r = true
                              /\ Sql.apply_assignments a r r = Some r') changed
  /\ incl changed table
  /\ ((exists r, In r rows /\ Sql.qualifies w r = true) -> changed <> []).
Proof.
  revert table changed. induction rows as [|r rows IH]; intros table changed.
  - simpl. intros [= <- <-]. split; [constructor|]. split; [apply incl_refl|].
    intros [r [[] _]].
  - simpl. destruct (Sql.update_rows w a rows) as [[t c]|]; [|discriminate].
    destruct (IH t c eq_refl) as [Hall [Hincl Hne]].
    destruct (Sql.qualifies w r) eqn:Hq.
    + destruct (Sql.apply_assignments a r r) as [r'|] eqn:E; [|discriminate].
      intros [= <- <-]. split; [|split].
      * constructor.
        -- exists r. repeat split; auto.
        -- eapply Forall_impl; [|exact Hall].
           intros x [y [Hy [Hqy Hay]]]. exists y. repeat split; auto.
      * intros x [<-|Hx]; [now left|right; now apply Hincl].
      * discriminate.
    + intros [= <- <-]. split; [|split].
      * eapply Forall_impl; [|exact Hall].
        intros x [y [Hy [Hqy Hay]]]. exists y. repeat split; auto.
      * intros x Hx. right. now apply Hincl.
      * intros [y [[<-|Hy] Hqy]]; [congruence|]. apply Hne. eauto.
Qed.

Lemma job_columns_not_id keys :
  Forall (fun k => In k Job.updatable) keys ->
  ~ In "id" (map (column_name Job.jsToSql) keys).
Proof.
  intros Hall Hin. apply in_map_iff in Hin as [k [Hk Hin]].
  rewrite Forall_forall in Hall. specialize (Hall k Hin). simpl in Hall.
  destruct Hall as [<-|[<-|[<-|[]]]]; vm_compute in Hk; discriminate Hk.
Qed.

(** What [Job.update] sends, for a payload with documented fields. *)
Lemma job_update_query id data d :
  data <> [] ->
  Forall (fun k => In k Job.updatable) (Object_keys data) ->
  Job.update id data d =
  (let '(o, st) :=
     Sql.update_job (map Sql.prepareValue (Object_values data ++ [id]))
       (assignments (map (column_name Job.jsToSql) (Object_keys data)) 0)
       (Some (Sql.ECmp Sql.OpEq (Sql.AColumn "id")
                (Sql.AParam (S (length (Object_values data))))))
       job_returning (store d) in
   let d' := {| store := st;
                log := log d ++
                  [(Job.update_sql
                      (String.concat ", "
                         (map_with_index (column_assignment Job.jsToSql) 0
                            (Object_keys data)))
                      ("$" +++ show_Z (Z.of_nat (length (Object_values data)) + 1)),
                    Object_values data ++ [id])] |} in
   match o with
   | Sql.Done rows =>
       match first_row rows with
       | None => (Throw (NotFoundError ("No company: " +++ to_string id)), d')
       | Some job => (Ok job, d')
       end
   | Sql.Failed f => (Throw (StoreError f), d')
   end).
Proof.
  intros Hne Hdom. unfold Job.update.
  rewrite sqlForPartialUpdate_nonempty by exact Hne.
  unfold bind, lift, ret, db_query, Sql.query. cbn [setCols values].
  rewrite parse_job_update by (exact Hdom || (destruct data; [congruence|discriminate])).
  cbn [Sql.execute String.eqb Ascii.eqb Bool.eqb].
  destruct (Sql.update_job _ _ _ _ _) as [[rows|f] st]; [|reflexivity].
  destruct (first_row rows); reflexivity.
Qed.

Lemma update_job_rows params asg w st rows st' :
  Sql.update_job params asg w job_returning st = (Sql.Done rows, st') ->
  exists changed,
    rows = map job_result_without_id changed /\ incl changed (Sql.jobs st').
Proof.
  unfold Sql.update_job.
  destruct (Sql.bind_assignments params asg) as [a|]; [|discriminate].
  cbn [Sql.and_then].
  destruct (Sql.bind_where params w) as [c|]; [|discriminate].
  cbn [Sql.and_then Sql.bind_items Sql.traverse job_returning Sql.bind_item
       Sql.si_column Sql.column_type Sql.assoc Sql.columns Sql.job_table
       String.eqb Ascii.eqb Bool.eqb].
  destruct (Sql.update_rows c a (Sql.jobs st)) as [[table changed]|] eqn:E;
    [|discriminate].
  destruct (forallb _ changed); [|discriminate].
  cbn [Sql.require Sql.and_then]. intros [= <- <-].
  exists changed. split; [reflexivity|].
  cbn. now apply (update_rows_changed c a _ _ _ E).
Qed.

Lemma job_update_row id data d row d' :
  Forall (fun k => In k Job.updatable) (Object_keys data) ->
  Job.update id data d = (Ok row, d') ->
  exists r, row = job_result_without_id r /\ In r (Sql.jobs (store d')).
Proof.
  intros Hdom. destruct data as [|kv data]; [discriminate|].
  rewrite job_update_query by (exact Hdom || discriminate).
  destruct (Sql.update_job _ _ _ _ _) as [[rows|f] st] eqn:E; [|discriminate].
  destruct (update_job_rows _ _ _ _ _ _ E) as [changed [-> Hincl]].
  destruct changed as [|r changed]; cbn; [discriminate|].
  intros [= <- <-]. exists r. split; [reflexivity|]. cbn. apply Hincl. now left.
Qed.

Lemma job_update_present i data d :
  Sql.in_int4 i = true ->
  data <> [] ->
  Job.valid_update data = true ->
  In i (map Sql.job_id (Sql.jobs (store d))) ->
  (exists r d',
      Job.update (JNum i) data d = (Ok (job_result_without_id r), d')
      /\ In r (Sql.jobs (store d')) /\ Sql.job_id r = i)
  \/ (exists d',
        Job.update (JNum i) data d = (Throw (StoreError ConstraintViolation), d')
        /\ store d' = store d).
Proof.
  intros Hi Hne Hv Hin.
  destruct (job_valid_update data Hv) as [Hdom [Hd Hok]].
  rewrite job_update_query by assumption.
  unfold Sql.update_job.
  destruct (bind_assignments_valid (R := Sql.JobRow) Job.jsToSql
              (map Sql.prepareValue (Object_values data ++ [JNum i]))
              data [JNum i] eq_refl Hd Hok) as [a [Ha Hnames]].
  rewrite Ha, (bind_where_job_key _ _ i Hi (nth_error_last_param _ (JNum i))).
  cbn [Sql.and_then Sql.bind_items Sql.traverse job_returning Sql.bind_item
       Sql.si_column Sql.column_type Sql.assoc Sql.columns Sql.job_table
       String.eqb Ascii.eqb Bool.eqb].
  destruct (Sql.update_rows (job_key i) a (Sql.jobs (store d)))
    as [[table changed]|] eqn:E.
  - destruct (forallb _ changed); cbn [Sql.require Sql.and_then].
    + left. destruct (update_rows_changed _ _ _ _ _ E) as [Hall [Hincl Hnonempty]].
      destruct changed as [|r' changed].
      * exfalso. apply Hnonempty; [|reflexivity].
        destruct (present_job_rows i _ Hin) as [r [rest [Hf [Hr Hid]]]].
        exists r. split; [exact Hr|]. rewrite job_key_qualifies.
        subst i. apply Z.eqb_refl.
      * cbn. exists r'. eexists. split; [reflexivity|]. split.
        -- cbn. apply Hincl. now left.
        -- inversion Hall as [|? ? [r [Hr [Hq Happ]]] _]; subst.
           rewrite job_key_qualifies in Hq. apply Z.eqb_eq in Hq.
           rewrite <- Hq. apply (apply_assignments_id a r r r'); [|exact Happ].
           rewrite Hnames. now apply job_columns_not_id.
    + right. cbn. eexists. split; reflexivity.
  - right. cbn. eexists. split; reflexivity.
Qed.

Lemma run_select_job_items params w o (rows : list Sql.JobRow) out :
  Sql.run_select params job_items w o rows = Sql.Done out ->
  exists rs, out = map job_result rs /\ incl rs rows.
Proof.
  unfold Sql.run_select.
  cbn [Sql.and_then Sql.bind_items Sql.traverse job_items Sql.bind_item
       Sql.si_column Sql.column_type Sql.assoc Sql.columns Sql.job_table
       String.eqb Ascii.eqb Bool.eqb].
  destruct (Sql.bind_where params w) as [c|]; [|discriminate].
  cbn [Sql.and_then].
  destruct (Sql.bind_order o) as [o'|]; [|discriminate].
  cbn [Sql.and_then]. intros [= <-].
  exists (Sql.ordered o' (filter (Sql.qualifies c) rows)).
  split; [reflexivity|].
  intros r Hr. destruct o' as [col|]; cbn [Sql.ordered] in Hr.
  - apply (Permutation_in _ (order_rows_perm col _)) in Hr.
    now apply filter_In in Hr.
  - now apply filter_In in Hr.
Qed.

Lemma job_findAll_rows d :
  exists rs,
    fst (Job.findAll d) = Ok (map job_result rs)
    /\ Permutation rs (Sql.jobs (store d)).
Proof.
  unfold Job.findAll. rewrite db_query_result. cbn.
  exists (Sql.order_rows "salary" (filter (Sql.qualifies None) (Sql.jobs (store d)))).
  split; [reflexivity|].
  rewrite order_rows_perm. unfold Sql.qualifies. now rewrite filter_all.
Qed.

Lemma filter_loop_text filters keys counter sql :
  exists tail, Job.filter_loop filters keys counter sql = sql +++ tail.
Proof.
  revert counter sql. induction keys as [|k keys IH]; intros counter sql.
  - exists EmptyString. cbn. now rewrite append_nil_r.
  - cbn [Job.filter_loop].
    match goal with
    | |- exists tail, Job.filter_loop _ _ _ ?s = _ =>
        destruct (IH (S counter) s) as [tail ->]
    end.
    repeat match goal with
           | |- context [if ?b then _ else _] => destruct b
           end;
      rewrite ?append_assoc; eexists; reflexivity.
Qed.

Lemma job_filter_text filters :
  Job.filter_statement filters = Job.filter_base
  \/ exists rest, Job.filter_statement filters = Job.filter_base +++ " " +++ rest.
Proof.
  unfold Job.filter_statement.
  destruct (Nat.ltb 1 (length (Object_keys filters))).
  - right.
    match goal with
    | |- exists rest, Job.filter_loop _ _ _ ?s = _ =>
        destruct (filter_loop_text filters (Object_keys filters) 0 s) as [tail ->]
    end.
    repeat match goal with
           | |- context [if ?b then _ else _] => destruct b
           end;
      rewrite ?append_assoc; eexists; reflexivity.
  - repeat match goal with
           | |- context [if ?b then _ else _] => destruct b
           end;
      try (left; reflexivity);
      right; rewrite ?append_assoc; eexists; reflexivity.
Qed.

Lemma job_filter_parse filters :
  Sql.parse (Job.filter_statement filters) = None
  \/ exists w o,
      Sql.parse (Job.filter_statement filters) =
      Some (Sql.Select job_items "jobs" w o).
Proof.
  destruct (job_filter_text filters) as [->|[rest ->]].
  - right. exists None, None. vm_compute. reflexivity.
  - unfold Sql.parse, Sql.lex. rewrite lex_from_run, lex_run_app.
    replace (Sql.lex_run Sql.LStart Job.filter_base) with
      (Some ([Sql.TKw Sql.KSelect; Sql.TId "id"; Sql.TComma; Sql.TId "title";
              Sql.TComma; Sql.TId "salary"; Sql.TComma; Sql.TId "equity";
              Sql.TComma; Sql.TId "company_handle"; Sql.TKw Sql.KFrom],
             Sql.LWord "jobs")) by (vm_compute; reflexivity).
    change (Sql.lex_run (Sql.LWord "jobs") (" " +++ rest)) with
      (match Sql.lex_run Sql.LStart rest with
       | None => None
       | Some (ts, st) => Some (Sql.TId "jobs" :: ts, st)
       end).
    destruct (Sql.lex_run Sql.LStart rest) as [[ts st]|]; [|now left].
    destruct (Sql.lex_end st) as [te|]; [|now left].
    cbn [app Sql.parse_stmt Sql.parse_items Sql.parse_list Sql.parse_sel_item
         Sql.parse_name length].
    destruct (Sql.parse_where (ts ++ te)) as [[w r2]|]; [|now left].
    destruct (Sql.parse_order_by r2) as [o|]; [|now left].
    right. exists w, o. reflexivity.
Qed.

Lemma job_filter_rows filters d rows :
  fst (Job.filter filters d) = Ok rows ->
  exists rs, rows = map job_result rs /\ incl rs (Sql.jobs (store d)).
Proof.
  unfold Job.filter. rewrite db_query_result. unfold Sql.query.
  destruct (job_filter_parse filters) as [->|[w [o ->]]]; [discriminate|].
  cbn [Sql.execute String.eqb Ascii.eqb Bool.eqb fst].
  destruct (Sql.run_select _ job_items w o _) as [out|f] eqn:E; [|discriminate].
  intros [= <-]. eapply run_select_job_items. exact E.
Qed.

Lemma insert_job_rows params cols vals st rows st' :
  Sql.insert_job params cols vals job_items st = (Sql.Done rows, st') ->
  exists r, rows = [job_result r].
Proof.
  unfold Sql.insert_job.
  destruct (Sql.bind_insert params cols vals) as [vs|]; [|discriminate].
  cbn [Sql.and_then Sql.bind_items Sql.traverse job_items Sql.bind_item
       Sql.si_column Sql.column_type Sql.assoc Sql.columns Sql.job_table
       String.eqb Ascii.eqb Bool.eqb].
  destruct (Sql.assoc vs "id") as [v|].
  - destruct (Sql.new_job v vs) as [r|]; [|discriminate].
    destruct (_ && _ && _)%bool; [|discriminate].
    intros [= <- <-]. now exists r.
  - destruct (Sql.new_job _ vs) as [r|]; [|discriminate].
    destruct (_ && _ && _)%bool; [|discriminate].
    intros [= <- <-]. now exists r.
Qed.

Lemma job_create_row data d row d' :
  Job.create data d = (Ok (Some row), d') ->
  exists r, row = job_result r.
Proof.
  unfold Job.create, bind.
  destruct (db_query Job.duplicate_check_sql _ d) as [[dup|e] d1];
    [|discriminate].
  destruct (first_row dup); [discriminate|].
  unfold db_query, Sql.query. rewrite parse_job_insert.
  cbn [Sql.execute String.eqb Ascii.eqb Bool.eqb].
  fold job_items.
  destruct (Sql.insert_job _ _ _ job_items (store d1)) as [[rows|f] st] eqn:E;
    [|discriminate].
  destruct (insert_job_rows _ _ _ _ _ _ E) as [r ->].
  cbn. intros [= <- <-]. now exists r.
Qed.

(** C10: for a job of the store, [Job.get] returns the row without its
    identifier; [Job.update] with a non-empty valid payload returns the
    rewritten row without its identifier, unless the store refuses the new
    values; any row that [Job.update] returns has the four fields only.  The
    rows of [create], [findAll] and [filter] carry the identifier. *)
Theorem job_get_update_without_id :
  (forall r,
      own_property (job_result_without_id r) "id" = None
      /\ Object_keys (job_result_without_id r) =
         ["title"; "salary"; "equity"; "company_handle"]
      /\ own_property (job_result r) "id" = Some (JNum (Sql.job_id r)))
  /\ (forall d i,
        Sql.in_int4 i = true ->
        In i (map Sql.job_id (Sql.jobs (store d))) ->
        exists r d',
          Job.get (JNum i) d = (Ok (job_result_without_id r), d')
          /\ In r (Sql.jobs (store d)) /\ Sql.job_id r = i /\ store d' = store d)
  /\ (forall d i data,
        Sql.in_int4 i = true ->
        data <> [] ->
        Job.valid_update data = true ->
        In i (map Sql.job_id (Sql.jobs (store d))) ->
        (exists r d',
            Job.update (JNum i) data d = (Ok (job_result_without_id r), d')
            /\ In r (Sql.jobs (store d')) /\ Sql.job_id r = i)
        \/ (exists d',
              Job.update (JNum i) data d =
              (Throw (StoreError ConstraintViolation), d')
              /\ store d' = store d))
  /\ (forall id data d row d',
        Forall (fun k => In k Job.updatable) (Object_keys data) ->
        Job.update id data d = (Ok row, d') ->
        exists r, row = job_result_without_id r /\ In r (Sql.jobs (store d')))
  /\ (forall data d row d',
        Job.create data d = (Ok (Some row), d') ->
        exists r, row = job_result r)
  /\ (forall d, exists rs,
        fst (Job.findAll d) = Ok (map job_result rs)
        /\ Permutation rs (Sql.jobs (store d)))
  /\ (forall filters d rows,
        fst (Job.filter filters d) = Ok rows ->
        exists rs, rows = map job_result rs /\ incl rs (Sql.jobs (store d))).
Proof.
  split; [|split; [|split; [|split; [|split; [|split]]]]].
  - intros r. repeat split.
  - intros d i. apply job_get_present.
  - intros d i data. apply job_update_present.
  - apply job_update_row.
  - apply job_create_row.
  - apply job_findAll_rows.
  - apply job_filter_rows.
Qed.

Lemma job_get_update_without_id_witness :
  (exists r d',
      Job.get (JNum 2) example_db = (Ok (job_result_without_id r), d')
      /\ In r (Sql.jobs (store example_db)) /\ Sql.job_id r = 2%Z
      /\ store d' = store example_db)
  /\ ((exists r d',
          Job.update (JNum 2) [("title", JStr "New"); ("salary", JNull)]
                     example_db = (Ok (job_result_without_id r), d')
          /\ In r (Sql.jobs (store d')) /\ Sql.job_id r = 2%Z)
      \/ (exists d',
            Job.update (JNum 2) [("title", JStr "New"); ("salary", JNull)]
                       example_db = (Throw (StoreError ConstraintViolation), d')
            /\ store d' = store example_db))
  /\ (exists r,
        [ ("title", JStr "New"); ("salary", JNull); ("equity", JNull);
          ("company_handle", JStr "acme") ] = job_result_without_id r
        /\ In r (Sql.jobs
                   (store (snd (Job.update (JNum 2)
                                  [("title", JStr "New"); ("salary", JNull)]
                                  example_db)))))
  /\ (exists r,
        [ ("id", JNum 5); ("title", JStr "welder"); ("salary", JNum 100);
          ("equity", JStr "0.5"); ("company_handle", JStr "acme") ]
        = job_result r)
  /\ (exists rs,
        [job1_row; cook_row] = map job_result rs
        /\ incl rs (Sql.jobs (store example_db))).
Proof.
  split; [|split; [|split; [|split]]].
  - apply (proj1 (proj2 job_get_update_without_id) example_db 2%Z).
    + reflexivity.
    + simpl. right. left. reflexivity.
  - apply (proj1 (proj2 (proj2 job_get_update_without_id)) example_db 2%Z).
    + reflexivity.
    + discriminate.
    + reflexivity.
    + simpl. right. left. reflexivity.
  - apply (proj1 (proj2 (proj2 (proj2 job_get_update_without_id)))
             (JNum 2) [("title", JStr "New"); ("salary", JNull)] example_db).
    + constructor; [left; reflexivity|].
      constructor; [right; left; reflexivity|constructor].
    + vm_compute. reflexivity.
  - apply (proj1 (proj2 (proj2 (proj2 (proj2 job_get_update_without_id))))
             welder_data example_db _
             (snd (Job.create welder_data example_db))).
    vm_compute. reflexivity.
  - apply (proj2 (proj2 (proj2 (proj2 (proj2 (proj2 job_get_update_without_id)))))
             [("minSalary", JStr "60")] example_db).
    vm_compute. reflexivity.
Defined.

(** The two operations on the example database. *)
Example job_get_example :
  fst (Job.get (JNum 2) example_db) =
  Ok [ ("title", JStr "job2"); ("salary", JNum 50); ("equity", JNull);
       ("company_handle", JStr "acme") ].
Proof. vm_compute. reflexivity. Qed.

Example job_update_example :
  fst (Job.update (JNum 2) [("title", JStr "New"); ("salary", JNull)] example_db) =
  Ok [ ("title", JStr "New"); ("salary", JNull); ("equity", JNull);
       ("company_handle", JStr "acme") ].
Proof. vm_compute. reflexivity. Qed.

(* ===================================================================== *)
(** * Further properties of the managers                                  *)
(* ===================================================================== *)

(** ** Lookup of a company that is there *)

Lemma parse_company_get :
  Sql.parse Company.get_sql =
  Some (Sql.Select company_returning "companies"
          (Some (Sql.ECmp Sql.OpEq (Sql.AColumn "handle") (Sql.AParam 1)))
          None).
Proof. vm_compute. reflexivity. Qed.

Lemma query_company_get h st :
  Sql.query Company.get_sql [JStr h] st =
  (Sql.Done (map company_result
               (filter (Sql.qualifies (company_key h)) (Sql.companies st))), st).
Proof. unfold Sql.query. rewrite parse_company_get. reflexivity. Qed.

Lemma company_key_filter_In h rows r :
  In r (filter (Sql.qualifies (company_key h)) rows) <->
  In r rows /\ Sql.co_handle r = h.
Proof.
  rewrite filter_In, company_key_qualifies, String.eqb_eq. reflexivity.
Qed.

(** [Company.get] on a handle of the store answers with the first company
    of that handle, all five fields, and leaves the store as it was. *)
Theorem company_get_present (d : Db) (h : string) :
  In h (Sql.handles (store d)) ->
  exists r d',
    Company.get (JStr h) d = (Ok (company_result r), d')
    /\ In r (Sql.companies (store d)) /\ Sql.co_handle r = h
    /\ store d' = store d
    /\ log d' = log d ++ [(Company.get_sql, [JStr h])].
Proof.
  intros Hin. unfold Company.get, bind, db_query.
  rewrite query_company_get.
  destruct (present_company_rows h _ Hin) as [r [rest E]].
  assert (Hr : In r (filter (Sql.qualifies (company_key h))
                            (Sql.companies (store d))))
    by (rewrite E; now left).
  apply company_key_filter_In in Hr as [Hr Hh].
  rewrite E. cbn. exists r. eexists. repeat split; assumption.
Qed.

Lemma company_get_present_witness :
  exists r d',
    Company.get (JStr "bolt") example_db = (Ok (company_result r), d')
    /\ In r (Sql.companies (store example_db)) /\ Sql.co_handle r = "bolt"
    /\ store d' = store example_db
    /\ log d' = log example_db ++ [(Company.get_sql, [JStr "bolt"])].
Proof.
  apply (company_get_present example_db "bolt").
  simpl. right. left. reflexivity.
Defined.

(** ** create, then get *)

(** A company just created is what [Company.get] returns for its handle:
    the object that [create] returned, field by field. *)
Theorem company_create_then_get (d : Db) (data : JsObj) h n ds emp :
  get data "handle" = JStr h ->
  get data "name" = JStr n ->
  get data "description" = JStr ds ->
  Sql.coerce Sql.TyInt (Sql.prepareValue (get data "numEmployees"))
    = Sql.Done (Sql.of_int emp) ->
  ~ In h (Sql.handles (store d)) ->
  exists row d1 d2,
    Company.create data d = (Ok (Some row), d1)
    /\ Company.get (JStr h) d1 = (Ok row, d2)
    /\ own_property row "handle" = Some (JStr h)
    /\ own_property row "name" = Some (JStr n)
    /\ own_property row "description" = Some (JStr ds).
Proof.
  intros Hh Hn Hds Hemp Habs.
  destruct (company_create_fresh data d h n ds emp Hh Hn Hds Hemp Habs)
    as [d1 [Hc Hs]].
  eexists. exists d1. eexists. split; [exact Hc|]. split.
  - unfold Company.get, bind, db_query. rewrite query_company_get, Hs.
    cbn [Sql.companies Sql.with_companies]. rewrite filter_app.
    rewrite (filter_none _ _ (absent_company_rows h _ Habs)).
    cbn [filter app]. rewrite company_key_qualifies. cbn [Sql.co_handle].
    rewrite String.eqb_refl. cbn. reflexivity.
  - repeat split.
Qed.

Lemma company_create_then_get_witness :
  exists row d1 d2,
    Company.create zinc_data example_db = (Ok (Some row), d1)
    /\ Company.get (JStr "zinc") d1 = (Ok row, d2)
    /\ own_property row "handle" = Some (JStr "zinc")
    /\ own_property row "name" = Some (JStr "Zinc")
    /\ own_property row "description" = Some (JStr "Metal").
Proof.
  apply (company_create_then_get example_db zinc_data "zinc" "Zinc" "Metal"
           (Some 7%Z)); try reflexivity.
  simpl. intuition discriminate.
Defined.

(** A job just created is what [Job.get] returns for the identifier that
    [create] handed back: the same fields, the identifier left out. *)
Theorem job_create_then_get (d : Db) (data : JsObj) t c sal eq :
  get data "title" = JStr t ->
  get data "company_handle" = JStr c ->
  Sql.coerce Sql.TyInt (Sql.prepareValue (get data "salary"))
    = Sql.Done (Sql.of_int sal) ->
  Sql.coerce Sql.TyNumeric (Sql.prepareValue (get data "equity"))
    = Sql.Done (Sql.of_numeric eq) ->
  Sql.equity_in_range eq = true ->
  In c (Sql.handles (store d)) ->
  (forall r, In r (Sql.jobs (store d)) ->
             ~ (Sql.job_title r = t /\ Sql.job_company_handle r = c)) ->
  ~ In (Sql.jobs_id_seq (store d) + 1)%Z (map Sql.job_id (Sql.jobs (store d))) ->
  Sql.in_int4 (Sql.jobs_id_seq (store d) + 1) = true ->
  exists id row d1 d2,
    Job.create data d = (Ok (Some (("id", JNum id) :: row)), d1)
    /\ Job.get (JNum id) d1 = (Ok row, d2)
    /\ id = (Sql.jobs_id_seq (store d) + 1)%Z
    /\ own_property row "title" = Some (JStr t)
    /\ own_property row "company_handle" = Some (JStr c).
Proof.
  intros Ht Hc Hsal Heq Hrange Hfk Hnew Hfresh Hint.
  destruct (job_create_fresh data d t c sal eq Ht Hc Hsal Heq Hrange Hfk
              Hnew Hfresh) as [d1 [Hcr Hs]].
  exists (Sql.jobs_id_seq (store d) + 1)%Z. eexists. exists d1. eexists.
  split; [exact Hcr|]. split.
  - unfold Job.get, bind, db_query. rewrite (query_job_get _ _ Hint), Hs.
    cbn [Sql.jobs Sql.with_jobs]. rewrite filter_app.
    rewrite (filter_none _ _ (absent_job_rows _ _ Hfresh)).
    cbn [filter app]. rewrite job_key_qualifies. cbn [Sql.job_id].
    rewrite Z.eqb_refl. cbn. reflexivity.
  - repeat split.
Qed.

Lemma job_create_then_get_witness :
  exists id row d1 d2,
    Job.create welder_data example_db = (Ok (Some (("id", JNum id) :: row)), d1)
    /\ Job.get (JNum id) d1 = (Ok row, d2)
    /\ id = (Sql.jobs_id_seq (store example_db) + 1)%Z
    /\ own_property row "title" = Some (JStr "welder")
    /\ own_property row "company_handle" = Some (JStr "acme").
Proof.
  apply (job_create_then_get example_db welder_data "welder" "acme"
           (Some 100%Z) (Some {| Sql.mant := 5; Sql.scale := 1 |}));
    try reflexivity.
  - simpl. left. reflexivity.
  - intros r Hr [Ht Hc]. simpl in Hr.
    destruct Hr as [<-|[<-|[<-|[<-|[]]]]]; discriminate Ht.
  - simpl. intuition discriminate.
Defined.

(** ** What an UPDATE writes *)

Lemma coerce_has_type ty text v :
  Sql.coerce ty text = Sql.Done v -> has_type ty v = true.
Proof.
  destruct text as [s|]; simpl.
  - destruct ty; simpl.
    + destruct (Sql.parse_int4 s); [|discriminate]. now intros [= <-].
    + now intros [= <-].
    + destruct (Sql.parse_numeric s); [|discriminate]. now intros [= <-].
  - intros [= <-]. now destruct ty.
Qed.

Lemma traverse_assignments_exact {R} `{Sql.Table R} jsToSql params
    (data : JsObj) start :
  (forall j kv, nth_error data j = Some kv ->
                nth_error params (start + j) = Some (Sql.prepareValue (snd kv))) ->
  Forall (field_ok (R := R) jsToSql) data ->
  Sql.traverse (Sql.bind_assignment (R := R) params)
    (assignments (map (column_name jsToSql) (Object_keys data)) start)
  = Sql.Done (bound_assignments (R := R) jsToSql data).
Proof.
  revert start. induction data as [|[k v] data IH]; intros start Hnth Hok.
  - reflexivity.
  - inversion Hok as [|? ? [ty [Hty Hacc]] Hok']; subst.
    cbn [Object_keys map fst assignments Sql.traverse Sql.bind_assignment
         bound_assignments].
    fold (Object_keys data).
    simpl in Hty, Hacc. unfold Sql.accepts in Hacc.
    unfold bound_value. cbn [fst snd]. rewrite Hty. cbn [Sql.bind_atom].
    specialize (Hnth 0 (k, v) eq_refl) as Hn0. rewrite Nat.add_0_r in Hn0.
    rewrite Hn0. cbn [Sql.and_then Sql.as_type snd].
    destruct (Sql.coerce ty (Sql.prepareValue v)) as [val|]; [|discriminate].
    cbn [Sql.and_then]. rewrite IH.
    + reflexivity.
    + intros j kv Hj. replace (S start + j) with (start + S j) by lia.
      now apply Hnth.
    + exact Hok'.
Qed.

Lemma bind_assignments_exact {R} `{Sql.Table R} jsToSql (data : JsObj) post :
  Sql.distinct (map (column_name jsToSql) (Object_keys data)) = true ->
  Forall (field_ok (R := R) jsToSql) data ->
  Sql.bind_assignments (R := R)
    (map Sql.prepareValue (Object_values data ++ post))
    (assignments (map (column_name jsToSql) (Object_keys data)) 0)
  = Sql.Done (bound_assignments (R := R) jsToSql data).
Proof.
  intros Hd Hok. unfold Sql.bind_assignments.
  rewrite assignments_names, Hd. cbn [Sql.require Sql.and_then].
  apply traverse_assignments_exact; [|exact Hok].
  intros j kv Hj. cbn [Nat.add].
  rewrite map_app, nth_error_app1.
  - unfold Object_values. rewrite !nth_error_map, Hj. reflexivity.
  - unfold Object_values. rewrite !length_map. apply nth_error_Some.
    rewrite Hj. discriminate.
Qed.

Lemma bound_value_has_type {R} `{Sql.Table R} jsToSql kv ty :
  Sql.column_type (R := R) (column_name jsToSql (fst kv)) = Some ty ->
  has_type ty (bound_value (R := R) jsToSql kv) = true.
Proof.
  intros Hty. unfold bound_value. rewrite Hty.
  destruct (Sql.coerce ty _) eqn:E; [|now destruct ty].
  now apply coerce_has_type in E.
Qed.

(** The two laws of a table: a column that was assigned holds the value,
    the other columns hold what they held. *)
Section AssignLaws.
Context {R : Type} `{Sql.Table R}.
Hypothesis assigned :
  forall c ty v (r r' : R),
    Sql.column_type (R := R) c = Some ty -> has_type ty v = true ->
    Sql.assign c v r = Some r' -> Sql.column_value c r' = v.
Hypothesis others :
  forall c c' v (r r' : R),
    c' <> c -> Sql.assign c v r = Some r' ->
    Sql.column_value c' r' = Sql.column_value c' r.

Lemma apply_assignments_values jsToSql (data : JsObj) (old r r' : R) :
  Sql.distinct (map (column_name jsToSql) (Object_keys data)) = true ->
  Forall (field_ok (R := R) jsToSql) data ->
  Sql.apply_assignments (bound_assignments (R := R) jsToSql data) old r
    = Some r' ->
  (forall kv, In kv data ->
     Sql.column_value (column_name jsToSql (fst kv)) r'
     = bound_value (R := R) jsToSql kv)
  /\ (forall c, ~ In c (map (column_name jsToSql) (Object_keys data)) ->
        Sql.column_value c r' = Sql.column_value c r).
Proof.
  revert r. induction data as [|[k v] data IH]; intros r Hd Hok.
  - simpl. intros [= <-]. split; [intros kv []|reflexivity].
  - inversion Hok as [|? ? [ty [Hty _]] Hok']; subst.
    cbn [Object_keys map fst Sql.distinct] in Hd. fold (Object_keys data) in Hd.
    apply andb_prop in Hd as [Hnot Hd].
    apply negb_true_iff in Hnot.
    cbn [bound_assignments map Sql.apply_assignments Sql.scalar_value fst].
    destruct (Sql.assign (column_name jsToSql k)
                (bound_value (R := R) jsToSql (k, v)) r) as [r1|] eqn:E;
      [|discriminate].
    intros Happ. destruct (IH r1 Hd Hok' Happ) as [Hin Hout].
    assert (Hk : ~ In (column_name jsToSql k)
                      (map (column_name jsToSql) (Object_keys data))).
    { intros Hin'. apply mem_In in Hin'. unfold Sql.mem in Hin'. congruence. }
    split.
    + intros kv [<-|Hkv]; [|now apply Hin].
      cbn [fst]. rewrite (Hout _ Hk).
      apply (assigned (column_name jsToSql k) ty
                      (bound_value (R := R) jsToSql (k, v)) r r1);
        [exact Hty| |exact E].
      now apply (bound_value_has_type jsToSql (k, v)).
    + intros c Hc. cbn [Object_keys map fst] in Hc.
      rewrite Hout by (intros Hin'; apply Hc; now right).
      apply (others (column_name jsToSql k) c
                    (bound_value (R := R) jsToSql (k, v)) r r1); [|exact E].
      intros ->. apply Hc. now left.
Qed.
End AssignLaws.

Lemma company_assigned c ty v (r r' : Sql.CompanyRow) :
  Sql.column_type (R := Sql.CompanyRow) c = Some ty -> has_type ty v = true ->
  Sql.assign c v r = Some r' -> Sql.column_value c r' = v.
Proof.
  cbn [Sql.assign Sql.column_value Sql.company_table].
  unfold Sql.column_type, Sql.company_assign, Sql.company_value.
  cbn [Sql.columns Sql.company_table Sql.assoc].
  repeat match goal with
         | |- context [String.eqb ?a c] =>
             rewrite (String.eqb_sym a c); destruct (String.eqb c a)
         end;
    try discriminate; intros [= <-]; destruct v; try discriminate;
    intros _ [= <-]; reflexivity.
Qed.

Lemma company_others c c' v (r r' : Sql.CompanyRow) :
  c' <> c -> Sql.assign c v r = Some r' ->
  Sql.column_value c' r' = Sql.column_value c' r.
Proof.
  cbn [Sql.assign Sql.column_value Sql.company_table].
  unfold Sql.company_assign, Sql.company_value. intros Hne.
  repeat match goal with
         | |- context [String.eqb c ?a] =>
             destruct (String.eqb_spec c a); [subst c|]
         end;
    try discriminate;
    match goal with
    | |- option_map _ ?o = _ -> _ => destruct o; simpl; [|discriminate]
    end; intros [= <-]; cbn;
    repeat match goal with
           | |- context [String.eqb c' ?a] =>
               destruct (String.eqb_spec c' a); [subst c'|]
           end; try congruence; reflexivity.
Qed.

Lemma job_assigned c ty v (r r' : Sql.JobRow) :
  Sql.column_type (R := Sql.JobRow) c = Some ty -> has_type ty v = true ->
  Sql.assign c v r = Some r' -> Sql.column_value c r' = v.
Proof.
  cbn [Sql.assign Sql.column_value Sql.job_table].
  unfold Sql.column_type, Sql.job_assign, Sql.job_value.
  cbn [Sql.columns Sql.job_table Sql.assoc].
  repeat match goal with
         | |- context [String.eqb ?a c] =>
             rewrite (String.eqb_sym a c); destruct (String.eqb c a)
         end;
    try discriminate; intros [= <-]; destruct v; try discriminate;
    intros _ [= <-]; reflexivity.
Qed.

Lemma job_others c c' v (r r' : Sql.JobRow) :
  c' <> c -> Sql.assign c v r = Some r' ->
  Sql.column_value c' r' = Sql.column_value c' r.
Proof.
  cbn [Sql.assign Sql.column_value Sql.job_table].
  unfold Sql.job_assign, Sql.job_value. intros Hne.
  repeat match goal with
         | |- context [String.eqb c ?a] =>
             destruct (String.eqb_spec c a); [subst c|]
         end;
    try discriminate;
    match goal with
    | |- option_map _ ?o = _ -> _ => destruct o; simpl; [|discriminate]
    end; intros [= <-]; cbn;
    repeat match goal with
           | |- context [String.eqb c' ?a] =>
               destruct (String.eqb_spec c' a); [subst c'|]
           end; try congruence; reflexivity.
Qed.

(** Row by row: a row that qualifies is rewritten, any other row stays. *)
Lemma update_rows_frame {R} `{Sql.Table R} w a (rows table changed : list R) :
  Sql.update_rows w a rows = Some (table, changed) ->
  Forall2 (fun r t => if Sql.qualifies w r
                      then Sql.apply_assignments a r r = Some t
                      else t = r) rows table.
Proof.
  revert table changed. induction rows as [|r rows IH]; intros table changed.
  - simpl. intros [= <- <-]. constructor.
  - simpl. destruct (Sql.update_rows w a rows) as [[t c]|]; [|discriminate].
    specialize (IH t c eq_refl).
    destruct (Sql.qualifies w r) eqn:Hq.
    + destruct (Sql.apply_assignments a r r) as [r'|] eqn:E; [|discriminate].
      intros [= <- <-]. constructor; [now rewrite Hq|exact IH].
    + intros [= <- <-]. constructor; [now rewrite Hq|exact IH].
Qed.

Lemma Forall2_kept {A} (P : A -> A -> Prop) (keep : A -> bool) l l' :
  Forall2 (fun r t => if keep r then t = r else P r t) l l' ->
  length l' = length l
  /\ forall r, In r l -> keep r = true -> In r l'.
Proof.
  induction 1 as [|r t l l' Hrt Hall [IHlen IHin]]; simpl.
  - split; [reflexivity|intros r []].
  - split; [now rewrite IHlen|].
    intros x [<-|Hx] Hk.
    + rewrite Hk in Hrt. now left.
    + right. now apply IHin.
Qed.

Lemma update_rows_others {R} `{Sql.Table R} w a (rows table changed : list R) :
  Sql.update_rows w a rows = Some (table, changed) ->
  length table = length rows
  /\ forall r, In r rows -> Sql.qualifies w r = false -> In r table.
Proof.
  intros E. apply update_rows_frame in E.
  destruct (Forall2_kept (fun r t => Sql.apply_assignments a r r = Some t)
              (fun r => negb (Sql.qualifies w r)) rows table) as [Hlen Hin].
  - eapply Forall2_impl; [|exact E]. intros r t Hrt. cbv beta in *.
    now destruct (Sql.qualifies w r).
  - split; [exact Hlen|]. intros r Hr Hq. apply Hin; [exact Hr|].
    now rewrite Hq.
Qed.

(** What [Company.update] sends, for a payload with documented fields. *)
Lemma company_update_query handle data d :
  data <> [] ->
  Forall (fun k => In k Company.updatable) (Object_keys data) ->
  Company.update handle data d =
  (let '(o, st) :=
     Sql.update_company (map Sql.prepareValue (Object_values data ++ [handle]))
       (assignments (map (column_name Company.jsToSql) (Object_keys data)) 0)
       (Some (Sql.ECmp Sql.OpEq (Sql.AColumn "handle")
                (Sql.AParam (S (length (Object_values data))))))
       company_returning (store d) in
   let d' := {| store := st;
                log := log d ++
                  [(Company.update_sql
                      (String.concat ", "
                         (map_with_index (column_assignment Company.jsToSql) 0
                            (Object_keys data)))
                      ("$" +++ show_Z (Z.of_nat (length (Object_values data)) + 1)),
                    Object_values data ++ [handle])] |} in
   match o with
   | Sql.Done rows =>
       match first_row rows with
       | None => (Throw (NotFoundError ("No company: " +++ to_string handle)), d')
       | Some company => (Ok company, d')
       end
   | Sql.Failed f => (Throw (StoreError f), d')
   end).
Proof.
  intros Hne Hdom. unfold Company.update.
  rewrite sqlForPartialUpdate_nonempty by exact Hne.
  unfold bind, lift, ret, db_query, Sql.query. cbn [setCols values].
  rewrite parse_company_update
    by (exact Hdom || (destruct data; [congruence|discriminate])).
  cbn [Sql.execute String.eqb Ascii.eqb Bool.eqb].
  destruct (Sql.update_company _ _ _ _ _) as [[rows|f] st]; [|reflexivity].
  destruct (first_row rows); reflexivity.
Qed.

(** [Company.update] on a company of the store, with a non-empty valid
    payload: unless the store refuses the new values, the row that comes
    back is the rewritten row of that company; each field of the payload
    holds the value given, read at the type of its column, and every other
    column, the handle among them, holds what it held. *)
Theorem company_update_writes_payload (d : Db) (h : string) (data : JsObj) :
  data <> [] ->
  Company.valid_update data = true ->
  In h (Sql.handles (store d)) ->
  (exists r r' d',
      Company.update (JStr h) data d = (Ok (company_result r'), d')
      /\ In r (Sql.companies (store d)) /\ Sql.co_handle r = h
      /\ In r' (Sql.companies (store d'))
      /\ (forall kv, In kv data ->
            Sql.column_value (column_name Company.jsToSql (fst kv)) r'
            = bound_value (R := Sql.CompanyRow) Company.jsToSql kv)
      /\ (forall c,
            ~ In c (map (column_name Company.jsToSql) (Object_keys data)) ->
            Sql.column_value c r' = Sql.column_value c r))
  \/ (exists d',
        Company.update (JStr h) data d =
        (Throw (StoreError ConstraintViolation), d')
        /\ store d' = store d).
Proof.
  intros Hne Hv Hin.
  destruct (company_valid_update data Hv) as [Hdom [Hd Hok]].
  rewrite company_update_query by assumption.
  unfold Sql.update_company.
  rewrite (bind_assignments_exact (R := Sql.CompanyRow) Company.jsToSql data
             [JStr h] Hd Hok).
  rewrite (bind_where_company_key _ _ h (nth_error_last_param _ (JStr h))).
  cbn [Sql.and_then Sql.bind_items Sql.traverse company_returning
       Sql.bind_item Sql.si_column Sql.column_type Sql.assoc Sql.columns
       Sql.company_table String.eqb Ascii.eqb Bool.eqb].
  destruct (Sql.update_rows (company_key h) _ (Sql.companies (store d)))
    as [[table changed]|] eqn:E.
  - destruct (forallb _ changed); cbn [Sql.require Sql.and_then];
      [|right; cbn; eexists; split; reflexivity].
    destruct (forallb _ (Sql.jobs (store d))); cbn [Sql.require Sql.and_then];
      [|right; cbn; eexists; split; reflexivity].
    left. destruct (update_rows_changed _ _ _ _ _ E) as [Hall [Hincl Hnonempty]].
    destruct changed as [|r' changed].
    + exfalso. apply Hnonempty; [|reflexivity].
      destruct (present_company_rows h _ Hin) as [r [rest Hf]].
      exists r. apply filter_In. rewrite Hf. now left.
    + inversion Hall as [|? ? [r [Hr [Hq Happ]]] _]; subst.
      rewrite company_key_qualifies in Hq. apply String.eqb_eq in Hq.
      destruct (apply_assignments_values company_assigned company_others
                  Company.jsToSql data r r r' Hd Hok Happ) as [Hgiven Hrest].
      cbn. exists r, r'. eexists. split; [reflexivity|].
      split; [exact Hr|]. split; [exact Hq|]. split.
      * cbn. apply Hincl. now left.
      * split; assumption.
  - right. cbn. eexists. split; reflexivity.
Qed.

Lemma company_update_writes_payload_witness :
  (exists r r' d',
      Company.update (JStr "bolt")
        [("numEmployees", JNum 3); ("name", JStr "Bolt & Co")] example_db
      = (Ok (company_result r'), d')
      /\ In r (Sql.companies (store example_db)) /\ Sql.co_handle r = "bolt"
      /\ In r' (Sql.companies (store d'))
      /\ (forall kv,
            In kv [("numEmployees", JNum 3); ("name", JStr "Bolt & Co")] ->
            Sql.column_value (column_name Company.jsToSql (fst kv)) r'
            = bound_value (R := Sql.CompanyRow) Company.jsToSql kv)
      /\ (forall c,
            ~ In c (map (column_name Company.jsToSql)
                        (Object_keys [("numEmployees", JNum 3);
                                      ("name", JStr "Bolt & Co")])) ->
            Sql.column_value c r' = Sql.column_value c r))
  \/ (exists d',
        Company.update (JStr "bolt")
          [("numEmployees", JNum 3); ("name", JStr "Bolt & Co")] example_db
        = (Throw (StoreError ConstraintViolation), d')
        /\ store d' = store example_db).
Proof.
  apply (company_update_writes_payload example_db "bolt").
  - discriminate.
  - reflexivity.
  - simpl. right. left. reflexivity.
Defined.

(** [Job.update] on a job of the store, with a non-empty valid payload:
    unless the store refuses the new values, the row that comes back is the
    rewritten row of that job; each field of the payload holds the value
    given, read at the type of its column, and every other column holds what
    it held, so the job keeps its id and its company. *)
Theorem job_update_writes_payload (d : Db) (i : Z) (data : JsObj) :
  Sql.in_int4 i = true ->
  data <> [] ->
  Job.valid_update data = true ->
  In i (map Sql.job_id (Sql.jobs (store d))) ->
  (exists r r' d',
      Job.update (JNum i) data d = (Ok (job_result_without_id r'), d')
      /\ In r (Sql.jobs (store d)) /\ Sql.job_id r = i
      /\ In r' (Sql.jobs (store d'))
      /\ (forall kv, In kv data ->
            Sql.column_value (column_name Job.jsToSql (fst kv)) r'
            = bound_value (R := Sql.JobRow) Job.jsToSql kv)
      /\ (forall c,
            ~ In c (map (column_name Job.jsToSql) (Object_keys data)) ->
            Sql.column_value c r' = Sql.column_value c r)
      /\ Sql.job_id r' = i
      /\ Sql.job_company_handle r' = Sql.job_company_handle r)
  \/ (exists d',
        Job.update (JNum i) data d = (Throw (StoreError ConstraintViolation), d')
        /\ store d' = store d).
Proof.
  intros Hi Hne Hv Hin.
  destruct (job_valid_update data Hv) as [Hdom [Hd Hok]].
  rewrite job_update_query by assumption.
  unfold Sql.update_job.
  rewrite (bind_assignments_exact (R := Sql.JobRow) Job.jsToSql data
             [JNum i] Hd Hok).
  rewrite (bind_where_job_key _ _ i Hi (nth_error_last_param _ (JNum i))).
  cbn [Sql.and_then Sql.bind_items Sql.traverse job_returning Sql.bind_item
       Sql.si_column Sql.column_type Sql.assoc Sql.columns Sql.job_table
       String.eqb Ascii.eqb Bool.eqb].
  destruct (Sql.update_rows (job_key i) _ (Sql.jobs (store d)))
    as [[table changed]|] eqn:E.
  - destruct (forallb _ changed); cbn [Sql.require Sql.and_then];
      [|right; cbn; eexists; split; reflexivity].
    left. destruct (update_rows_changed _ _ _ _ _ E) as [Hall [Hincl Hnonempty]].
    destruct changed as [|r' changed].
    + exfalso. apply Hnonempty; [|reflexivity].
      destruct (present_job_rows i _ Hin) as [r [rest [Hf [Hr Hid]]]].
      exists r. split; [exact Hr|]. rewrite job_key_qualifies.
      subst i. apply Z.eqb_refl.
    + inversion Hall as [|? ? [r [Hr [Hq Happ]]] _]; subst.
      rewrite job_key_qualifies in Hq. apply Z.eqb_eq in Hq.
      destruct (apply_assignments_values job_assigned job_others
                  Job.jsToSql data r r r' Hd Hok Happ) as [Hgiven Hrest].
      assert (Hcols : forall c, In c ["id"; "company_handle"] ->
                ~ In c (map (column_name Job.jsToSql) (Object_keys data))).
      { intros c Hc Hc'. apply in_map_iff in Hc' as [k [Hk Hk']].
        rewrite Forall_forall in Hdom. apply Hdom in Hk'.
        simpl in Hk', Hc.
        destruct Hk' as [<-|[<-|[<-|[]]]]; cbn in Hk; subst c;
          destruct Hc as [Hc|[Hc|[]]]; discriminate. }
      cbn. exists r, r'. eexists. split; [reflexivity|].
      split; [exact Hr|]. split; [exact Hq|]. split.
      { cbn. apply Hincl. now left. }
      split; [exact Hgiven|]. split; [exact Hrest|]. split.
      * assert (Hx := Hrest "id" (Hcols "id" (or_introl eq_refl))).
        cbn in Hx. injection Hx as Hx. now rewrite Hx.
      * assert (Hx := Hrest "company_handle"
                        (Hcols "company_handle" (or_intror (or_introl eq_refl)))).
        cbn in Hx. now injection Hx.
  - right. cbn. eexists. split; reflexivity.
Qed.

Lemma job_update_writes_payload_witness :
  (exists r r' d',
      Job.update (JNum 1) [("salary", JNum 150); ("title", JStr "clerk ii")]
        example_db = (Ok (job_result_without_id r'), d')
      /\ In r (Sql.jobs (store example_db)) /\ Sql.job_id r = 1%Z
      /\ In r' (Sql.jobs (store d'))
      /\ (forall kv, In kv [("salary", JNum 150); ("title", JStr "clerk ii")] ->
            Sql.column_value (column_name Job.jsToSql (fst kv)) r'
            = bound_value (R := Sql.JobRow) Job.jsToSql kv)
      /\ (forall c,
            ~ In c (map (column_name Job.jsToSql)
                        (Object_keys [("salary", JNum 150);
                                      ("title", JStr "clerk ii")])) ->
            Sql.column_value c r' = Sql.column_value c r)
      /\ Sql.job_id r' = 1%Z
      /\ Sql.job_company_handle r' = Sql.job_company_handle r)
  \/ (exists d',
        Job.update (JNum 1) [("salary", JNum 150); ("title", JStr "clerk ii")]
          example_db = (Throw (StoreError ConstraintViolation), d')
        /\ store d' = store example_db).
Proof.
  apply (job_update_writes_payload example_db 1).
  - reflexivity.
  - discriminate.
  - reflexivity.
  - vm_compute. auto.
Defined.

(** [Company.update] with documented fields touches one company: whatever
    the outcome, the jobs are as they were, the companies are as many as
    before, and every company with another handle is still in the table,
    unchanged. *)
Theorem company_update_frame (d : Db) (h : string) (data : JsObj) :
  Forall (fun k => In k Company.updatable) (Object_keys data) ->
  let d' := snd (Company.update (JStr h) data d) in
  Sql.jobs (store d') = Sql.jobs (store d)
  /\ length (Sql.companies (store d')) = length (Sql.companies (store d))
  /\ forall r, In r (Sql.companies (store d)) -> Sql.co_handle r <> h ->
       In r (Sql.companies (store d')).
Proof.
  intros Hdom. destruct data as [|kv data].
  { cbn. auto. }
  rewrite company_update_query by (assumption || discriminate).
  unfold Sql.update_company.
  set (data' := kv :: data) in *.
  destruct (Sql.bind_assignments _ _) as [a|f]; cbn [Sql.and_then];
    [|cbn; auto].
  rewrite (bind_where_company_key _ _ h (nth_error_last_param _ (JStr h))).
  cbn [Sql.and_then Sql.bind_items Sql.traverse company_returning
       Sql.bind_item Sql.si_column Sql.column_type Sql.assoc Sql.columns
       Sql.company_table String.eqb Ascii.eqb Bool.eqb].
  destruct (Sql.update_rows (company_key h) a (Sql.companies (store d)))
    as [[table changed]|] eqn:E; [|cbn; auto].
  destruct (forallb _ changed); cbn [Sql.require Sql.and_then]; [|cbn; auto].
  destruct (forallb _ (Sql.jobs (store d))); cbn [Sql.require Sql.and_then];
    [|cbn; auto].
  destruct (update_rows_others _ _ _ _ _ E) as [Hlen Hkept].
  destruct (first_row _); cbn; (split; [reflexivity|]); (split; [exact Hlen|]);
    intros r Hr Hne; apply Hkept; try exact Hr;
    rewrite company_key_qualifies; now apply String.eqb_neq.
Qed.

Lemma company_update_frame_witness :
  let d' := snd (Company.update (JStr "bolt") [("name", JStr "Bolt & Co")]
                   example_db) in
  Sql.jobs (store d') = Sql.jobs (store example_db)
  /\ length (Sql.companies (store d')) = length (Sql.companies (store example_db))
  /\ forall r, In r (Sql.companies (store example_db)) ->
       Sql.co_handle r <> "bolt" -> In r (Sql.companies (store d')).
Proof.
  apply (company_update_frame example_db "bolt").
  constructor; [simpl; auto|constructor].
Defined.

(** [Job.update] with documented fields touches one job: whatever the
    outcome, the companies and the id sequence are as they were, the jobs
    are as many as before, and every job with another id is still in the
    table, unchanged. *)
Theorem job_update_frame (d : Db) (i : Z) (data : JsObj) :
  Sql.in_int4 i = true ->
  Forall (fun k => In k Job.updatable) (Object_keys data) ->
  let d' := snd (Job.update (JNum i) data d) in
  Sql.companies (store d') = Sql.companies (store d)
  /\ Sql.jobs_id_seq (store d') = Sql.jobs_id_seq (store d)
  /\ length (Sql.jobs (store d')) = length (Sql.jobs (store d))
  /\ forall r, In r (Sql.jobs (store d)) -> Sql.job_id r <> i ->
       In r (Sql.jobs (store d')).
Proof.
  intros Hi Hdom. destruct data as [|kv data].
  { cbn. auto. }
  rewrite job_update_query by (assumption || discriminate).
  unfold Sql.update_job.
  set (data' := kv :: data) in *.
  destruct (Sql.bind_assignments _ _) as [a|f]; cbn [Sql.and_then];
    [|cbn; auto].
  rewrite (bind_where_job_key _ _ i Hi (nth_error_last_param _ (JNum i))).
  cbn [Sql.and_then Sql.bind_items Sql.traverse job_returning
       Sql.bind_item Sql.si_column Sql.column_type Sql.assoc Sql.columns
       Sql.job_table String.eqb Ascii.eqb Bool.eqb].
  destruct (Sql.update_rows (job_key i) a (Sql.jobs (store d)))
    as [[table changed]|] eqn:E; [|cbn; auto].
  destruct (forallb _ changed); cbn [Sql.require Sql.and_then]; [|cbn; auto].
  destruct (update_rows_others _ _ _ _ _ E) as [Hlen Hkept].
  destruct (first_row _); cbn; (split; [reflexivity|]);
    (split; [reflexivity|]); (split; [exact Hlen|]);
    intros r Hr Hne; apply Hkept; try exact Hr;
    rewrite job_key_qualifies; now apply Z.eqb_neq.
Qed.

Lemma job_update_frame_witness :
  let d' := snd (Job.update (JNum 1) [("salary", JNum 150)] example_db) in
  Sql.companies (store d') = Sql.companies (store example_db)
  /\ Sql.jobs_id_seq (store d') = Sql.jobs_id_seq (store example_db)
  /\ length (Sql.jobs (store d')) = length (Sql.jobs (store example_db))
  /\ forall r, In r (Sql.jobs (store example_db)) -> Sql.job_id r <> 1%Z ->
       In r (Sql.jobs (store d')).
Proof.
  apply (job_update_frame example_db 1).
  - reflexivity.
  - constructor; [simpl; auto|constructor].
Defined.

(** ** remove on an entity that is there *)

(** [Job.remove] on a job of the store succeeds with one DELETE whose only
    bind value is the id: the jobs with that id go, the other jobs stay in
    their order, and the companies and the id sequence are as they were, so
    an id that was given out is not given out again. *)
Theorem job_remove_present (d : Db) (i : Z) :
  Sql.in_int4 i = true ->
  In i (map Sql.job_id (Sql.jobs (store d))) ->
  exists d',
    Job.remove (JNum i) d = (Ok tt, d')
    /\ Sql.jobs (store d')
       = filter (fun r => negb (Z.eqb (Sql.job_id r) i)) (Sql.jobs (store d))
    /\ Sql.companies (store d') = Sql.companies (store d)
    /\ Sql.jobs_id_seq (store d') = Sql.jobs_id_seq (store d)
    /\ log d' = log d ++ [(Job.remove_sql, [JNum i])].
Proof.
  intros Hi Hin. unfold Job.remove, bind, db_query.
  rewrite (delete_job_by_key i _ Hi).
  destruct (present_job_rows i _ Hin) as [r [rest [-> _]]].
  cbn. eexists. split; [reflexivity|]. cbn.
  split; [|auto].
  apply filter_ext. intros x. now rewrite <- job_key_qualifies.
Qed.

Lemma job_remove_present_witness :
  exists d',
    Job.remove (JNum 2) example_db = (Ok tt, d')
    /\ Sql.jobs (store d')
       = filter (fun r => negb (Z.eqb (Sql.job_id r) 2))
           (Sql.jobs (store example_db))
    /\ Sql.companies (store d') = Sql.companies (store example_db)
    /\ Sql.jobs_id_seq (store d') = Sql.jobs_id_seq (store example_db)
    /\ log d' = log example_db ++ [(Job.remove_sql, [JNum 2])].
Proof.
  apply (job_remove_present example_db 2).
  - reflexivity.
  - vm_compute. auto.
Defined.

(** [Company.remove] on a company of the store: either it succeeds, the
    companies with that handle go, the others stay in their order, and no
    job of the store refers to the handle any more, every other job being
    kept; or the store refuses the DELETE because jobs still refer to the
    company, and nothing changes. *)
Theorem company_remove_present (d : Db) (h : string) :
  In h (Sql.handles (store d)) ->
  (exists d',
      Company.remove (JStr h) d = (Ok tt, d')
      /\ Sql.companies (store d')
         = filter (fun r => negb (String.eqb (Sql.co_handle r) h))
             (Sql.companies (store d))
      /\ (forall j, In j (Sql.jobs (store d')) <->
                    In j (Sql.jobs (store d)) /\ Sql.job_company_handle j <> h))
  \/ (exists d' j,
        Company.remove (JStr h) d = (Throw (StoreError ConstraintViolation), d')
        /\ store d' = store d
        /\ In j (Sql.jobs (store d)) /\ Sql.job_company_handle j = h).
Proof.
  intros Hin. unfold Company.remove, bind, db_query.
  rewrite query_company_remove. unfold Sql.delete_company.
  cbn [Sql.bind_where Sql.bind_expr Sql.bind_cmp Sql.bind_atom Sql.and_then
       nth_error Sql.column_type Sql.assoc Sql.columns Sql.company_table
       String.eqb Ascii.eqb Bool.eqb Sql.unify Sql.as_type Sql.coerce
       Sql.bind_items Sql.traverse Sql.bind_item Sql.si_column].
  fold (company_key h).
  destruct (present_company_rows h _ Hin) as [r [rest E]].
  assert (Hkept : filter (fun r0 : Sql.CompanyRow =>
                            negb (Sql.qualifies (company_key h) r0))
                    (Sql.companies (store d))
                  = filter (fun r0 => negb (String.eqb (Sql.co_handle r0) h))
                      (Sql.companies (store d))).
  { apply filter_ext. intros x. now rewrite company_key_qualifies. }
  rewrite Hkept.
  assert (Hgone : forall x,
             In x (map Sql.co_handle
                     (filter (Sql.qualifies (company_key h))
                             (Sql.companies (store d)))) <-> x = h).
  { intros x. split.
    - intros Hx. apply in_map_iff in Hx as [y [<- Hy]].
      now apply company_key_filter_In in Hy.
    - intros ->. apply in_map_iff. exists r. split.
      + assert (Hr : In r (filter (Sql.qualifies (company_key h))
                             (Sql.companies (store d))))
          by (rewrite E; now left).
        now apply company_key_filter_In in Hr.
      + rewrite E. now left. }
  remember (filter (Sql.qualifies (company_key h)) (Sql.companies (store d)))
    as gone eqn:G.
  assert (Horphan : forall j : Sql.JobRow,
             Sql.mem (Sql.job_company_handle j) (map Sql.co_handle gone) = true
             <-> Sql.job_company_handle j = h).
  { intros j. rewrite mem_In. apply Hgone. }
  clear G Hgone.
  destruct (Sql.company_delete_rule (store d)).
  - left. cbn [Sql.and_then].
    destruct (first_row _) as [row|] eqn:F; [|rewrite E in F; discriminate F].
    cbn. eexists. split; [reflexivity|]. cbn. split; [reflexivity|].
    intros j. rewrite filter_In, negb_true_iff.
    rewrite <- (Horphan j), not_true_iff_false. reflexivity.
  - destruct (existsb _ (Sql.jobs (store d))) eqn:Ex;
      cbn [negb Sql.require Sql.and_then].
    + right. apply existsb_exists in Ex as [j0 [Hj Ho]].
      cbn. eexists. exists j0. split; [reflexivity|]. split; [reflexivity|].
      split; [exact Hj|]. now apply Horphan.
    + left. destruct (first_row _) as [row|] eqn:F; [|rewrite E in F; discriminate F].
      cbn. eexists. split; [reflexivity|]. cbn. split; [reflexivity|].
      intros j. split; [|tauto]. intros Hj. split; [exact Hj|].
      intros Hh. apply Horphan in Hh.
      assert (Hc : existsb (fun j0 : Sql.JobRow =>
                    Sql.mem (Sql.job_company_handle j0) (map Sql.co_handle gone))
                    (Sql.jobs (store d)) = true)
        by (apply existsb_exists; eauto).
      rewrite Ex in Hc. discriminate.
Qed.

Lemma company_remove_present_witness :
  (exists d',
      Company.remove (JStr "acme") example_db = (Ok tt, d')
      /\ Sql.companies (store d')
         = filter (fun r => negb (String.eqb (Sql.co_handle r) "acme"))
             (Sql.companies (store example_db))
      /\ (forall j, In j (Sql.jobs (store d')) <->
                    In j (Sql.jobs (store example_db))
                    /\ Sql.job_company_handle j <> "acme"))
  \/ (exists d' j,
        Company.remove (JStr "acme") example_db
        = (Throw (StoreError ConstraintViolation), d')
        /\ store d' = store example_db
        /\ In j (Sql.jobs (store example_db))
        /\ Sql.job_company_handle j = "acme").
Proof.
  apply (company_remove_present example_db "acme").
  vm_compute. auto.
Defined.

(** ** The order of a listing *)

Lemma sorts_before_salary a b :
  Sql.sorts_before (Sql.of_int a) (Sql.of_int b) = true <-> salary_le a b.
Proof.
  destruct a as [x|], b as [y|]; cbn; try tauto; try (split; [trivial|reflexivity]).
  - destruct (Z.compare x y) eqn:C; split; intros Hc; try reflexivity;
      try discriminate Hc.
    + apply Z.compare_eq in C. lia.
    + rewrite Z.compare_lt_iff in C. lia.
    + rewrite Z.compare_gt_iff in C. lia.
  - split; [discriminate|intros []].
Qed.

Lemma salary_le_total a b : salary_le a b \/ salary_le b a.
Proof. destruct a, b; cbn; auto; lia. Qed.

Lemma salary_le_trans a b c : salary_le a b -> salary_le b c -> salary_le a c.
Proof. destruct a, b, c; cbn; auto; try lia; tauto. Qed.

Lemma insert_sorted_salary (r : Sql.JobRow) l :
  StronglySorted (fun a b => salary_le (Sql.job_salary a) (Sql.job_salary b)) l ->
  StronglySorted (fun a b => salary_le (Sql.job_salary a) (Sql.job_salary b))
    (Sql.insert_sorted "salary" r l).
Proof.
  induction 1 as [|x l Hs IH Hx]; cbn [Sql.insert_sorted].
  - constructor; constructor.
  - change (Sql.column_value "salary" r) with (Sql.of_int (Sql.job_salary r)).
    change (Sql.column_value "salary" x) with (Sql.of_int (Sql.job_salary x)).
    destruct (Sql.sorts_before _ _) eqn:B.
    + apply sorts_before_salary in B.
      constructor; [constructor; assumption|].
      constructor; [exact B|].
      rewrite Forall_forall in *. intros y Hy.
      eapply salary_le_trans; [exact B|]. now apply Hx.
    + assert (Hle : salary_le (Sql.job_salary x) (Sql.job_salary r)).
      { destruct (salary_le_total (Sql.job_salary x) (Sql.job_salary r)) as [Hl|Hl];
          [exact Hl|].
        apply sorts_before_salary in Hl. rewrite Hl in B. discriminate. }
      constructor; [exact IH|].
      rewrite Forall_forall in *. intros y Hy.
      assert (Hp := insert_sorted_perm "salary" r l).
      apply (Permutation_in _ Hp) in Hy.
      destruct Hy as [<-|Hy]; [exact Hle|now apply Hx].
Qed.

(** [Job.findAll] sends its one statement without bind values and lists
    every job of the store once, by ascending salary, the jobs without a
    salary last; the store is left as it was. *)
Theorem job_findAll_sorted (d : Db) :
  exists rs d',
    Job.findAll d = (Ok (map job_result rs), d')
    /\ Permutation rs (Sql.jobs (store d))
    /\ StronglySorted
         (fun a b => salary_le (Sql.job_salary a) (Sql.job_salary b)) rs
    /\ store d' = store d
    /\ log d' = log d ++ [(Job.findAll_sql, [])].
Proof.
  exists (Sql.order_rows "salary" (Sql.jobs (store d))). eexists.
  split.
  { unfold Job.findAll, db_query.
    replace (Sql.query Job.findAll_sql [] (store d))
      with (Sql.Done (map job_result
                        (Sql.order_rows "salary"
                           (filter (Sql.qualifies None) (Sql.jobs (store d))))),
            store d) by reflexivity.
    unfold Sql.qualifies. rewrite filter_all. reflexivity. }
  split; [apply order_rows_perm|]. split; [|split; reflexivity].
  unfold Sql.order_rows.
  induction (Sql.jobs (store d)) as [|r l IH]; cbn [fold_right].
  - constructor.
  - apply insert_sorted_salary. exact IH.
Qed.

(** [Company.findAll] sends its one statement without bind values and lists
    every company of the store once; the store is left as it was. *)
Theorem company_findAll_complete (d : Db) :
  exists rs d',
    Company.findAll d = (Ok (map company_result rs), d')
    /\ Permutation rs (Sql.companies (store d))
    /\ store d' = store d
    /\ log d' = log d ++ [(Company.findAll_sql, [])].
Proof.
  exists (Sql.order_rows "name" (Sql.companies (store d))). eexists.
  split.
  { unfold Company.findAll, db_query.
    replace (Sql.query Company.findAll_sql [] (store d))
      with (Sql.Done (map company_result
                        (Sql.order_rows "name"
                           (filter (Sql.qualifies None) (Sql.companies (store d))))),
            store d) by reflexivity.
    unfold Sql.qualifies. rewrite filter_all. reflexivity. }
  split; [apply order_rows_perm|]. split; reflexivity.
Qed.

(** ** Search by a text *)

Lemma special_lower c : special (Sql.lower c) = special c.
Proof.
  destruct c as [[] [] [] [] [] [] [] []]; reflexivity.
Qed.

Lemma plain_lower s : plain (Sql.lower_string s) = plain s.
Proof.
  induction s as [|c s IH]; simpl; [reflexivity|].
  now rewrite special_lower, IH.
Qed.

Lemma lower_string_app a b :
  Sql.lower_string (a +++ b) = Sql.lower_string a +++ Sql.lower_string b.
Proof. induction a as [|c a IH]; simpl; [reflexivity|]. now rewrite IH. Qed.

Lemma like_any_run p t :
  Sql.like (String "%" p) t =
  (Sql.like p t
   || match t with
      | EmptyString => false
      | String _ t' => Sql.like (String "%" p) t'
      end)%bool.
Proof. destruct t; reflexivity. Qed.

Lemma like_percent t : Sql.like "%" t = true.
Proof.
  induction t as [|c t IH].
  - reflexivity.
  - rewrite like_any_run, IH. apply orb_true_r.
Qed.

Lemma like_plain_char c p t :
  special c = false ->
  Sql.like (String c p) t =
  match t with
  | EmptyString => false
  | String d t' => (Ascii.eqb c d && Sql.like p t')%bool
  end.
Proof.
  intros Hc.
  destruct c as [[] [] [] [] [] [] [] []]; try discriminate Hc; reflexivity.
Qed.

(** A plain text followed by [%]: the text is a prefix. *)
Lemma like_plain_prefix p t :
  plain p = true -> Sql.like (p +++ "%") t = String.prefix p t.
Proof.
  revert t. induction p as [|c p IH]; intros t Hp.
  - cbn [append]. rewrite like_percent. now destruct t.
  - simpl in Hp. apply andb_prop in Hp as [Hc Hp]. apply negb_true_iff in Hc.
    cbn [append]. rewrite (like_plain_char c _ t Hc).
    destruct t as [|d t]; [reflexivity|]. cbn [String.prefix].
    rewrite (IH t Hp).
    destruct (Ascii.eqb_spec c d) as [->|Hne].
    + destruct (ascii_dec d d) as [_|C]; [reflexivity|contradiction].
    + destruct (ascii_dec c d) as [C|_]; [contradiction|reflexivity].
Qed.

(** A plain text between two [%]: the text occurs. *)
Lemma like_plain_contains p t :
  plain p = true -> Sql.like (String "%" (p +++ "%")) t = contains p t.
Proof.
  intros Hp. induction t as [|d t IH].
  - rewrite like_any_run, (like_plain_prefix p _ Hp). cbn [contains].
    reflexivity.
  - rewrite like_any_run, (like_plain_prefix p _ Hp), IH. reflexivity.
Qed.

Lemma ilike_search s t :
  plain s = true -> Sql.ilike t ("%" +++ s +++ "%") = matches_search s t.
Proof.
  intros Hp. unfold Sql.ilike, matches_search.
  change ("%" +++ s +++ "%") with (String "%" (s +++ "%")).
  cbn [Sql.lower_string]. rewrite lower_string_app.
  change (Sql.lower "%") with "%"%char.
  change (Sql.lower_string "%") with "%".
  apply like_plain_contains. now rewrite plain_lower.
Qed.

Lemma pattern_ok_plain s rest :
  plain s = true -> Sql.pattern_ok (s +++ rest) = Sql.pattern_ok rest.
Proof.
  induction s as [|c s IH]; intros Hp; [reflexivity|].
  simpl in Hp. apply andb_prop in Hp as [Hc Hp]. apply negb_true_iff in Hc.
  cbn [append]. rewrite <- (IH Hp).
  destruct c as [[] [] [] [] [] [] [] []]; try discriminate Hc; reflexivity.
Qed.

(** Inside a literal, a text without a quote is read as it stands. *)
Lemma lex_run_literal acc s :
  plain s = true ->
  Sql.lex_run (Sql.LStr acc) s = Some ([], Sql.LStr (acc +++ s)).
Proof.
  revert acc. induction s as [|c s IH]; intros acc Hp.
  - cbn. now rewrite append_nil_r.
  - simpl in Hp. apply andb_prop in Hp as [Hc Hp]. apply negb_true_iff in Hc.
    cbn [Sql.lex_run].
    assert (Hstep : Sql.lex_step (Sql.LStr acc) c
                    = Some ([], Sql.LStr (Sql.snoc acc c))).
    { destruct c as [[] [] [] [] [] [] [] []]; try discriminate Hc; reflexivity. }
    rewrite Hstep, (IH _ Hp). unfold Sql.snoc. rewrite append_assoc. reflexivity.
Qed.

(** The end of a statement that closes with a search condition. *)
Lemma lex_search_tail head toks s :
  plain s = true ->
  Sql.lex_run Sql.LStart head = Some (toks, Sql.LStr "%") ->
  Sql.lex (head +++ s +++ "%'")
  = Some (toks ++ [Sql.TStr ("%" +++ s +++ "%")]).
Proof.
  intros Hp Hhead. unfold Sql.lex.
  rewrite lex_from_run, lex_run_app, Hhead, lex_run_app.
  rewrite (lex_run_literal "%" s Hp).
  cbn. rewrite app_nil_r. reflexivity.
Qed.

Lemma parse_company_search s :
  plain s = true ->
  Sql.parse (Company.filter_base +++ " WHERE name ILIKE '%" +++ s +++ "%'")
  = Some (Sql.Select company_returning "companies"
            (Some (Sql.EILike (Sql.AColumn "name")
                     (Sql.ALit ("%" +++ s +++ "%"))))
            None).
Proof.
  intros Hp. unfold Sql.parse.
  rewrite <- append_assoc.
  rewrite (lex_search_tail _
             [Sql.TKw Sql.KSelect; Sql.TId "handle"; Sql.TComma;
              Sql.TId "name"; Sql.TComma; Sql.TId "description"; Sql.TComma;
              Sql.TId "num_employees"; Sql.TKw Sql.KAs; Sql.TQId "numEmployees";
              Sql.TComma; Sql.TId "logo_url"; Sql.TKw Sql.KAs;
              Sql.TQId "logoUrl"; Sql.TKw Sql.KFrom; Sql.TId "companies";
              Sql.TKw Sql.KWhere; Sql.TId "name"; Sql.TKw Sql.KIlike] s Hp)
    by (vm_compute; reflexivity).
  reflexivity.
Qed.

Lemma parse_job_search s :
  plain s = true ->
  Sql.parse (Job.filter_base +++ " WHERE title ILIKE '%" +++ s +++ "%'")
  = Some (Sql.Select job_items "jobs"
            (Some (Sql.EILike (Sql.AColumn "title")
                     (Sql.ALit ("%" +++ s +++ "%"))))
            None).
Proof.
  intros Hp. unfold Sql.parse.
  rewrite <- append_assoc.
  rewrite (lex_search_tail _
             [Sql.TKw Sql.KSelect; Sql.TId "id"; Sql.TComma; Sql.TId "title";
              Sql.TComma; Sql.TId "salary"; Sql.TComma; Sql.TId "equity";
              Sql.TComma; Sql.TId "company_handle"; Sql.TKw Sql.KFrom;
              Sql.TId "jobs";
              Sql.TKw Sql.KWhere; Sql.TId "title"; Sql.TKw Sql.KIlike] s Hp)
    by (vm_compute; reflexivity).
  reflexivity.
Qed.

Lemma pattern_ok_search s :
  plain s = true -> Sql.pattern_ok ("%" +++ s +++ "%") = true.
Proof.
  intros Hp. change ("%" +++ s +++ "%") with (String "%" (s +++ "%")).
  cbn [Sql.pattern_ok]. now rewrite pattern_ok_plain.
Qed.

(** [Company.filter] with a name as the only filter, the name holding none
    of the characters that the statement reads as more than themselves:
    the companies whose name holds the text, letter case apart, come back in
    table order, and the store is left as it was. *)
Theorem company_filter_by_name (d : Db) (s : string) :
  plain s = true ->
  exists d',
    Company.filter [("name", JStr s)] d =
    (Ok (map company_result
           (filter (fun r => matches_search s (Sql.co_name r))
                   (Sql.companies (store d)))), d')
    /\ store d' = store d.
Proof.
  intros Hp. unfold Company.filter.
  rewrite (company_name_filter_statement (JStr s) eq_refl).
  unfold bind, lift, ret, db_query, Sql.query. cbn [to_string].
  rewrite (parse_company_search s Hp).
  cbn [Sql.execute String.eqb Ascii.eqb Bool.eqb].
  unfold Sql.run_select.
  cbn [Sql.and_then Sql.bind_items Sql.traverse company_returning
       Sql.bind_item Sql.si_column Sql.column_type Sql.assoc Sql.columns
       Sql.company_table String.eqb Ascii.eqb Bool.eqb Sql.bind_where
       Sql.bind_expr Sql.bind_atom Sql.as_type Sql.compatible Sql.coerce
       Sql.constant_pattern_ok Sql.bind_order Sql.ordered].
  rewrite (pattern_ok_search s Hp).
  cbn [Sql.require Sql.and_then].
  eexists. split; [apply (f_equal2 pair); [|reflexivity]|reflexivity].
  f_equal. f_equal. apply filter_ext. intros r.
  unfold Sql.qualifies.
  cbn [Sql.holds Sql.scalar_value Sql.column_value Sql.company_table
       Sql.company_value String.eqb Ascii.eqb Bool.eqb].
  rewrite (ilike_search s _ Hp). now destruct (matches_search _ _).
Qed.

Lemma company_filter_by_name_witness :
  exists d',
    Company.filter [("name", JStr "OL")] example_db =
    (Ok (map company_result
           (filter (fun r => matches_search "OL" (Sql.co_name r))
                   (Sql.companies (store example_db)))), d')
    /\ store d' = store example_db.
Proof.
  apply (company_filter_by_name example_db "OL"). reflexivity.
Defined.

(** [Job.filter] with a title as the only filter, the title holding none of
    the characters that the statement reads as more than themselves: the
    jobs whose title holds the text, letter case apart, come back in table
    order, and the store is left as it was. *)
Theorem job_filter_by_title (d : Db) (s : string) :
  plain s = true ->
  exists d',
    Job.filter [("title", JStr s)] d =
    (Ok (map job_result
           (filter (fun r => matches_search s (Sql.job_title r))
                   (Sql.jobs (store d)))), d')
    /\ store d' = store d.
Proof.
  intros Hp. unfold Job.filter.
  rewrite (job_title_filter_statement (JStr s) eq_refl).
  unfold db_query, Sql.query. cbn [to_string].
  rewrite (parse_job_search s Hp).
  cbn [Sql.execute String.eqb Ascii.eqb Bool.eqb].
  unfold Sql.run_select.
  cbn [Sql.and_then Sql.bind_items Sql.traverse job_items
       Sql.bind_item Sql.si_column Sql.column_type Sql.assoc Sql.columns
       Sql.job_table String.eqb Ascii.eqb Bool.eqb Sql.bind_where
       Sql.bind_expr Sql.bind_atom Sql.as_type Sql.compatible Sql.coerce
       Sql.constant_pattern_ok Sql.bind_order Sql.ordered].
  rewrite (pattern_ok_search s Hp).
  cbn [Sql.require Sql.and_then].
  eexists. split; [apply (f_equal2 pair); [|reflexivity]|reflexivity].
  f_equal. f_equal. apply filter_ext. intros r.
  unfold Sql.qualifies.
  cbn [Sql.holds Sql.scalar_value Sql.column_value Sql.job_table
       Sql.job_value String.eqb Ascii.eqb Bool.eqb].
  rewrite (ilike_search s _ Hp). now destruct (matches_search _ _).
Qed.

Lemma job_filter_by_title_witness :
  exists d',
    Job.filter [("title", JStr "JOB")] example_db =
    (Ok (map job_result
           (filter (fun r => matches_search "JOB" (Sql.job_title r))
                   (Sql.jobs (store example_db)))), d')
    /\ store d' = store example_db.
Proof.
  apply (job_filter_by_title example_db "JOB"). reflexivity.
Defined.

(** ** Numbers pasted into a statement *)

Lemma lex_run_num_digits acc ds :
  Sql.all_digits ds = true ->
  Sql.lex_run (Sql.LNum acc) ds = Some ([], Sql.LNum (acc +++ ds)).
Proof.
  revert acc. induction ds as [|c ds IH]; intros acc Hd; simpl in *.
  - now rewrite append_nil_r.
  - apply andb_prop in Hd as [Hc Hd]. rewrite Hc.
    rewrite (IH _ Hd). unfold Sql.snoc. now rewrite append_assoc.
Qed.

Lemma lex_start_digit c :
  Sql.is_digit c = true ->
  Sql.lex_start c = Some ([], Sql.LNum (String c EmptyString)).
Proof.
  destruct c as [[] [] [] [] [] [] [] []]; try discriminate; reflexivity.
Qed.

Lemma lex_minus_digit c :
  Sql.is_digit c = true ->
  Sql.lex_step Sql.LMinus c
  = Some ([Sql.TMinus], Sql.LNum (String c EmptyString)).
Proof.
  destruct c as [[] [] [] [] [] [] [] []]; try discriminate; reflexivity.
Qed.

(** The text of a number leaves the machine in a run of digits: of the
    number itself, or of its opposite after a minus sign. *)
Lemma lex_run_show_Z z :
  exists pre ds,
    Sql.lex_run Sql.LStart (show_Z z) = Some (pre, Sql.LNum ds)
    /\ ((pre = [] /\ Sql.number_of_digits ds = z)
        \/ (pre = [Sql.TMinus] /\ (- Sql.number_of_digits ds)%Z = z)).
Proof.
  assert (Hpos : forall n, (0 <= n)%Z -> forall st,
             (forall c, Sql.is_digit c = true ->
                Sql.lex_step st c = Some (match st with
                                          | Sql.LMinus => [Sql.TMinus]
                                          | _ => []
                                          end,
                                          Sql.LNum (String c EmptyString))) ->
             Sql.lex_run st (show_Z n)
             = Some (match st with Sql.LMinus => [Sql.TMinus] | _ => [] end,
                     Sql.LNum (show_Z n))).
  { intros n Hn st Hst. pose proof (show_Z_digits n Hn) as Hd.
    pose proof (show_Z_nonempty n) as Hne.
    destruct (show_Z n) as [|c ds]; [congruence|].
    simpl in Hd. apply andb_prop in Hd as [Hc Hd].
    cbn [Sql.lex_run]. rewrite (Hst c Hc), (lex_run_num_digits _ ds Hd).
    cbn [append]. now rewrite app_nil_r. }
  destruct (Z.neg_nonneg_cases z) as [Hneg|Hnn].
  - destruct z as [|p|p]; try lia.
    exists [Sql.TMinus], (show_Z (Z.pos p)). split.
    + rewrite show_Z_neg. cbn [Sql.lex_run].
      change (Sql.lex_step Sql.LStart "-") with (Some (@nil Sql.token, Sql.LMinus)).
      cbv beta iota.
      rewrite (Hpos (Z.pos p) ltac:(lia) Sql.LMinus lex_minus_digit).
      reflexivity.
    + right. split; [reflexivity|]. rewrite number_of_show_Z by lia. reflexivity.
  - exists [], (show_Z z). split.
    + apply (Hpos z Hnn Sql.LStart). intros c Hc. cbn [Sql.lex_step].
      now apply lex_start_digit.
    + left. split; [reflexivity|]. now apply number_of_show_Z.
Qed.

Lemma lex_run_num_space ds rest :
  Sql.lex_run (Sql.LNum ds) (String " " rest) =
  match Sql.lex_run Sql.LStart rest with
  | None => None
  | Some (ts, st) => Some (Sql.TNum (Sql.number_of_digits ds) :: ts, st)
  end.
Proof. reflexivity. Qed.

(** A number at the end of a statement. *)
Lemma lex_number_tail head toks z :
  Sql.lex_run Sql.LStart head = Some (toks, Sql.LStart) ->
  Sql.lex (head +++ show_Z z) = Some (toks ++ [Sql.TNum z])
  \/ exists n, z = (- n)%Z
       /\ Sql.lex (head +++ show_Z z) = Some (toks ++ [Sql.TMinus; Sql.TNum n]).
Proof.
  intros Hhead. unfold Sql.lex. rewrite lex_from_run, lex_run_app, Hhead.
  destruct (lex_run_show_Z z) as [pre [ds [-> [[-> Hz]|[-> Hz]]]]];
    cbn [Sql.lex_end app].
  - left. now rewrite Hz, app_nil_r.
  - right. exists (Sql.number_of_digits ds). split; [now rewrite Hz|].
    now rewrite <- app_assoc.
Qed.

(** A number in the middle of a statement, before a space. *)
Lemma lex_run_number_space z rest :
  exists nt,
    (nt = [Sql.TNum z] \/ exists n, z = (- n)%Z /\ nt = [Sql.TMinus; Sql.TNum n])
    /\ Sql.lex_run Sql.LStart (show_Z z +++ String " " rest) =
       match Sql.lex_run Sql.LStart rest with
       | None => None
       | Some (ts, st) => Some (nt ++ ts, st)
       end.
Proof.
  destruct (lex_run_show_Z z) as [pre [ds [Hrun [[-> Hz]|[-> Hz]]]]].
  - exists [Sql.TNum z]. split; [now left|].
    rewrite lex_run_app, Hrun, lex_run_num_space, Hz.
    destruct (Sql.lex_run Sql.LStart rest) as [[ts st]|]; reflexivity.
  - exists [Sql.TMinus; Sql.TNum (Sql.number_of_digits ds)]. split.
    + right. exists (Sql.number_of_digits ds). split; [now rewrite Hz|reflexivity].
    + rewrite lex_run_app, Hrun, lex_run_num_space.
      destruct (Sql.lex_run Sql.LStart rest) as [[ts st]|]; reflexivity.
Qed.

(** ** Company.filter on the number of employees *)

Lemma parse_company_bound (op : string) (cmp : Sql.CmpOp) toks z :
  Sql.lex_run Sql.LStart
    ((Company.filter_base +++ " WHERE") +++ " num_employees " +++ op +++ " ")
  = Some ([Sql.TKw Sql.KSelect; Sql.TId "handle"; Sql.TComma;
           Sql.TId "name"; Sql.TComma; Sql.TId "description"; Sql.TComma;
           Sql.TId "num_employees"; Sql.TKw Sql.KAs; Sql.TQId "numEmployees";
           Sql.TComma; Sql.TId "logo_url"; Sql.TKw Sql.KAs;
           Sql.TQId "logoUrl"; Sql.TKw Sql.KFrom; Sql.TId "companies";
           Sql.TKw Sql.KWhere; Sql.TId "num_employees"; toks], Sql.LStart) ->
  Sql.cmp_of_token toks = Some cmp ->
  Sql.parse (((Company.filter_base +++ " WHERE") +++ " num_employees "
              +++ op +++ " ") +++ show_Z z)
  = Some (Sql.Select company_returning "companies"
            (Some (Sql.ECmp cmp (Sql.AColumn "num_employees") (Sql.AInt z)))
            None).
Proof.
  intros Hhead Hcmp. unfold Sql.parse.
  destruct (lex_number_tail _ _ z Hhead) as [->|[n [-> ->]]];
    destruct toks; try discriminate Hcmp; injection Hcmp as <-; reflexivity.
Qed.

Lemma int_cmp_qualifies op z (r : Sql.CompanyRow) :
  Sql.qualifies
    (Some (Sql.CCmp op (Sql.SColumn "num_employees") (Sql.SConst (Sql.VInt z)))) r
  = known_and (fun k => Sql.cmp_holds op (Z.compare k z)) (Sql.co_num_employees r).
Proof.
  unfold Sql.qualifies.
  cbn [Sql.holds Sql.scalar_value Sql.column_value Sql.company_table
       Sql.company_value String.eqb Ascii.eqb Bool.eqb].
  destruct (Sql.co_num_employees r) as [k|]; cbn; [|reflexivity].
  now destruct (Sql.cmp_holds op (k ?= z)%Z).
Qed.

Lemma gt_holds k z : Sql.cmp_holds Sql.OpGt (Z.compare k z) = (z <? k)%Z.
Proof.
  rewrite Z.ltb_compare, (Z.compare_antisym k z).
  now destruct (Z.compare k z).
Qed.

Lemma lt_holds k z : Sql.cmp_holds Sql.OpLt (Z.compare k z) = (k <? z)%Z.
Proof. rewrite Z.ltb_compare. now destruct (Z.compare k z). Qed.

Lemma ge_holds k z : Sql.cmp_holds Sql.OpGe (Z.compare k z) = (z <=? k)%Z.
Proof.
  rewrite Z.leb_compare, (Z.compare_antisym k z).
  now destruct (Z.compare k z).
Qed.

Lemma le_holds k z : Sql.cmp_holds Sql.OpLe (Z.compare k z) = (k <=? z)%Z.
Proof. rewrite Z.leb_compare. now destruct (Z.compare k z). Qed.

Lemma company_select_where e c d sql :
  Sql.parse sql = Some (Sql.Select company_returning "companies" (Some e) None) ->
  Sql.bind_expr (R := Sql.CompanyRow) [] e = Sql.Done c ->
  db_query sql [] d =
  (Ok (map company_result
         (filter (Sql.qualifies (Some c)) (Sql.companies (store d)))),
   {| store := store d; log := log d ++ [(sql, [])] |}).
Proof.
  intros Hp Hb. unfold db_query, Sql.query. rewrite Hp.
  cbn [Sql.execute String.eqb Ascii.eqb Bool.eqb map].
  unfold Sql.run_select.
  cbn [Sql.and_then Sql.bind_items Sql.traverse company_returning
       Sql.bind_item Sql.si_column Sql.column_type Sql.assoc Sql.columns
       Sql.company_table String.eqb Ascii.eqb Bool.eqb Sql.bind_where].
  rewrite Hb. reflexivity.
Qed.

(** [Company.filter] with one bound on the number of employees and no name,
    the bound being a number in the range of the column: the bound is
    exclusive. With [minEmployees] the companies with more employees than
    the bound come back, with [maxEmployees] those with fewer; a company
    whose number of employees is not recorded never comes back. *)
Theorem company_filter_single_bound (d : Db) (filters : JsObj) (z : Z) :
  get filters "name" = JUndef ->
  Sql.in_int4 z = true ->
  (get filters "maxEmployees" = JUndef ->
   parseInt (get filters "minEmployees") = Some z ->
   exists d',
     Company.filter filters d =
     (Ok (map company_result
            (filter (fun r => known_and (fun k => (z <? k)%Z)
                                (Sql.co_num_employees r))
                    (Sql.companies (store d)))), d')
     /\ store d' = store d)
  /\ (get filters "minEmployees" = JUndef ->
      parseInt (get filters "maxEmployees") = Some z ->
      exists d',
        Company.filter filters d =
        (Ok (map company_result
               (filter (fun r => known_and (fun k => (k <? z)%Z)
                                   (Sql.co_num_employees r))
                       (Sql.companies (store d)))), d')
        /\ store d' = store d).
Proof.
  intros Hname _. split.
  - intros Hmax Hmin. unfold Company.filter, Company.filter_statement.
    rewrite Hname, Hmax, (parseInt_defined _ _ Hmin), Hmin.
    cbn [defined andb negb show_number]. rewrite andb_false_r.
    unfold bind, lift, ret.
    rewrite (company_select_where
               (Sql.ECmp Sql.OpGt (Sql.AColumn "num_employees") (Sql.AInt z))
               (Sql.CCmp Sql.OpGt (Sql.SColumn "num_employees")
                  (Sql.SConst (Sql.VInt z)))).
    + eexists. split; [apply (f_equal2 pair); [|reflexivity]|reflexivity].
      f_equal. f_equal.
      apply filter_ext. intros r. rewrite int_cmp_qualifies.
      destruct (Sql.co_num_employees r); [apply gt_holds|reflexivity].
    + apply (parse_company_bound ">" Sql.OpGt Sql.TGt z); reflexivity.
    + reflexivity.
  - intros Hmin Hmax. unfold Company.filter, Company.filter_statement.
    rewrite Hname, Hmin, (parseInt_defined _ _ Hmax), Hmax.
    cbn [defined andb negb show_number]. rewrite andb_false_r.
    unfold bind, lift, ret.
    rewrite (company_select_where
               (Sql.ECmp Sql.OpLt (Sql.AColumn "num_employees") (Sql.AInt z))
               (Sql.CCmp Sql.OpLt (Sql.SColumn "num_employees")
                  (Sql.SConst (Sql.VInt z)))).
    + eexists. split; [apply (f_equal2 pair); [|reflexivity]|reflexivity].
      f_equal. f_equal.
      apply filter_ext. intros r. rewrite int_cmp_qualifies.
      destruct (Sql.co_num_employees r); [apply lt_holds|reflexivity].
    + apply (parse_company_bound "<" Sql.OpLt Sql.TLt z); reflexivity.
    + reflexivity.
Qed.

Lemma company_filter_single_bound_witness :
  exists d',
    Company.filter [("minEmployees", JStr "10")] example_db =
    (Ok (map company_result
           (filter (fun r => known_and (fun k => (10 <? k)%Z)
                               (Sql.co_num_employees r))
                   (Sql.companies (store example_db)))), d')
    /\ store d' = store example_db.
Proof.
  apply (proj1 (company_filter_single_bound example_db
                  [("minEmployees", JStr "10")] 10 eq_refl eq_refl));
    reflexivity.
Defined.

Lemma lex_between_tail head toks lo hi :
  Sql.lex_run Sql.LStart head = Some (toks, Sql.LStart) ->
  exists nlo nhi,
    (nlo = [Sql.TNum lo]
     \/ exists n, lo = (- n)%Z /\ nlo = [Sql.TMinus; Sql.TNum n])
    /\ (nhi = [Sql.TNum hi]
        \/ exists n, hi = (- n)%Z /\ nhi = [Sql.TMinus; Sql.TNum n])
    /\ Sql.lex (head +++ show_Z lo +++ " AND " +++ show_Z hi)
       = Some (toks ++ nlo ++ Sql.TKw Sql.KAnd :: nhi).
Proof.
  intros Hhead.
  destruct (lex_run_number_space lo ("AND " +++ show_Z hi)) as [nlo [Hlo Hrun]].
  destruct (lex_number_tail "AND " [Sql.TKw Sql.KAnd] hi eq_refl) as [Hhi|[n [Hn Hhi]]].
  - exists nlo, [Sql.TNum hi]. split; [exact Hlo|]. split; [now left|].
    unfold Sql.lex in *. rewrite lex_from_run in Hhi.
    rewrite lex_from_run, lex_run_app, Hhead.
    change (show_Z lo +++ " AND " +++ show_Z hi)
      with (show_Z lo +++ String " " ("AND " +++ show_Z hi)).
    rewrite Hrun.
    destruct (Sql.lex_run Sql.LStart ("AND " +++ show_Z hi)) as [[ts st]|];
      [|discriminate Hhi].
    destruct (Sql.lex_end st) as [te|]; [|discriminate Hhi].
    injection Hhi as Hhi. now rewrite <- !app_assoc, Hhi.
  - exists nlo, [Sql.TMinus; Sql.TNum n]. split; [exact Hlo|].
    split; [right; eauto|].
    unfold Sql.lex in *. rewrite lex_from_run in Hhi.
    rewrite lex_from_run, lex_run_app, Hhead.
    change (show_Z lo +++ " AND " +++ show_Z hi)
      with (show_Z lo +++ String " " ("AND " +++ show_Z hi)).
    rewrite Hrun.
    destruct (Sql.lex_run Sql.LStart ("AND " +++ show_Z hi)) as [[ts st]|];
      [|discriminate Hhi].
    destruct (Sql.lex_end st) as [te|]; [|discriminate Hhi].
    injection Hhi as Hhi. now rewrite <- !app_assoc, Hhi.
Qed.

Lemma parse_company_between lo hi :
  Sql.parse ((Company.filter_base +++ " WHERE") +++ " num_employees BETWEEN "
             +++ show_Z lo +++ " AND " +++ show_Z hi)
  = Some (Sql.Select company_returning "companies"
            (Some (Sql.EBetween (Sql.AColumn "num_employees")
                     (Sql.AInt lo) (Sql.AInt hi)))
            None).
Proof.
  unfold Sql.parse. rewrite <- append_assoc.
  destruct (lex_between_tail
              ((Company.filter_base +++ " WHERE") +++ " num_employees BETWEEN ")
              _ lo hi ltac:(vm_compute; reflexivity))
    as [nlo [nhi [Hlo [Hhi ->]]]].
  destruct Hlo as [->|[n [-> ->]]]; destruct Hhi as [->|[m [-> ->]]];
    reflexivity.
Qed.

(** [Company.filter] with both bounds on the number of employees and no
    name, the bounds being numbers in the range of the column with the
    lower one not above the upper one: both bounds are inclusive, and a
    company whose number of employees is not recorded never comes back. *)
Theorem company_filter_range (d : Db) (filters : JsObj) (lo hi : Z) :
  get filters "name" = JUndef ->
  parseInt (get filters "minEmployees") = Some lo ->
  parseInt (get filters "maxEmployees") = Some hi ->
  Sql.in_int4 lo = true -> Sql.in_int4 hi = true ->
  (lo <= hi)%Z ->
  exists d',
    Company.filter filters d =
    (Ok (map company_result
           (filter (fun r => known_and (fun k => (lo <=? k)%Z && (k <=? hi)%Z)
                               (Sql.co_num_employees r))
                   (Sql.companies (store d)))), d')
    /\ store d' = store d.
Proof.
  intros Hname Hmin Hmax _ _ Hle.
  unfold Company.filter, Company.filter_statement.
  rewrite Hname, (parseInt_defined _ _ Hmin), (parseInt_defined _ _ Hmax),
    Hmin, Hmax.
  cbn [defined andb negb show_number js_lt]. rewrite andb_false_r.
  replace (hi <? lo)%Z with false by (symmetry; apply Z.ltb_ge; exact Hle).
  unfold bind, lift, ret.
  rewrite (company_select_where
             (Sql.EBetween (Sql.AColumn "num_employees") (Sql.AInt lo) (Sql.AInt hi))
             (Sql.CAnd
                (Sql.CCmp Sql.OpGe (Sql.SColumn "num_employees")
                   (Sql.SConst (Sql.VInt lo)))
                (Sql.CCmp Sql.OpLe (Sql.SColumn "num_employees")
                   (Sql.SConst (Sql.VInt hi))))).
  - eexists. split; [apply (f_equal2 pair); [|reflexivity]|reflexivity].
    f_equal. f_equal. apply filter_ext. intros r.
    unfold Sql.qualifies.
    cbn [Sql.holds Sql.scalar_value Sql.column_value Sql.company_table
         Sql.company_value String.eqb Ascii.eqb Bool.eqb].
    destruct (Sql.co_num_employees r) as [k|]; cbn; [|reflexivity].
    rewrite !Z.leb_compare, (Z.compare_antisym k lo).
    destruct (k ?= lo)%Z, (k ?= hi)%Z; reflexivity.
  - apply parse_company_between.
  - reflexivity.
Qed.

Lemma company_filter_range_witness :
  exists d',
    Company.filter [("minEmployees", JStr "1"); ("maxEmployees", JStr "50")]
      example_db =
    (Ok (map company_result
           (filter (fun r => known_and (fun k => (1 <=? k)%Z && (k <=? 50)%Z)
                               (Sql.co_num_employees r))
                   (Sql.companies (store example_db)))), d')
    /\ store d' = store example_db.
Proof.
  apply (company_filter_range example_db
           [("minEmployees", JStr "1"); ("maxEmployees", JStr "50")] 1 50);
    try reflexivity.
  lia.
Defined.

(** ** A bound that is not a number *)

Lemma company_select_fails e f d sql :
  Sql.parse sql = Some (Sql.Select company_returning "companies" (Some e) None) ->
  Sql.bind_expr (R := Sql.CompanyRow) [] e = Sql.Failed f ->
  db_query sql [] d =
  (Throw (StoreError f), {| store := store d; log := log d ++ [(sql, [])] |}).
Proof.
  intros Hp Hb. unfold db_query, Sql.query. rewrite Hp.
  cbn [Sql.execute String.eqb Ascii.eqb Bool.eqb map].
  unfold Sql.run_select.
  cbn [Sql.and_then Sql.bind_items Sql.traverse company_returning
       Sql.bind_item Sql.si_column Sql.column_type Sql.assoc Sql.columns
       Sql.company_table String.eqb Ascii.eqb Bool.eqb Sql.bind_where].
  rewrite Hb. reflexivity.
Qed.

Lemma parse_company_between_nan_hi hi :
  Sql.parse ((Company.filter_base +++ " WHERE") +++ " num_employees BETWEEN "
             +++ "NaN" +++ " AND " +++ show_Z hi)
  = Some (Sql.Select company_returning "companies"
            (Some (Sql.EBetween (Sql.AColumn "num_employees")
                     (Sql.AColumn "nan") (Sql.AInt hi)))
            None).
Proof.
  unfold Sql.parse.
  change ((Company.filter_base +++ " WHERE") +++ " num_employees BETWEEN "
          +++ "NaN" +++ " AND " +++ show_Z hi)
    with (((Company.filter_base +++ " WHERE") +++ " num_employees BETWEEN "
           +++ "NaN" +++ " AND ") +++ show_Z hi).
  destruct (lex_number_tail
              ((Company.filter_base +++ " WHERE") +++ " num_employees BETWEEN "
               +++ "NaN" +++ " AND ")
              _ hi ltac:(vm_compute; reflexivity)) as [->|[n [-> ->]]];
    reflexivity.
Qed.

Lemma parse_company_between_lo_nan lo :
  Sql.parse ((Company.filter_base +++ " WHERE") +++ " num_employees BETWEEN "
             +++ show_Z lo +++ " AND " +++ "NaN")
  = Some (Sql.Select company_returning "companies"
            (Some (Sql.EBetween (Sql.AColumn "num_employees")
                     (Sql.AInt lo) (Sql.AColumn "nan")))
            None).
Proof.
  unfold Sql.parse, Sql.lex. rewrite <- append_assoc.
  rewrite lex_from_run, lex_run_app.
  replace (Sql.lex_run Sql.LStart
             ((Company.filter_base +++ " WHERE") +++ " num_employees BETWEEN "))
    with (Some ([Sql.TKw Sql.KSelect; Sql.TId "handle"; Sql.TComma;
                 Sql.TId "name"; Sql.TComma; Sql.TId "description"; Sql.TComma;
                 Sql.TId "num_employees"; Sql.TKw Sql.KAs;
                 Sql.TQId "numEmployees"; Sql.TComma; Sql.TId "logo_url";
                 Sql.TKw Sql.KAs; Sql.TQId "logoUrl"; Sql.TKw Sql.KFrom;
                 Sql.TId "companies"; Sql.TKw Sql.KWhere;
                 Sql.TId "num_employees"; Sql.TKw Sql.KBetween], Sql.LStart))
    by (vm_compute; reflexivity).
  change (show_Z lo +++ " AND " +++ "NaN")
    with (show_Z lo +++ String " " "AND NaN").
  destruct (lex_run_number_space lo "AND NaN") as [nt [Hnt ->]].
  destruct Hnt as [->|[n [-> ->]]]; reflexivity.
Qed.

(** [Company.filter] with no name and a bound on the number of employees
    that is given, in ASCII characters, but is not a number: the statement
    carries [NaN] in its place, the store refuses it, and the caller gets
    the failure of the store rather than a BadRequest. Nothing is
    changed. *)
Theorem company_filter_bound_not_a_number (d : Db) (filters : JsObj) :
  get filters "name" = JUndef ->
  (defined (get filters "minEmployees") = true
   /\ ascii_text (to_string (get filters "minEmployees")) = true
   /\ parseInt (get filters "minEmployees") = None)
  \/ (defined (get filters "maxEmployees") = true
      /\ ascii_text (to_string (get filters "maxEmployees")) = true
      /\ parseInt (get filters "maxEmployees") = None) ->
  exists d',
    Company.filter filters d = (Throw (StoreError UndefinedName), d')
    /\ store d' = store d.
Proof.
  intros Hname Hnan.
  assert (Hnan' :
            (defined (get filters "minEmployees") = true
             /\ parseInt (get filters "minEmployees") = None)
            \/ (defined (get filters "maxEmployees") = true
                /\ parseInt (get filters "maxEmployees") = None))
    by (destruct Hnan as [[H1 [_ H2]]|[H1 [_ H2]]]; auto).
  clear Hnan. rename Hnan' into Hnan.
  unfold Company.filter, Company.filter_statement.
  rewrite Hname. cbn [defined andb negb]. rewrite andb_false_r.
  destruct (parseInt (get filters "minEmployees")) as [lo|] eqn:Hmin;
    destruct (parseInt (get filters "maxEmployees")) as [hi|] eqn:Hmax.
  - destruct Hnan as [[_ H]|[_ H]]; discriminate H.
  - rewrite (parseInt_defined _ _ Hmin).
    destruct Hnan as [[_ H]|[Hd _]]; [discriminate H|]. rewrite Hd.
    cbn [andb js_lt show_number]. unfold bind, lift, ret.
    rewrite (company_select_fails _ UndefinedName d _
               (parse_company_between_lo_nan lo) eq_refl).
    eexists. split; reflexivity.
  - rewrite (parseInt_defined _ _ Hmax).
    destruct Hnan as [[Hd _]|[_ H]]; [|discriminate H]. rewrite Hd.
    cbn [andb js_lt show_number]. unfold bind, lift, ret.
    rewrite (company_select_fails _ UndefinedName d _
               (parse_company_between_nan_hi hi) eq_refl).
    eexists. split; reflexivity.
  - destruct (defined (get filters "minEmployees")),
             (defined (get filters "maxEmployees"));
      cbn [andb js_lt show_number]; unfold bind, lift, ret.
    + eexists. split; reflexivity.
    + eexists. split; reflexivity.
    + eexists. split; reflexivity.
    + destruct Hnan as [[H _]|[H _]]; discriminate H.
Qed.

Lemma company_filter_bound_not_a_number_witness :
  exists d',
    Company.filter [("minEmployees", JStr "many")] example_db
    = (Throw (StoreError UndefinedName), d')
    /\ store d' = store example_db.
Proof.
  apply (company_filter_bound_not_a_number example_db
           [("minEmployees", JStr "many")]).
  - reflexivity.
  - left. split; [reflexivity|split; reflexivity].
Defined.

(** ** A name together with other filters *)

(** A search literal in the middle of a statement. *)
Lemma lex_run_search head toks s :
  plain s = true ->
  Sql.lex_run Sql.LStart head = Some (toks, Sql.LStr "%") ->
  Sql.lex_run Sql.LStart (head +++ s +++ "%'")
  = Some (toks, Sql.LStrQuote ("%" +++ s +++ "%")).
Proof.
  intros Hp Hhead.
  rewrite lex_run_app, Hhead, lex_run_app, (lex_run_literal "%" s Hp).
  cbn. now rewrite app_nil_r.
Qed.


Lemma lex_search_then head toks s mid mtoks tail :
  plain s = true ->
  Sql.lex_run Sql.LStart head = Some (toks, Sql.LStr "%") ->
  (forall acc, Sql.lex_run (Sql.LStrQuote acc) mid
               = Some (Sql.TStr acc :: mtoks, Sql.LStart)) ->
  Sql.lex ((head +++ s +++ "%'") +++ mid +++ tail) =
  match Sql.lex tail with
  | None => None
  | Some ts => Some (toks ++ Sql.TStr ("%" +++ s +++ "%") :: mtoks ++ ts)
  end.
Proof.
  intros Hp Hhead Hmid. unfold Sql.lex.
  rewrite !lex_from_run, lex_run_app, (lex_run_search head toks s Hp Hhead).
  rewrite lex_run_app, Hmid.
  destruct (Sql.lex_run Sql.LStart tail) as [[ts st]|]; [|reflexivity].
  destruct (Sql.lex_end st) as [te|]; [|reflexivity].
  cbn [app]. rewrite <- app_assoc. cbn [app]. now rewrite <- app_assoc.
Qed.

Lemma get_own_key (o : JsObj) k :
  inherited_property k = None -> get o k <> JUndef -> In k (Object_keys o).
Proof.
  intros Hi Hg. unfold get in Hg. rewrite Hi in Hg.
  induction o as [|[k' v] o IH]; cbn in *; [congruence|].
  destruct (String.eqb_spec k' k) as [->|_]; [now left|right; now apply IH].
Qed.

Lemma two_keys (l : list string) k1 k2 :
  k1 <> k2 -> In k1 l -> In k2 l -> Nat.ltb 1 (length l) = true.
Proof.
  intros Hne H1 H2. destruct l as [|a [|b l]]; try reflexivity.
  - destruct H1.
  - destruct H1 as [<-|[]], H2 as [<-|[]]. congruence.
Qed.

Lemma company_name_and_bound_keys (filters : JsObj) s :
  get filters "name" = JStr s ->
  defined (get filters "minEmployees") = true
  \/ defined (get filters "maxEmployees") = true ->
  Nat.ltb 1 (length (Object_keys filters)) = true.
Proof.
  intros Hname [Hd|Hd].
  - apply (two_keys _ "name" "minEmployees"); [discriminate| |];
      apply get_own_key; try reflexivity; [rewrite Hname; discriminate|].
    intros E. rewrite E in Hd. discriminate Hd.
  - apply (two_keys _ "name" "maxEmployees"); [discriminate| |];
      apply get_own_key; try reflexivity; [rewrite Hname; discriminate|].
    intros E. rewrite E in Hd. discriminate Hd.
Qed.

Lemma company_search_head :
  Sql.lex_run Sql.LStart (Company.filter_base +++ " WHERE name ILIKE '%")
  = Some ([Sql.TKw Sql.KSelect; Sql.TId "handle"; Sql.TComma;
           Sql.TId "name"; Sql.TComma; Sql.TId "description"; Sql.TComma;
           Sql.TId "num_employees"; Sql.TKw Sql.KAs; Sql.TQId "numEmployees";
           Sql.TComma; Sql.TId "logo_url"; Sql.TKw Sql.KAs;
           Sql.TQId "logoUrl"; Sql.TKw Sql.KFrom; Sql.TId "companies";
           Sql.TKw Sql.KWhere; Sql.TId "name"; Sql.TKw Sql.KIlike],
          Sql.LStr "%").
Proof. vm_compute. reflexivity. Qed.

Lemma search_text base w s a n tail :
  ((base +++ w +++ s +++ "%'") +++ a) +++ n +++ tail
  = ((base +++ w) +++ s +++ "%'") +++ (a +++ n) +++ tail.
Proof. now rewrite !append_assoc. Qed.

Lemma parse_company_name_bound s mid (cmp : Sql.CmpOp) tok z :
  plain s = true ->
  (forall acc, Sql.lex_run (Sql.LStrQuote acc) (" AND" +++ mid)
               = Some ([Sql.TStr acc; Sql.TKw Sql.KAnd; Sql.TId "num_employees";
                        tok], Sql.LStart)) ->
  Sql.cmp_of_token tok = Some cmp ->
  Sql.parse (((Company.filter_base +++ " WHERE name ILIKE '%" +++ s +++ "%'")
              +++ " AND") +++ mid +++ show_Z z)
  = Some (Sql.Select company_returning "companies"
            (Some (Sql.EAnd
                     (Sql.EILike (Sql.AColumn "name")
                        (Sql.ALit ("%" +++ s +++ "%")))
                     (Sql.ECmp cmp (Sql.AColumn "num_employees") (Sql.AInt z))))
            None).
Proof.
  intros Hp Hmid Hcmp. unfold Sql.parse.
  rewrite search_text.
  rewrite (lex_search_then _ _ s _ _ (show_Z z) Hp company_search_head Hmid).
  destruct (lex_number_tail EmptyString [] z eq_refl) as [H|[n [-> H]]];
    cbn [append app] in H; rewrite H;
    destruct tok; try discriminate Hcmp; injection Hcmp as <-; reflexivity.
Qed.

Lemma parse_company_name_between s lo hi :
  plain s = true ->
  Sql.parse (((Company.filter_base +++ " WHERE name ILIKE '%" +++ s +++ "%'")
              +++ " AND") +++ " num_employees BETWEEN "
             +++ show_Z lo +++ " AND " +++ show_Z hi)
  = Some (Sql.Select company_returning "companies"
            (Some (Sql.EAnd
                     (Sql.EILike (Sql.AColumn "name")
                        (Sql.ALit ("%" +++ s +++ "%")))
                     (Sql.EBetween (Sql.AColumn "num_employees")
                        (Sql.AInt lo) (Sql.AInt hi))))
            None).
Proof.
  intros Hp. unfold Sql.parse.
  rewrite search_text.
  rewrite (lex_search_then _ _ s _
             [Sql.TKw Sql.KAnd; Sql.TId "num_employees"; Sql.TKw Sql.KBetween]
             (show_Z lo +++ " AND " +++ show_Z hi) Hp company_search_head)
    by (intros acc; reflexivity).
  destruct (lex_between_tail EmptyString [] lo hi eq_refl)
    as [nlo [nhi [Hlo [Hhi H]]]].
  change (EmptyString +++ show_Z lo +++ " AND " +++ show_Z hi)
    with (show_Z lo +++ " AND " +++ show_Z hi) in H.
  cbn [app] in H. rewrite H.
  destruct Hlo as [->|[n [-> ->]]]; destruct Hhi as [->|[m [-> ->]]];
    reflexivity.
Qed.

Lemma parse_company_name_dangling s :
  plain s = true ->
  Sql.parse ((Company.filter_base +++ " WHERE name ILIKE '%" +++ s +++ "%'")
             +++ " AND") = None.
Proof.
  intros Hp. unfold Sql.parse.
  rewrite <- (append_nil_r " AND").
  replace ((Company.filter_base +++ " WHERE name ILIKE '%" +++ s +++ "%'")
           +++ " AND" +++ EmptyString)
    with (((Company.filter_base +++ " WHERE name ILIKE '%") +++ s +++ "%'")
          +++ " " +++ "AND") by (now rewrite !append_assoc).
  rewrite (lex_search_then _ _ s " " [] "AND" Hp company_search_head)
    by (intros acc; reflexivity).
  reflexivity.
Qed.

Lemma name_and_qualifies s c (r : Sql.CompanyRow) :
  plain s = true ->
  Sql.qualifies
    (Some (Sql.CAnd (Sql.CILike (Sql.SColumn "name")
                       (Sql.SConst (Sql.VText ("%" +++ s +++ "%")))) c)) r
  = (matches_search s (Sql.co_name r) && Sql.qualifies (Some c) r)%bool.
Proof.
  intros Hp. unfold Sql.qualifies.
  cbn [Sql.holds Sql.scalar_value Sql.column_value Sql.company_table
       Sql.company_value String.eqb Ascii.eqb Bool.eqb].
  rewrite (ilike_search s _ Hp).
  destruct (matches_search s (Sql.co_name r)), (Sql.holds c r) as [[]|];
    reflexivity.
Qed.

Lemma bind_company_search s e c :
  plain s = true ->
  Sql.bind_expr (R := Sql.CompanyRow) [] e = Sql.Done c ->
  Sql.bind_expr (R := Sql.CompanyRow) []
    (Sql.EAnd (Sql.EILike (Sql.AColumn "name") (Sql.ALit ("%" +++ s +++ "%"))) e)
  = Sql.Done (Sql.CAnd (Sql.CILike (Sql.SColumn "name")
                          (Sql.SConst (Sql.VText ("%" +++ s +++ "%")))) c).
Proof.
  intros Hp Hb. cbn [Sql.bind_expr].
  cbn [Sql.bind_atom Sql.column_type Sql.assoc Sql.columns Sql.company_table
       String.eqb Ascii.eqb Bool.eqb Sql.and_then Sql.as_type Sql.compatible
       Sql.coerce Sql.constant_pattern_ok].
  rewrite (pattern_ok_search s Hp). cbn [Sql.require Sql.and_then].
  cbn [Sql.bind_expr] in Hb. rewrite Hb. reflexivity.
Qed.

(** [Company.filter] with a name and bounds on the number of employees, the
    name holding none of the characters that the statement reads as more
    than themselves and the bounds being numbers in the range of the
    column: the criteria are joined by AND. The companies that come back,
    in table order, are those whose name holds the text, letter case apart,
    and whose number of employees is above a lone lower bound, below a lone
    upper bound, or from the lower to the upper bound when both are
    given. *)
Theorem company_filter_name_and_bounds (d : Db) (filters : JsObj) (s : string) :
  plain s = true ->
  get filters "name" = JStr s ->
  (forall z,
      get filters "maxEmployees" = JUndef ->
      parseInt (get filters "minEmployees") = Some z ->
      Sql.in_int4 z = true ->
      exists d',
        Company.filter filters d =
        (Ok (map company_result
               (filter (fun r => matches_search s (Sql.co_name r)
                                 && known_and (fun k => (z <? k)%Z)
                                      (Sql.co_num_employees r))
                       (Sql.companies (store d)))), d')
        /\ store d' = store d)
  /\ (forall z,
      get filters "minEmployees" = JUndef ->
      parseInt (get filters "maxEmployees") = Some z ->
      Sql.in_int4 z = true ->
      exists d',
        Company.filter filters d =
        (Ok (map company_result
               (filter (fun r => matches_search s (Sql.co_name r)
                                 && known_and (fun k => (k <? z)%Z)
                                      (Sql.co_num_employees r))
                       (Sql.companies (store d)))), d')
        /\ store d' = store d)
  /\ (forall lo hi,
      parseInt (get filters "minEmployees") = Some lo ->
      parseInt (get filters "maxEmployees") = Some hi ->
      Sql.in_int4 lo = true -> Sql.in_int4 hi = true ->
      (lo <= hi)%Z ->
      exists d',
        Company.filter filters d =
        (Ok (map company_result
               (filter (fun r => matches_search s (Sql.co_name r)
                                 && known_and
                                      (fun k => (lo <=? k)%Z && (k <=? hi)%Z)
                                      (Sql.co_num_employees r))
                       (Sql.companies (store d)))), d')
        /\ store d' = store d).
Proof.
  intros Hp Hname. split; [|split].
  - intros z Hmax Hmin _.
    unfold Company.filter, Company.filter_statement.
    rewrite (company_name_and_bound_keys filters s Hname)
      by (left; exact (parseInt_defined _ _ Hmin)).
    rewrite Hname, Hmax, (parseInt_defined _ _ Hmin), Hmin.
    cbn [defined andb negb show_number to_string].
    unfold bind, lift, ret.
    rewrite (company_select_where _ _ d _
               (parse_company_name_bound s " num_employees > " Sql.OpGt Sql.TGt z
                  Hp (fun acc => eq_refl) eq_refl)
               (bind_company_search s
                  (Sql.ECmp Sql.OpGt (Sql.AColumn "num_employees") (Sql.AInt z))
                  (Sql.CCmp Sql.OpGt (Sql.SColumn "num_employees")
                     (Sql.SConst (Sql.VInt z))) Hp eq_refl)).
    eexists. split; [apply (f_equal2 pair); [|reflexivity]|reflexivity].
    f_equal. f_equal. apply filter_ext. intros r.
    rewrite (name_and_qualifies s _ r Hp), int_cmp_qualifies. f_equal.
    destruct (Sql.co_num_employees r); [apply gt_holds|reflexivity].
  - intros z Hmin Hmax _.
    unfold Company.filter, Company.filter_statement.
    rewrite (company_name_and_bound_keys filters s Hname)
      by (right; exact (parseInt_defined _ _ Hmax)).
    rewrite Hname, Hmin, (parseInt_defined _ _ Hmax), Hmax.
    cbn [defined andb negb show_number to_string].
    unfold bind, lift, ret.
    rewrite (company_select_where _ _ d _
               (parse_company_name_bound s " num_employees < " Sql.OpLt Sql.TLt z
                  Hp (fun acc => eq_refl) eq_refl)
               (bind_company_search s
                  (Sql.ECmp Sql.OpLt (Sql.AColumn "num_employees") (Sql.AInt z))
                  (Sql.CCmp Sql.OpLt (Sql.SColumn "num_employees")
                     (Sql.SConst (Sql.VInt z))) Hp eq_refl)).
    eexists. split; [apply (f_equal2 pair); [|reflexivity]|reflexivity].
    f_equal. f_equal. apply filter_ext. intros r.
    rewrite (name_and_qualifies s _ r Hp), int_cmp_qualifies. f_equal.
  - intros lo hi Hmin Hmax _ _ Hle.
    unfold Company.filter, Company.filter_statement.
    rewrite (company_name_and_bound_keys filters s Hname)
      by (left; exact (parseInt_defined _ _ Hmin)).
    rewrite Hname, (parseInt_defined _ _ Hmin), (parseInt_defined _ _ Hmax),
      Hmin, Hmax.
    cbn [defined andb negb show_number to_string js_lt].
    replace (hi <? lo)%Z with false by (symmetry; apply Z.ltb_ge; exact Hle).
    unfold bind, lift, ret.
    rewrite (company_select_where _ _ d _
               (parse_company_name_between s lo hi Hp)
               (bind_company_search s
                  (Sql.EBetween (Sql.AColumn "num_employees")
                     (Sql.AInt lo) (Sql.AInt hi))
                  (Sql.CAnd
                     (Sql.CCmp Sql.OpGe (Sql.SColumn "num_employees")
                        (Sql.SConst (Sql.VInt lo)))
                     (Sql.CCmp Sql.OpLe (Sql.SColumn "num_employees")
                        (Sql.SConst (Sql.VInt hi)))) Hp eq_refl)).
    eexists. split; [apply (f_equal2 pair); [|reflexivity]|reflexivity].
    f_equal. f_equal. apply filter_ext. intros r.
    rewrite (name_and_qualifies s _ r Hp). f_equal.
    unfold Sql.qualifies.
    cbn [Sql.holds Sql.scalar_value Sql.column_value Sql.company_table
         Sql.company_value String.eqb Ascii.eqb Bool.eqb].
    destruct (Sql.co_num_employees r) as [k|]; cbn; [|reflexivity].
    rewrite !Z.leb_compare, (Z.compare_antisym k lo).
    destruct (k ?= lo)%Z, (k ?= hi)%Z; reflexivity.
Qed.

Lemma company_filter_name_and_bounds_witness :
  exists d',
    Company.filter [("name", JStr "o"); ("minEmployees", JStr "10")] example_db =
    (Ok (map company_result
           (filter (fun r => matches_search "o" (Sql.co_name r)
                             && known_and (fun k => (10 <? k)%Z)
                                  (Sql.co_num_employees r))
                   (Sql.companies (store example_db)))), d')
    /\ store d' = store example_db.
Proof.
  apply (proj1 (company_filter_name_and_bounds example_db
                  [("name", JStr "o"); ("minEmployees", JStr "10")] "o"
                  eq_refl eq_refl) 10%Z); reflexivity.
Defined.

(** [Company.filter] with a name, no bound on the number of employees, and
    any further key: the statement ends in a dangling AND, the store
    refuses it as malformed, and nothing is changed. *)
Theorem company_filter_name_and_unknown_key (d : Db) (filters : JsObj)
    (s : string) :
  plain s = true ->
  get filters "name" = JStr s ->
  get filters "minEmployees" = JUndef ->
  get filters "maxEmployees" = JUndef ->
  (1 < length (Object_keys filters))%nat ->
  exists d',
    Company.filter filters d = (Throw (StoreError SyntaxFailure), d')
    /\ store d' = store d.
Proof.
  intros Hp Hname Hmin Hmax Hkeys.
  unfold Company.filter, Company.filter_statement.
  rewrite Hname, Hmin, Hmax. apply Nat.ltb_lt in Hkeys. rewrite Hkeys.
  cbn [defined andb negb to_string]. unfold bind, lift, ret, db_query, Sql.query.
  rewrite (parse_company_name_dangling s Hp).
  eexists. split; reflexivity.
Qed.

Lemma company_filter_name_and_unknown_key_witness :
  exists d',
    Company.filter [("name", JStr "o"); ("city", JStr "x")] example_db
    = (Throw (StoreError SyntaxFailure), d')
    /\ store d' = store example_db.
Proof.
  apply (company_filter_name_and_unknown_key example_db
           [("name", JStr "o"); ("city", JStr "x")] "o"); try reflexivity.
  simpl. lia.
Defined.

(** ** Job.filter on the salary *)

Lemma job_select_where e c d sql :
  Sql.parse sql = Some (Sql.Select job_items "jobs" (Some e) None) ->
  Sql.bind_expr (R := Sql.JobRow) [] e = Sql.Done c ->
  db_query sql [] d =
  (Ok (map job_result (filter (Sql.qualifies (Some c)) (Sql.jobs (store d)))),
   {| store := store d; log := log d ++ [(sql, [])] |}).
Proof.
  intros Hp Hb. unfold db_query, Sql.query. rewrite Hp.
  cbn [Sql.execute String.eqb Ascii.eqb Bool.eqb map].
  unfold Sql.run_select.
  cbn [Sql.and_then Sql.bind_items Sql.traverse job_items
       Sql.bind_item Sql.si_column Sql.column_type Sql.assoc Sql.columns
       Sql.job_table String.eqb Ascii.eqb Bool.eqb Sql.bind_where].
  rewrite Hb. reflexivity.
Qed.

Lemma job_select_fails e f d sql :
  Sql.parse sql = Some (Sql.Select job_items "jobs" (Some e) None) ->
  Sql.bind_expr (R := Sql.JobRow) [] e = Sql.Failed f ->
  db_query sql [] d =
  (Throw (StoreError f), {| store := store d; log := log d ++ [(sql, [])] |}).
Proof.
  intros Hp Hb. unfold db_query, Sql.query. rewrite Hp.
  cbn [Sql.execute String.eqb Ascii.eqb Bool.eqb map].
  unfold Sql.run_select.
  cbn [Sql.and_then Sql.bind_items Sql.traverse job_items
       Sql.bind_item Sql.si_column Sql.column_type Sql.assoc Sql.columns
       Sql.job_table String.eqb Ascii.eqb Bool.eqb Sql.bind_where].
  rewrite Hb. reflexivity.
Qed.

Lemma parse_job_min_salary z :
  Sql.parse (Job.filter_base +++ " WHERE salary > " +++ show_Z z)
  = Some (Sql.Select job_items "jobs"
            (Some (Sql.ECmp Sql.OpGt (Sql.AColumn "salary") (Sql.AInt z)))
            None).
Proof.
  unfold Sql.parse. rewrite <- append_assoc.
  destruct (lex_number_tail (Job.filter_base +++ " WHERE salary > ") _ z
              ltac:(vm_compute; reflexivity)) as [->|[n [-> ->]]];
    reflexivity.
Qed.

Lemma salary_above_qualifies z (r : Sql.JobRow) :
  Sql.qualifies
    (Some (Sql.CCmp Sql.OpGt (Sql.SColumn "salary") (Sql.SConst (Sql.VInt z)))) r
  = known_and (fun k => (z <? k)%Z) (Sql.job_salary r).
Proof.
  unfold Sql.qualifies.
  cbn [Sql.holds Sql.scalar_value Sql.column_value Sql.job_table
       Sql.job_value String.eqb Ascii.eqb Bool.eqb].
  destruct (Sql.job_salary r) as [k|]; cbn; [|reflexivity].
  rewrite Z.ltb_compare, (Z.compare_antisym k z).
  now destruct (Z.compare k z).
Qed.

(** [Job.filter] with one key, [minSalary], its value a number in the range
    of the column: the bound is exclusive. The jobs that pay more than the
    bound come back in table order; a job without a salary never does. *)
Theorem job_filter_min_salary (d : Db) (filters : JsObj) (z : Z) :
  length (Object_keys filters) = 1%nat ->
  get filters "title" = JUndef ->
  parseInt (get filters "minSalary") = Some z ->
  Sql.in_int4 z = true ->
  exists d',
    Job.filter filters d =
    (Ok (map job_result
           (filter (fun r => known_and (fun k => (z <? k)%Z) (Sql.job_salary r))
                   (Sql.jobs (store d)))), d')
    /\ store d' = store d.
Proof.
  intros Hkeys Htitle Hmin _. unfold Job.filter, Job.filter_statement.
  rewrite Hkeys, Htitle, (parseInt_defined _ _ Hmin), Hmin.
  cbn [Nat.eqb Nat.ltb Nat.leb defined show_number].
  rewrite (job_select_where
             (Sql.ECmp Sql.OpGt (Sql.AColumn "salary") (Sql.AInt z))
             (Sql.CCmp Sql.OpGt (Sql.SColumn "salary") (Sql.SConst (Sql.VInt z)))
             d _ (parse_job_min_salary z) eq_refl).
  eexists. split; [apply (f_equal2 pair); [|reflexivity]|reflexivity].
  f_equal. f_equal. apply filter_ext. intros r. apply salary_above_qualifies.
Qed.

Lemma job_filter_min_salary_witness :
  exists d',
    Job.filter [("minSalary", JStr "100")] example_db =
    (Ok (map job_result
           (filter (fun r => known_and (fun k => (100 <? k)%Z) (Sql.job_salary r))
                   (Sql.jobs (store example_db)))), d')
    /\ store d' = store example_db.
Proof.
  apply (job_filter_min_salary example_db [("minSalary", JStr "100")] 100);
    reflexivity.
Defined.

(** [Job.filter] with one key that is neither [title] nor [minSalary]:
    whatever the key and its value, the filter is the one on equity, and the
    jobs with a positive equity come back in table order. *)
Theorem job_filter_lone_other_key (d : Db) (filters : JsObj) :
  length (Object_keys filters) = 1%nat ->
  get filters "title" = JUndef ->
  get filters "minSalary" = JUndef ->
  exists d',
    Job.filter filters d =
    (Ok (map job_result (filter positive_equity (Sql.jobs (store d)))), d')
    /\ store d' = store d.
Proof.
  intros Hkeys Htitle Hmin. unfold Job.filter, Job.filter_statement.
  rewrite Hkeys, Htitle, Hmin.
  cbn [Nat.eqb Nat.ltb Nat.leb defined].
  assert (Hparse :
            Sql.parse (Job.filter_base
                       +++ " WHERE equity IS NOT NULL AND equity > 0")
            = Some (Sql.Select job_items "jobs"
                      (Some (Sql.EAnd (Sql.EIsNotNull (Sql.AColumn "equity"))
                               (Sql.ECmp Sql.OpGt (Sql.AColumn "equity")
                                  (Sql.AInt 0))))
                      None)) by (vm_compute; reflexivity).
  rewrite (job_select_where _
             (Sql.CAnd (Sql.CIsNotNull (Sql.SColumn "equity"))
                (Sql.CCmp Sql.OpGt (Sql.SColumn "equity")
                   (Sql.SConst (Sql.VInt 0))))
             d _ Hparse eq_refl).
  eexists. split; [apply (f_equal2 pair); [|reflexivity]|reflexivity].
  f_equal. f_equal. apply filter_ext. apply equity_condition_qualifies.
Qed.

Lemma job_filter_lone_other_key_witness :
  exists d',
    Job.filter [("company", JStr "acme")] example_db =
    (Ok (map job_result (filter positive_equity (Sql.jobs (store example_db)))),
     d')
    /\ store d' = store example_db.
Proof.
  apply (job_filter_lone_other_key example_db [("company", JStr "acme")]);
    reflexivity.
Defined.

(** [Job.filter] with one key, [minSalary], whose value, in ASCII
    characters, is not a number: the statement carries [NaN] in place of the
    bound, the store refuses it, and nothing is changed. *)
Theorem job_filter_salary_not_a_number (d : Db) (filters : JsObj) :
  length (Object_keys filters) = 1%nat ->
  get filters "title" = JUndef ->
  defined (get filters "minSalary") = true ->
  ascii_text (to_string (get filters "minSalary")) = true ->
  parseInt (get filters "minSalary") = None ->
  exists d',
    Job.filter filters d = (Throw (StoreError UndefinedName), d')
    /\ store d' = store d.
Proof.
  intros Hkeys Htitle Hd _ Hmin. unfold Job.filter, Job.filter_statement.
  rewrite Hkeys, Htitle, Hd, Hmin.
  cbn [Nat.eqb Nat.ltb Nat.leb defined show_number].
  eexists. split; reflexivity.
Qed.

Lemma job_filter_salary_not_a_number_witness :
  exists d',
    Job.filter [("minSalary", JStr "lots")] example_db
    = (Throw (StoreError UndefinedName), d')
    /\ store d' = store example_db.
Proof.
  apply (job_filter_salary_not_a_number example_db [("minSalary", JStr "lots")]);
    reflexivity.
Defined.

(** ** Job.filter on a title and a salary together *)

Lemma job_search_head :
  Sql.lex_run Sql.LStart ((Job.filter_base +++ " WHERE") +++ " title ILIKE '%")
  = Some ([Sql.TKw Sql.KSelect; Sql.TId "id"; Sql.TComma; Sql.TId "title";
           Sql.TComma; Sql.TId "salary"; Sql.TComma; Sql.TId "equity";
           Sql.TComma; Sql.TId "company_handle"; Sql.TKw Sql.KFrom;
           Sql.TId "jobs"; Sql.TKw Sql.KWhere; Sql.TId "title";
           Sql.TKw Sql.KIlike], Sql.LStr "%").
Proof. vm_compute. reflexivity. Qed.

Lemma parse_job_title_salary s z :
  plain s = true ->
  Sql.parse ((((Job.filter_base +++ " WHERE") +++ " title ILIKE '%" +++ s +++ "%'")
              +++ " AND") +++ " salary > " +++ show_Z z)
  = Some (Sql.Select job_items "jobs"
            (Some (Sql.EAnd
                     (Sql.EILike (Sql.AColumn "title")
                        (Sql.ALit ("%" +++ s +++ "%")))
                     (Sql.ECmp Sql.OpGt (Sql.AColumn "salary") (Sql.AInt z))))
            None).
Proof.
  intros Hp. unfold Sql.parse.
  rewrite search_text.
  rewrite (lex_search_then _ _ s _
             [Sql.TKw Sql.KAnd; Sql.TId "salary"; Sql.TGt]
             (show_Z z) Hp job_search_head) by (intros acc; reflexivity).
  destruct (lex_number_tail EmptyString [] z eq_refl) as [H|[n [-> H]]];
    cbn [append app] in H; rewrite H; reflexivity.
Qed.

Lemma parse_job_salary_title s z :
  plain s = true ->
  Sql.parse ((((Job.filter_base +++ " WHERE") +++ " salary > " +++ show_Z z)
              +++ " AND") +++ " title ILIKE '%" +++ s +++ "%'")
  = Some (Sql.Select job_items "jobs"
            (Some (Sql.EAnd
                     (Sql.ECmp Sql.OpGt (Sql.AColumn "salary") (Sql.AInt z))
                     (Sql.EILike (Sql.AColumn "title")
                        (Sql.ALit ("%" +++ s +++ "%")))))
            None).
Proof.
  intros Hp. unfold Sql.parse, Sql.lex.
  replace ((((Job.filter_base +++ " WHERE") +++ " salary > " +++ show_Z z)
            +++ " AND") +++ " title ILIKE '%" +++ s +++ "%'")
    with (((Job.filter_base +++ " WHERE") +++ " salary > ")
          +++ (show_Z z +++ String " " ("AND title ILIKE '%" +++ s +++ "%'")))
    by (now rewrite !append_assoc).
  rewrite lex_from_run, lex_run_app.
  replace (Sql.lex_run Sql.LStart ((Job.filter_base +++ " WHERE") +++ " salary > "))
    with (Some ([Sql.TKw Sql.KSelect; Sql.TId "id"; Sql.TComma; Sql.TId "title";
                 Sql.TComma; Sql.TId "salary"; Sql.TComma; Sql.TId "equity";
                 Sql.TComma; Sql.TId "company_handle"; Sql.TKw Sql.KFrom;
                 Sql.TId "jobs"; Sql.TKw Sql.KWhere; Sql.TId "salary";
                 Sql.TGt], Sql.LStart)) by (vm_compute; reflexivity).
  destruct (lex_run_number_space z ("AND title ILIKE '%" +++ s +++ "%'"))
    as [nt [Hnt ->]].
  rewrite (lex_run_search "AND title ILIKE '%"
             [Sql.TKw Sql.KAnd; Sql.TId "title"; Sql.TKw Sql.KIlike] s Hp eq_refl).
  destruct Hnt as [->|[n [-> ->]]]; reflexivity.
Qed.

Lemma title_and_salary_qualifies s z (r : Sql.JobRow) :
  plain s = true ->
  Sql.qualifies
    (Some (Sql.CAnd
             (Sql.CILike (Sql.SColumn "title")
                (Sql.SConst (Sql.VText ("%" +++ s +++ "%"))))
             (Sql.CCmp Sql.OpGt (Sql.SColumn "salary")
                (Sql.SConst (Sql.VInt z))))) r
  = (matches_search s (Sql.job_title r)
     && known_and (fun k => (z <? k)%Z) (Sql.job_salary r))%bool.
Proof.
  intros Hp. rewrite <- salary_above_qualifies. unfold Sql.qualifies.
  cbn [Sql.holds Sql.scalar_value Sql.column_value Sql.job_table
       Sql.job_value String.eqb Ascii.eqb Bool.eqb].
  rewrite (ilike_search s _ Hp).
  destruct (matches_search s (Sql.job_title r)),
           (option_map _ _) as [[]|]; reflexivity.
Qed.

Lemma salary_and_title_qualifies s z (r : Sql.JobRow) :
  plain s = true ->
  Sql.qualifies
    (Some (Sql.CAnd
             (Sql.CCmp Sql.OpGt (Sql.SColumn "salary")
                (Sql.SConst (Sql.VInt z)))
             (Sql.CILike (Sql.SColumn "title")
                (Sql.SConst (Sql.VText ("%" +++ s +++ "%")))))) r
  = (matches_search s (Sql.job_title r)
     && known_and (fun k => (z <? k)%Z) (Sql.job_salary r))%bool.
Proof.
  intros Hp. rewrite <- salary_above_qualifies. unfold Sql.qualifies.
  cbn [Sql.holds Sql.scalar_value Sql.column_value Sql.job_table
       Sql.job_value String.eqb Ascii.eqb Bool.eqb].
  rewrite (ilike_search s _ Hp).
  destruct (matches_search s (Sql.job_title r)),
           (option_map _ _) as [[]|]; reflexivity.
Qed.

Lemma bind_job_search s :
  plain s = true ->
  Sql.bind_expr (R := Sql.JobRow) []
    (Sql.EILike (Sql.AColumn "title") (Sql.ALit ("%" +++ s +++ "%")))
  = Sql.Done (Sql.CILike (Sql.SColumn "title")
                (Sql.SConst (Sql.VText ("%" +++ s +++ "%")))).
Proof.
  intros Hp. cbn [Sql.bind_expr].
  cbn [Sql.bind_atom Sql.column_type Sql.assoc Sql.columns Sql.job_table
       String.eqb Ascii.eqb Bool.eqb Sql.and_then Sql.as_type Sql.compatible
       Sql.coerce Sql.constant_pattern_ok].
  rewrite (pattern_ok_search s Hp). reflexivity.
Qed.

Lemma bind_and {R} `{Sql.Table R} e1 e2 c1 c2 :
  Sql.bind_expr (R := R) [] e1 = Sql.Done c1 ->
  Sql.bind_expr (R := R) [] e2 = Sql.Done c2 ->
  Sql.bind_expr (R := R) [] (Sql.EAnd e1 e2) = Sql.Done (Sql.CAnd c1 c2).
Proof. intros H1 H2. cbn [Sql.bind_expr]. now rewrite H1, H2. Qed.

(** [Job.filter] with the two keys [title] and [minSalary], in either
    order, the title holding none of the characters that the statement reads
    as more than themselves and the bound being a number in the range of the
    column: the two criteria are joined by AND. The jobs whose title holds
    the text, letter case apart, and that pay more than the bound come back
    in table order. *)
Theorem job_filter_title_and_salary (d : Db) (s : string) (v : JsVal) (z : Z) :
  plain s = true ->
  parseInt v = Some z ->
  Sql.in_int4 z = true ->
  forall filters,
    filters = [("title", JStr s); ("minSalary", v)]
    \/ filters = [("minSalary", v); ("title", JStr s)] ->
    exists d',
      Job.filter filters d =
      (Ok (map job_result
             (filter (fun r => matches_search s (Sql.job_title r)
                               && known_and (fun k => (z <? k)%Z)
                                    (Sql.job_salary r))
                     (Sql.jobs (store d)))), d')
      /\ store d' = store d.
Proof.
  intros Hp Hv _ filters [-> | ->]; unfold Job.filter, Job.filter_statement;
    cbn [Object_keys map fst length Nat.eqb Nat.ltb Nat.leb Job.filter_loop
         String.eqb Ascii.eqb Bool.eqb get own_property to_string];
    rewrite Hv; cbn [show_number].
  - rewrite (job_select_where _
               (Sql.CAnd
                  (Sql.CILike (Sql.SColumn "title")
                     (Sql.SConst (Sql.VText ("%" +++ s +++ "%"))))
                  (Sql.CCmp Sql.OpGt (Sql.SColumn "salary")
                     (Sql.SConst (Sql.VInt z))))
               d _ (parse_job_title_salary s z Hp)).
    + eexists. split; [apply (f_equal2 pair); [|reflexivity]|reflexivity].
      f_equal. f_equal. apply filter_ext. intros r.
      now apply title_and_salary_qualifies.
    + apply bind_and; [now apply bind_job_search|reflexivity].
  - rewrite (job_select_where _
               (Sql.CAnd
                  (Sql.CCmp Sql.OpGt (Sql.SColumn "salary")
                     (Sql.SConst (Sql.VInt z)))
                  (Sql.CILike (Sql.SColumn "title")
                     (Sql.SConst (Sql.VText ("%" +++ s +++ "%")))))
               d _ (parse_job_salary_title s z Hp)).
    + eexists. split; [apply (f_equal2 pair); [|reflexivity]|reflexivity].
      f_equal. f_equal. apply filter_ext. intros r.
      now apply salary_and_title_qualifies.
    + apply bind_and; [reflexivity|now apply bind_job_search].
Qed.

Lemma job_filter_title_and_salary_witness :
  exists d',
    Job.filter [("minSalary", JStr "100"); ("title", JStr "job")] example_db =
    (Ok (map job_result
           (filter (fun r => matches_search "job" (Sql.job_title r)
                             && known_and (fun k => (100 <? k)%Z)
                                  (Sql.job_salary r))
                   (Sql.jobs (store example_db)))), d')
    /\ store d' = store example_db.
Proof.
  apply (job_filter_title_and_salary example_db "job" (JStr "100") 100);
    try reflexivity.
  right. reflexivity.
Defined.

(** ** The SET clause read back *)

Lemma lex_run_quoted acc c :
  quote_free c = true ->
  Sql.lex_run (Sql.LQId acc) c = Some ([], Sql.LQId (acc +++ c)).
Proof.
  revert acc. induction c as [|a c IH]; intros acc Hq.
  - cbn. now rewrite append_nil_r.
  - simpl in Hq. apply andb_prop in Hq as [Ha Hq]. apply negb_true_iff in Ha.
    cbn [Sql.lex_run].
    assert (Hstep : Sql.lex_step (Sql.LQId acc) a
                    = Some ([], Sql.LQId (Sql.snoc acc a))).
    { destruct a as [[] [] [] [] [] [] [] []]; try discriminate Ha; reflexivity. }
    rewrite Hstep, (IH _ Hq). unfold Sql.snoc. now rewrite append_assoc.
Qed.

Lemma quotable_lexes c : quotable c = true -> lexes_quoted c.
Proof.
  intros Hq. unfold lexes_quoted.
  assert (Hne : c <> EmptyString) by (destruct c; [discriminate Hq|discriminate]).
  assert (Hf : quote_free c = true) by (destruct c; [discriminate Hq|exact Hq]).
  change (dq +++ c +++ dq +++ "=$") with (String "034" (c +++ dq +++ "=$")).
  cbn [Sql.lex_run].
  change (Sql.lex_step Sql.LStart "034")
    with (Some (@nil Sql.token, Sql.LQId EmptyString)).
  cbv beta iota.
  rewrite lex_run_app, (lex_run_quoted EmptyString c Hf).
  cbn [append]. destruct c as [|a c]; [congruence|]. reflexivity.
Qed.

Lemma nth_error_assignments cols start i c :
  nth_error cols i = Some c ->
  nth_error (assignments cols start) i = Some (c, Sql.AParam (S (start + i))).
Proof.
  revert start i. induction cols as [|x cols IH]; intros start i Hi.
  - destruct i; discriminate Hi.
  - destruct i as [|i]; cbn in *.
    + injection Hi as ->. now rewrite Nat.add_0_r.
    + rewrite (IH (S start) i Hi). now rewrite Nat.add_succ_r.
Qed.

(** [sqlForPartialUpdate] on a payload that is not empty and whose column
    names can stand between double quotes: the values come back in the order
    of the fields, and the SET clause, read back by the store as it stands in
    an UPDATE (a space follows it), is one assignment per field, in that
    order, the field at position [i] being given the placeholder [$(i+1)],
    which is the position of its own value among the bind values. *)
Theorem sqlForPartialUpdate_read_back (data jsToSql : JsObj) :
  data <> [] ->
  Forall (fun k => quotable (column_name jsToSql k) = true) (Object_keys data) ->
  exists clause,
    sqlForPartialUpdate data jsToSql = Ok clause
    /\ values clause = Object_values data
    /\ read_assignments (setCols clause +++ " ")
       = Some (assignments (map (column_name jsToSql) (Object_keys data)) 0, [])
    /\ forall i kv,
         nth_error data i = Some kv ->
         nth_error (assignments (map (column_name jsToSql) (Object_keys data)) 0) i
         = Some (column_name jsToSql (fst kv), Sql.AParam (S i))
         /\ nth_error (values clause) i = Some (snd kv).
Proof.
  intros Hne Hq. rewrite (sqlForPartialUpdate_nonempty data jsToSql Hne).
  eexists. split; [reflexivity|]. cbn [values setCols].
  split; [reflexivity|]. split.
  - unfold read_assignments, Sql.lex.
    assert (Hkeys : Object_keys data <> []) by (destruct data; [congruence|discriminate]).
    rewrite lex_from_run.
    change (String.concat ", "
              (map_with_index (column_assignment jsToSql) 0 (Object_keys data))
            +++ " ")
      with (String.concat ", "
              (map_with_index (column_assignment jsToSql) 0 (Object_keys data))
            +++ " " +++ EmptyString).
    rewrite (lex_run_setCols jsToSql (Object_keys data) 0 EmptyString Hkeys).
    + cbn [Sql.lex_run Sql.lex_end]. rewrite !app_nil_r.
      unfold Sql.parse_assignments.
      rewrite <- (app_nil_r (assignment_tokens _ 0)) at 2.
      apply parse_list_assignments.
      * destruct (Object_keys data); [congruence|discriminate].
      * pose proof (assignment_tokens_length
                      (map (column_name jsToSql) (Object_keys data)) 0). lia.
      * exact I.
    + eapply Forall_impl; [|exact Hq]. intros k Hk. now apply quotable_lexes.
  - intros i kv Hi. split.
    + apply (nth_error_assignments _ 0 i). unfold Object_keys.
      rewrite map_map. now apply map_nth_error with (f := fun x => column_name jsToSql (fst x)).
    + unfold Object_values. now apply map_nth_error.
Qed.

Lemma sqlForPartialUpdate_read_back_witness :
  exists clause,
    sqlForPartialUpdate [("firstName", JStr "Aliya"); ("age", JNum 32)]
      [("firstName", JStr "first_name")] = Ok clause
    /\ values clause
       = Object_values [("firstName", JStr "Aliya"); ("age", JNum 32)]
    /\ read_assignments (setCols clause +++ " ")
       = Some (assignments
                 (map (column_name [("firstName", JStr "first_name")])
                    (Object_keys [("firstName", JStr "Aliya"); ("age", JNum 32)]))
                 0, [])
    /\ forall i kv,
         nth_error [("firstName", JStr "Aliya"); ("age", JNum 32)] i = Some kv ->
         nth_error
           (assignments
              (map (column_name [("firstName", JStr "first_name")])
                 (Object_keys [("firstName", JStr "Aliya"); ("age", JNum 32)]))
              0) i
         = Some (column_name [("firstName", JStr "first_name")] (fst kv),
                 Sql.AParam (S i))
         /\ nth_error
              (values clause) i = Some (snd kv).
Proof.
  apply (sqlForPartialUpdate_read_back
           [("firstName", JStr "Aliya"); ("age", JNum 32)]
           [("firstName", JStr "first_name")]).
  - discriminate.
  - repeat constructor.
Defined.

(** ** create only adds *)

Lemma insert_company_appends params cols vals ret st :
  let st' := snd (Sql.insert_company params cols vals ret st) in
  Sql.jobs st' = Sql.jobs st
  /\ (Sql.companies st' = Sql.companies st
      \/ exists r, Sql.companies st' = Sql.companies st ++ [r]
                   /\ ~ In (Sql.co_handle r) (Sql.handles st)).
Proof.
  unfold Sql.insert_company.
  destruct (Sql.bind_insert params cols vals) as [vs|]; cbn [Sql.and_then];
    [|cbn; auto].
  destruct (Sql.bind_items ret) as [ret'|]; cbn [Sql.and_then]; [|cbn; auto].
  destruct (Sql.new_company vs) as [r|]; [|cbn; auto].
  destruct (Sql.mem (Sql.co_handle r) (Sql.handles st)) eqn:Hm;
    cbn [negb Sql.require Sql.and_then]; [cbn; auto|].
  cbn. split; [reflexivity|]. right. exists r. split; [reflexivity|].
  intros Hin. apply mem_In in Hin. rewrite Hin in Hm. discriminate.
Qed.

(** [Company.create], whatever it is given and whether it returns or
    throws, leaves the jobs and the companies of the store as they were,
    except that it may add one company at the end of the table, whose
    handle was not in the store. *)
Theorem company_create_only_adds (d : Db) (data : JsObj) :
  let d' := snd (Company.create data d) in
  Sql.jobs (store d') = Sql.jobs (store d)
  /\ (Sql.companies (store d') = Sql.companies (store d)
      \/ exists r,
           Sql.companies (store d') = Sql.companies (store d) ++ [r]
           /\ ~ In (Sql.co_handle r) (Sql.handles (store d))).
Proof.
  unfold Company.create, bind, throw, ret.
  destruct (db_query Company.duplicate_check_sql [get data "handle"] d)
    as [[rows|e] d1] eqn:E1.
  - assert (Hs : store d1 = store d).
    { pose proof (db_query_store Company.duplicate_check_sql
                    [get data "handle"] d) as Hq.
      rewrite E1 in Hq. cbn [snd] in Hq. rewrite Hq.
      unfold Sql.query. rewrite parse_company_duplicate_check.
      apply execute_select_store. }
    destruct (first_row rows); cbn [snd].
    + rewrite Hs. auto.
    + match goal with
      | |- context [db_query ?q ?p d1] =>
          pose proof (db_query_store q p d1) as Hq;
          destruct (db_query q p d1) as [[rows2|e2] d2]
      end; cbn [snd] in *; rewrite Hq; unfold Sql.query;
        rewrite parse_company_insert;
        cbn [Sql.execute String.eqb Ascii.eqb Bool.eqb];
        rewrite <- Hs; apply insert_company_appends.
  - pose proof (db_query_store Company.duplicate_check_sql
                  [get data "handle"] d) as Hq.
    rewrite E1 in Hq. cbn [snd] in *. rewrite Hq.
    unfold Sql.query. rewrite parse_company_duplicate_check.
    rewrite execute_select_store. auto.
Qed.

Lemma insert_job_appends params cols vals ret st :
  let st' := snd (Sql.insert_job params cols vals ret st) in
  Sql.companies st' = Sql.companies st
  /\ (Sql.jobs st' = Sql.jobs st
      \/ exists r, Sql.jobs st' = Sql.jobs st ++ [r]
                   /\ ~ In (Sql.job_id r) (map Sql.job_id (Sql.jobs st))
                   /\ In (Sql.job_company_handle r) (Sql.handles st)).
Proof.
  unfold Sql.insert_job.
  destruct (Sql.bind_insert params cols vals) as [vs|]; cbn [Sql.and_then];
    [|cbn; auto].
  destruct (Sql.bind_items ret) as [ret'|]; cbn [Sql.and_then]; [|cbn; auto].
  assert (Hcount : forall i l, Nat.eqb (Sql.count_id i l) 0 = true ->
                     ~ In i (map Sql.job_id l)).
  { intros i l. induction l as [|x l IH]; cbn; [tauto|].
    destruct (Z.eqb_spec (Sql.job_id x) i) as [->|Hne]; cbn.
    - discriminate.
    - intros Hc [Hx|Hx]; [congruence|]. now apply IH. }
  destruct (Sql.assoc vs "id") as [v|].
  - destruct (Sql.new_job v vs) as [r|]; [|cbn; auto].
    destruct (Nat.eqb (Sql.count_id (Sql.job_id r) (Sql.jobs st)) 0) eqn:Hc;
      cbn [andb]; [|cbn; auto].
    destruct (Sql.mem (Sql.job_company_handle r) (Sql.handles st)) eqn:Hm;
      cbn [andb]; [|cbn; auto].
    destruct (Sql.equity_in_range (Sql.job_equity r)); [|cbn; auto].
    cbn. split; [reflexivity|]. right. exists r. split; [reflexivity|].
    split; [now apply Hcount|now apply mem_In].
  - destruct (Sql.new_job _ vs) as [r|]; [|cbn; auto].
    change (Sql.jobs (Sql.with_seq st (Sql.jobs_id_seq st + 1)))
      with (Sql.jobs st).
    change (Sql.handles (Sql.with_seq st (Sql.jobs_id_seq st + 1)))
      with (Sql.handles st).
    destruct (Nat.eqb (Sql.count_id (Sql.job_id r) (Sql.jobs st)) 0) eqn:Hc;
      cbn [andb]; [|cbn; auto].
    destruct (Sql.mem (Sql.job_company_handle r) (Sql.handles st)) eqn:Hm;
      cbn [andb]; [|cbn; auto].
    destruct (Sql.equity_in_range (Sql.job_equity r)); [|cbn; auto].
    cbn. split; [reflexivity|]. right. exists r. split; [reflexivity|].
    split; [now apply Hcount|now apply mem_In].
Qed.

(** [Job.create], whatever it is given and whether it returns or throws,
    leaves the companies and the jobs of the store as they were, except that
    it may add one job at the end of the table, whose id was not in the
    store and whose company is a company of the store. *)
Theorem job_create_only_adds (d : Db) (data : JsObj) :
  let d' := snd (Job.create data d) in
  Sql.companies (store d') = Sql.companies (store d)
  /\ (Sql.jobs (store d') = Sql.jobs (store d)
      \/ exists r,
           Sql.jobs (store d') = Sql.jobs (store d) ++ [r]
           /\ ~ In (Sql.job_id r) (map Sql.job_id (Sql.jobs (store d)))
           /\ In (Sql.job_company_handle r) (Sql.handles (store d))).
Proof.
  unfold Job.create, bind, throw, ret.
  destruct (db_query Job.duplicate_check_sql
              [get data "title"; get data "company_handle"] d)
    as [[rows|e] d1] eqn:E1.
  - assert (Hs : store d1 = store d).
    { pose proof (db_query_store Job.duplicate_check_sql
                    [get data "title"; get data "company_handle"] d) as Hq.
      rewrite E1 in Hq. cbn [snd] in Hq. rewrite Hq.
      unfold Sql.query. rewrite parse_job_duplicate_check.
      apply execute_select_store. }
    destruct (first_row rows); cbn [snd].
    + rewrite Hs. auto.
    + match goal with
      | |- context [db_query ?q ?p d1] =>
          pose proof (db_query_store q p d1) as Hq;
          destruct (db_query q p d1) as [[rows2|e2] d2]
      end; cbn [snd] in *; rewrite Hq; unfold Sql.query;
        rewrite parse_job_insert;
        cbn [Sql.execute String.eqb Ascii.eqb Bool.eqb];
        rewrite <- Hs; apply insert_job_appends.
  - pose proof (db_query_store Job.duplicate_check_sql
                  [get data "title"; get data "company_handle"] d) as Hq.
    rewrite E1 in Hq. cbn [snd] in *. rewrite Hq.
    unfold Sql.query. rewrite parse_job_duplicate_check.
    rewrite execute_select_store. auto.
Qed.

(** ** The statement of an update *)

Lemma company_update_log key data d :
  data <> [] ->
  log (snd (Company.update key data d)) =
  log d ++
  [(Company.update_sql
      (String.concat ", "
         (map_with_index (column_assignment Company.jsToSql) 0 (Object_keys data)))
      ("$" +++ show_Z (Z.of_nat (length (Object_keys data)) + 1)),
    Object_values data ++ [key])].
Proof.
  intros Hne. unfold Company.update.
  rewrite sqlForPartialUpdate_nonempty by exact Hne.
  unfold bind, lift, ret. cbn [setCols values].
  match goal with
  | |- context [db_query ?q ?p d] =>
      pose proof (db_query_log q p d) as Hl;
      destruct (db_query q p d) as [[rows|e] d1]
  end; cbn [snd] in *.
  - unfold Object_keys. unfold Object_values in Hl. rewrite length_map in *.
    destruct (first_row rows); exact Hl.
  - unfold Object_keys. unfold Object_values in Hl. rewrite length_map in *.
    exact Hl.
Qed.

Lemma job_update_log key data d :
  data <> [] ->
  log (snd (Job.update key data d)) =
  log d ++
  [(Job.update_sql
      (String.concat ", "
         (map_with_index (column_assignment Job.jsToSql) 0 (Object_keys data)))
      ("$" +++ show_Z (Z.of_nat (length (Object_keys data)) + 1)),
    Object_values data ++ [key])].
Proof.
  intros Hne. unfold Job.update.
  rewrite sqlForPartialUpdate_nonempty by exact Hne.
  unfold bind, lift, ret. cbn [setCols values].
  match goal with
  | |- context [db_query ?q ?p d] =>
      pose proof (db_query_log q p d) as Hl;
      destruct (db_query q p d) as [[rows|e] d1]
  end; cbn [snd] in *.
  - unfold Object_keys. unfold Object_values in Hl. rewrite length_map in *.
    destruct (first_row rows); exact Hl.
  - unfold Object_keys. unfold Object_values in Hl. rewrite length_map in *.
    exact Hl.
Qed.

(** [update], of a company and of a job, with a payload that is not empty:
    one statement reaches the store, whether the call returns or throws; its
    text depends on the names of the fields only, and the values of the
    fields, followed by the key of the entity, are its bind values. Two
    calls whose payloads name the same fields send the same text. *)
Theorem update_text_from_field_names (data1 data2 : JsObj) (k1 k2 : JsVal)
    (d1 d2 : Db) :
  data1 <> [] ->
  Object_keys data1 = Object_keys data2 ->
  (exists sql,
      log (snd (Company.update k1 data1 d1))
      = log d1 ++ [(sql, Object_values data1 ++ [k1])]
      /\ log (snd (Company.update k2 data2 d2))
         = log d2 ++ [(sql, Object_values data2 ++ [k2])])
  /\ (exists sql,
        log (snd (Job.update k1 data1 d1))
        = log d1 ++ [(sql, Object_values data1 ++ [k1])]
        /\ log (snd (Job.update k2 data2 d2))
           = log d2 ++ [(sql, Object_values data2 ++ [k2])]).
Proof.
  intros Hne Hkeys.
  assert (Hne2 : data2 <> []).
  { intros ->. destruct data1; [congruence|discriminate Hkeys]. }
  split; eexists; split.
  - apply company_update_log. exact Hne.
  - rewrite (company_update_log k2 data2 d2 Hne2), <- Hkeys. reflexivity.
  - apply job_update_log. exact Hne.
  - rewrite (job_update_log k2 data2 d2 Hne2), <- Hkeys. reflexivity.
Qed.

Lemma update_text_from_field_names_witness :
  (exists sql,
      log (snd (Company.update (JStr "acme") [("name", JStr "A")] example_db))
      = log example_db ++ [(sql, Object_values [("name", JStr "A")] ++ [JStr "acme"])]
      /\ log (snd (Company.update (JStr "bolt") [("name", JStr "B'; --")]
                     companies_db))
         = log companies_db
           ++ [(sql, Object_values [("name", JStr "B'; --")] ++ [JStr "bolt"])])
  /\ (exists sql,
        log (snd (Job.update (JStr "acme") [("name", JStr "A")] example_db))
        = log example_db
          ++ [(sql, Object_values [("name", JStr "A")] ++ [JStr "acme"])]
        /\ log (snd (Job.update (JStr "bolt") [("name", JStr "B'; --")]
                       companies_db))
           = log companies_db
             ++ [(sql, Object_values [("name", JStr "B'; --")] ++ [JStr "bolt"])]).
Proof.
  apply (update_text_from_field_names
           [("name", JStr "A")] [("name", JStr "B'; --")]
           (JStr "acme") (JStr "bolt") example_db companies_db).
  - discriminate.
  - reflexivity.
Defined.

(** ** A job for a company that is not there *)

Lemma query_job_insert_orphan t sv ev c sal eq st :
  Sql.coerce Sql.TyInt (Sql.prepareValue sv) = Sql.Done (Sql.of_int sal) ->
  Sql.coerce Sql.TyNumeric (Sql.prepareValue ev) = Sql.Done (Sql.of_numeric eq) ->
  ~ In c (Sql.handles st) ->
  Sql.query Job.insert_sql [JStr t; sv; ev; JStr c] st =
  (Sql.Failed ConstraintViolation,
   Sql.with_seq st (Sql.jobs_id_seq st + 1)).
Proof.
  intros Hsal Heq Hc.
  unfold Sql.query. rewrite parse_job_insert.
  cbn [Sql.execute String.eqb Ascii.eqb Bool.eqb].
  unfold Sql.insert_job, Sql.bind_insert.
  cbn -[Sql.coerce Sql.mem Sql.count_id Sql.equity_in_range Z.add].
  rewrite Hsal, Heq.
  cbn -[Sql.mem Sql.count_id Sql.equity_in_range Z.add].
  destruct sal as [z|]; destruct eq as [q|];
    cbn -[Sql.mem Sql.count_id Sql.equity_in_range Z.add];
    fold (Sql.handles st); rewrite (mem_false _ _ Hc);
    rewrite andb_false_r; reflexivity.
Qed.

(** [Job.create] for a company that is not in the store, the other values
    being readable at the types of their columns and every job of the store
    belonging to a company of the store: the manager does not look the
    company up, the store refuses the row, and the caller gets the failure
    of the store; no company and no job is added or changed. *)
Theorem job_create_unknown_company (d : Db) (data : JsObj) t c sal eq :
  get data "title" = JStr t ->
  get data "company_handle" = JStr c ->
  Sql.coerce Sql.TyInt (Sql.prepareValue (get data "salary"))
    = Sql.Done (Sql.of_int sal) ->
  Sql.coerce Sql.TyNumeric (Sql.prepareValue (get data "equity"))
    = Sql.Done (Sql.of_numeric eq) ->
  (forall j, In j (Sql.jobs (store d)) ->
             In (Sql.job_company_handle j) (Sql.handles (store d))) ->
  ~ In c (Sql.handles (store d)) ->
  exists d',
    Job.create data d = (Throw (StoreError ConstraintViolation), d')
    /\ Sql.companies (store d') = Sql.companies (store d)
    /\ Sql.jobs (store d') = Sql.jobs (store d).
Proof.
  intros Ht Hc Hsal Heq Hfk Habs.
  unfold Job.create, bind, db_query. rewrite Ht, Hc.
  rewrite query_job_duplicate_check.
  rewrite filter_none.
  - cbn [map first_row hd_error store].
    rewrite (query_job_insert_orphan t _ _ c sal eq _ Hsal Heq Habs).
    cbn. eexists. split; [reflexivity|]. split; reflexivity.
  - intros r Hr. rewrite job_pair_qualifies.
    destruct (String.eqb_spec (Sql.job_company_handle r) c) as [Ec|];
      [|apply andb_false_r].
    exfalso. apply Habs. rewrite <- Ec. now apply Hfk.
Qed.

Lemma job_create_unknown_company_witness :
  exists d',
    Job.create [("title", JStr "welder"); ("salary", JNum 100);
                ("equity", JStr "0.5"); ("company_handle", JStr "nowhere")]
      example_db = (Throw (StoreError ConstraintViolation), d')
    /\ Sql.companies (store d') = Sql.companies (store example_db)
    /\ Sql.jobs (store d') = Sql.jobs (store example_db).
Proof.
  apply (job_create_unknown_company example_db
           [("title", JStr "welder"); ("salary", JNum 100);
            ("equity", JStr "0.5"); ("company_handle", JStr "nowhere")]
           "welder" "nowhere" (Some 100%Z)
           (Some {| Sql.mant := 5; Sql.scale := 1 |})).
  - reflexivity.
  - reflexivity.
  - reflexivity.
  - reflexivity.
  - intros j Hj. vm_compute in Hj. vm_compute.
    repeat (destruct Hj as [<-|Hj]; [auto|]). destruct Hj.
  - vm_compute. intros H.
    repeat (destruct H as [H|H]; [discriminate H|]). destruct H.
Defined.

(** ** The words of a NotFound *)

(** For a handle and an id that are not in the store, the message of the
    NotFound that each operation throws: it names the key that was asked
    for, and [Job.update] calls the missing job a company. *)
Theorem not_found_messages (d : Db) (h : string) (i : Z) :
  ~ In h (Sql.handles (store d)) ->
  Sql.in_int4 i = true ->
  ~ In i (map Sql.job_id (Sql.jobs (store d))) ->
  fst (Company.get (JStr h) d) = Throw (NotFoundError ("No company: " +++ h))
  /\ fst (Company.remove (JStr h) d)
     = Throw (NotFoundError ("No company: " +++ h))
  /\ (forall data, data <> [] -> Company.valid_update data = true ->
        fst (Company.update (JStr h) data d)
        = Throw (NotFoundError ("No company: " +++ h)))
  /\ fst (Job.get (JNum i) d) = Throw (NotFoundError ("No job: " +++ show_Z i))
  /\ fst (Job.remove (JNum i) d)
     = Throw (NotFoundError ("No job: " +++ show_Z i))
  /\ (forall data, data <> [] -> Job.valid_update data = true ->
        fst (Job.update (JNum i) data d)
        = Throw (NotFoundError ("No company: " +++ show_Z i))).
Proof.
  intros Hh Hi Habs.
  split; [|split; [|split; [|split; [|split]]]].
  - destruct (company_get_absent h d Hh) as [d' [-> _]]. reflexivity.
  - destruct (company_remove_absent h d Hh) as [d' [-> _]]. reflexivity.
  - intros data Hne Hv.
    destruct (company_update_absent h data d Hne Hv Hh) as [d' [-> _]].
    reflexivity.
  - destruct (job_get_absent i d Hi Habs) as [d' [-> _]]. reflexivity.
  - destruct (job_remove_absent i d Hi Habs) as [d' [-> _]]. reflexivity.
  - intros data Hne Hv.
    destruct (job_update_absent i data d Hi Hne Hv Habs) as [d' [-> _]].
    reflexivity.
Qed.

Lemma not_found_messages_witness :
  fst (Company.get (JStr "nope") example_db)
  = Throw (NotFoundError ("No company: " +++ "nope"))
  /\ fst (Company.remove (JStr "nope") example_db)
     = Throw (NotFoundError ("No company: " +++ "nope"))
  /\ (forall data, data <> [] -> Company.valid_update data = true ->
        fst (Company.update (JStr "nope") data example_db)
        = Throw (NotFoundError ("No company: " +++ "nope")))
  /\ fst (Job.get (JNum 77) example_db)
     = Throw (NotFoundError ("No job: " +++ show_Z 77))
  /\ fst (Job.remove (JNum 77) example_db)
     = Throw (NotFoundError ("No job: " +++ show_Z 77))
  /\ (forall data, data <> [] -> Job.valid_update data = true ->
        fst (Job.update (JNum 77) data example_db)
        = Throw (NotFoundError ("No company: " +++ show_Z 77))).
Proof.
  apply (not_found_messages example_db "nope" 77).
  - vm_compute. intros H.
    repeat (destruct H as [H|H]; [discriminate H|]). destruct H.
  - reflexivity.
  - vm_compute. intros H.
    repeat (destruct H as [H|H]; [discriminate H|]). destruct H.
Defined.

(** ** update, then get *)

(** When the assignments leave the condition of the UPDATE as it was, the
    rows that qualify afterwards are the rows that were rewritten. *)
Lemma update_rows_filter {R} `{Sql.Table R} w a (rows table changed : list R) :
  (forall r r', Sql.apply_assignments a r r = Some r' ->
                Sql.qualifies w r' = Sql.qualifies w r) ->
  Sql.update_rows w a rows = Some (table, changed) ->
  filter (Sql.qualifies w) table = changed.
Proof.
  intros Hkeep. revert table changed.
  induction rows as [|r rows IH]; intros table changed; simpl.
  - intros [= <- <-]. reflexivity.
  - destruct (Sql.update_rows w a rows) as [[t c]|]; [|discriminate].
    specialize (IH t c eq_refl).
    destruct (Sql.qualifies w r) eqn:Hq.
    + destruct (Sql.apply_assignments a r r) as [r'|] eqn:E; [|discriminate].
      intros [= <- <-]. simpl. rewrite (Hkeep r r' E), Hq, IH. reflexivity.
    + intros [= <- <-]. simpl. rewrite Hq. exact IH.
Qed.

(** [Company.update] with documented fields, then [Company.get] of the same
    handle: when the update returns a company, the lookup that follows
    returns that same company, and reads only. *)
Theorem company_update_then_get (d d' : Db) (h : string) (data row : JsObj) :
  Forall (fun k => In k Company.updatable) (Object_keys data) ->
  Company.update (JStr h) data d = (Ok row, d') ->
  exists d'',
    Company.get (JStr h) d' = (Ok row, d'')
    /\ store d'' = store d'.
Proof.
  intros Hdom. destruct data as [|kv data]; [discriminate|].
  set (payload := kv :: data) in *.
  rewrite company_update_query by (assumption || discriminate).
  unfold Sql.update_company.
  destruct (Sql.bind_assignments _ _) as [a|f] eqn:Ea; cbn [Sql.and_then];
    [|discriminate].
  rewrite (bind_where_company_key _ _ h (nth_error_last_param _ (JStr h))).
  cbn [Sql.and_then Sql.bind_items Sql.traverse company_returning
       Sql.bind_item Sql.si_column Sql.column_type Sql.assoc Sql.columns
       Sql.company_table String.eqb Ascii.eqb Bool.eqb].
  destruct (Sql.update_rows (company_key h) a (Sql.companies (store d)))
    as [[table changed]|] eqn:E; [|discriminate].
  destruct (forallb _ changed); cbn [Sql.require Sql.and_then]; [|discriminate].
  destruct (forallb _ (Sql.jobs (store d))); cbn [Sql.require Sql.and_then];
    [|discriminate].
  assert (Hfilter : filter (Sql.qualifies (company_key h)) table = changed).
  { apply (update_rows_filter _ a (Sql.companies (store d)) _ _); [|exact E].
    intros r r' Happ. rewrite !company_key_qualifies. f_equal.
    apply (apply_assignments_handle a r r r'); [|exact Happ].
    rewrite (bind_assignments_names _ _ _ Ea), assignments_names.
    now apply company_columns_not_handle. }
  destruct changed as [|r' changed]; cbn; [discriminate|].
  intros [= <- <-].
  unfold Company.get, bind, db_query. rewrite query_company_get.
  cbn [store Sql.companies Sql.with_companies]. rewrite Hfilter.
  cbn. eexists. split; reflexivity.
Qed.

Lemma company_update_then_get_witness :
  exists d'',
    Company.get (JStr "bolt")
      (snd (Company.update (JStr "bolt") [("name", JStr "Bolt & Co")] example_db))
    = (fst (Company.update (JStr "bolt") [("name", JStr "Bolt & Co")] example_db),
       d'')
    /\ store d''
       = store (snd (Company.update (JStr "bolt") [("name", JStr "Bolt & Co")]
                       example_db)).
Proof.
  assert (E : exists row,
             Company.update (JStr "bolt") [("name", JStr "Bolt & Co")] example_db
             = (Ok row,
                snd (Company.update (JStr "bolt") [("name", JStr "Bolt & Co")]
                       example_db))
             /\ fst (Company.update (JStr "bolt") [("name", JStr "Bolt & Co")]
                       example_db) = Ok row).
  { eexists. split; vm_compute; reflexivity. }
  destruct E as [row [E ->]].
  apply (company_update_then_get example_db _ "bolt"
           [("name", JStr "Bolt & Co")] row).
  - constructor; [simpl; auto|constructor].
  - exact E.
Defined.

(** [Job.update] with documented fields, then [Job.get] of the same id:
    when the update returns a job, the lookup that follows returns that same
    job, and reads only. *)
Theorem job_update_then_get (d d' : Db) (i : Z) (data row : JsObj) :
  Sql.in_int4 i = true ->
  Forall (fun k => In k Job.updatable) (Object_keys data) ->
  Job.update (JNum i) data d = (Ok row, d') ->
  exists d'',
    Job.get (JNum i) d' = (Ok row, d'')
    /\ store d'' = store d'.
Proof.
  intros Hi Hdom. destruct data as [|kv data]; [discriminate|].
  set (payload := kv :: data) in *.
  rewrite job_update_query by (assumption || discriminate).
  unfold Sql.update_job.
  destruct (Sql.bind_assignments _ _) as [a|f] eqn:Ea; cbn [Sql.and_then];
    [|discriminate].
  rewrite (bind_where_job_key _ _ i Hi (nth_error_last_param _ (JNum i))).
  cbn [Sql.and_then Sql.bind_items Sql.traverse job_returning
       Sql.bind_item Sql.si_column Sql.column_type Sql.assoc Sql.columns
       Sql.job_table String.eqb Ascii.eqb Bool.eqb].
  destruct (Sql.update_rows (job_key i) a (Sql.jobs (store d)))
    as [[table changed]|] eqn:E; [|discriminate].
  destruct (forallb _ changed); cbn [Sql.require Sql.and_then]; [|discriminate].
  assert (Hfilter : filter (Sql.qualifies (job_key i)) table = changed).
  { apply (update_rows_filter _ a (Sql.jobs (store d)) _ _); [|exact E].
    intros r r' Happ. rewrite !job_key_qualifies. f_equal.
    apply (apply_assignments_id a r r r'); [|exact Happ].
    rewrite (bind_assignments_names _ _ _ Ea), assignments_names.
    now apply job_columns_not_id. }
  destruct changed as [|r' changed]; cbn; [discriminate|].
  intros [= <- <-].
  unfold Job.get, bind, db_query. rewrite (query_job_get i _ Hi).
  cbn [store Sql.jobs Sql.with_jobs]. rewrite Hfilter.
  cbn. eexists. split; reflexivity.
Qed.

Lemma job_update_then_get_witness :
  exists d'',
    Job.get (JNum 1)
      (snd (Job.update (JNum 1) [("salary", JNum 150)] example_db))
    = (fst (Job.update (JNum 1) [("salary", JNum 150)] example_db), d'')
    /\ store d''
       = store (snd (Job.update (JNum 1) [("salary", JNum 150)] example_db)).
Proof.
  assert (E : exists row,
             Job.update (JNum 1) [("salary", JNum 150)] example_db
             = (Ok row, snd (Job.update (JNum 1) [("salary", JNum 150)] example_db))
             /\ fst (Job.update (JNum 1) [("salary", JNum 150)] example_db)
                = Ok row).
  { eexists. split; vm_compute; reflexivity. }
  destruct E as [row [E ->]].
  apply (job_update_then_get example_db _ 1 [("salary", JNum 150)] row).
  - reflexivity.
  - constructor; [simpl; auto|constructor].
  - exact E.
Defined.
